(** * Creative transformation engine (Kargo x Amazon DSP): a shallow embedding

    Sources embedded here:
    - [app/services/creative_processor.py]  (SnippetTransformer, CreativeProcessor)
    - [app/utils/validation.py]             (CreativeValidator)
    - [app/models/creative.py]              (enums, ViewabilityConfig, CreativeConfig,
                                             ProcessingMetadata, ProcessedCreative)
    - [app/models/database.py]              (ProcessedCreativeDB, the engine)
    - [app/utils/retry.py]                  (retry_async, CircuitBreaker)
    - [app/services/kargo_client.py]        (MockKargoClient)
    - [app/services/amazon_client.py]       (MockAmazonDSPClient)

    Python strings are sequences of code points.  They are modelled as
    [list ascii], one [ascii] per code point, which covers the code points
    0..255; whitespace and case folding below follow Python's tables on that
    range (the interpreter is Python 3.11 or later, as the set-up script
    of the repository asks).  The library's [urlparse], the snippet
    provider, the clock and the identifier generator are inputs of the
    model; the table [processed_creatives] and the requests sent to the
    provider are its state. *)

From Stdlib Require Import Ascii String DecimalString.
From Stdlib Require Import ZArith Lia Bool Arith PeanoNat List.
From Stdlib Require DecimalPos DecimalZ.
Import ListNotations.
Open Scope string_scope.
Open Scope nat_scope.
Open Scope list_scope.

(* ================================================================== *)
(** * Python strings *)
(* ================================================================== *)

Module Py.

Definition str := list ascii.

(** A string literal of the source. *)
Definition py (s : string) : str := list_ascii_of_string s.

(** The double quote, which the source writes inside its literals. *)
Definition dq : ascii := "034"%char.
Definition nl : ascii := "010"%char.

(** The source's literals are transcribed with every double quote written
    as a backquote (a character the source never uses); [tpl] restores it. *)
Definition unq (c : ascii) : ascii := if Ascii.eqb c "`"%char then dq else c.
Definition tpl (s : string) : str := map unq (py s).

(** Lines of a multi-line literal, joined by a line feed. *)
Fixpoint unlines (ls : list str) : str :=
  match ls with
  | [] => []
  | [l] => l
  | l :: ls' => l ++ nl :: unlines ls'
  end.
Definition tlines (ls : list string) : str := unlines (map tpl ls).

(** [str.isspace] on one code point: TAB..CR, FS..US, space, NEL, NBSP. *)
Definition isspace (c : ascii) : bool :=
  let n := nat_of_ascii c in
  ((9 <=? n) && (n <=? 13)) || ((28 <=? n) && (n <=? 32))
  || (n =? 133) || (n =? 160).

(** [str.lower] on one code point: A..Z and the Latin-1 capitals. *)
Definition lower (c : ascii) : ascii :=
  let n := nat_of_ascii c in
  if ((65 <=? n) && (n <=? 90))
     || ((192 <=? n) && (n <=? 222) && negb (n =? 215))
  then ascii_of_nat (n + 32) else c.

Definition isdigit (c : ascii) : bool :=
  let n := nat_of_ascii c in (48 <=? n) && (n <=? 57).

(** [s.startswith(p)], returning what follows the prefix. *)
Fixpoint strip_prefix (p s : str) : option str :=
  match p with
  | [] => Some s
  | a :: p' =>
      match s with
      | [] => None
      | c :: s' => if Ascii.eqb a c then strip_prefix p' s' else None
      end
  end.

Definition startswith (p s : str) : bool :=
  match strip_prefix p s with Some _ => true | None => false end.

(** [sub in s]. *)
Fixpoint contains (sub s : str) : bool :=
  startswith sub s
  || match s with
     | [] => false
     | _ :: s' => contains sub s'
     end.

(** [s.replace(old, new)]: leftmost occurrences, not overlapping.  The
    fuel is the number of scanning steps; [replace] gives enough. *)
Fixpoint replace_fuel (fuel : nat) (old new s : str) : str :=
  match fuel with
  | 0 => s
  | S f =>
      match strip_prefix old s with
      | Some r => new ++ replace_fuel f old new r
      | None =>
          match s with
          | [] => []
          | c :: s' => c :: replace_fuel f old new s'
          end
      end
  end.

Definition replace (old new s : str) : str :=
  match old with
  | [] => new ++ flat_map (fun c => c :: new) s
  | _ => replace_fuel (S (length s)) old new s
  end.

(** [s.lstrip()], [s.rstrip()], [s.strip()]. *)
Fixpoint lstrip (s : str) : str :=
  match s with
  | c :: s' => if isspace c then lstrip s' else s
  | [] => []
  end.
Definition rstrip (s : str) : str := rev (lstrip (rev s)).
Definition strip (s : str) : str := rstrip (lstrip s).

(** [s.split(sep)] for a one-character separator. *)
Fixpoint split (sep : ascii) (s : str) : list str :=
  match s with
  | [] => [[]]
  | c :: s' =>
      if Ascii.eqb c sep then [] :: split sep s'
      else match split sep s' with
           | w :: ws => (c :: w) :: ws
           | [] => [[c]]
           end
  end.

(** [s.split(sep, 1)]: at most one cut, at the first separator. *)
Fixpoint split1 (sep : ascii) (s : str) : list str :=
  match s with
  | [] => [[]]
  | c :: s' =>
      if Ascii.eqb c sep then [[]; s']
      else match split1 sep s' with
           | w :: ws => (c :: w) :: ws
           | [] => [[c]]
           end
  end.

(** [str(n)] for an integer. *)
Definition str_of_Z (n : Z) : str :=
  py (NilZero.string_of_int (Z.to_int n)).

(** [sys.get_int_max_str_digits()]: 4300 unless configured otherwise; the
    repository does not configure it. *)
Definition int_max_str_digits : nat := 4300.

(** [format(n, "02d")]: zero padding up to a width of two; a negative
    number already has two characters.  The interpreter refuses to print
    an integer of more than [int_max_str_digits] digits, the sign not
    counted: [None] stands for that [ValueError]. *)
Definition format_02d (n : Z) : option str :=
  if int_max_str_digits <? length (str_of_Z (Z.abs n)) then None
  else
    let s := str_of_Z n in
    Some (if length s <? 2 then "0"%char :: s else s).

(** The whitespace [int] skips around a number: TAB..CR and the space, and
    NEL and NBSP, which the conversion turns into a space before it reads
    the text.  The separators FS..US are whitespace for [str.isspace] but
    not here: [int] refuses a text that holds one. *)
Definition int_space (c : ascii) : bool :=
  let n := nat_of_ascii c in
  ((9 <=? n) && (n <=? 13)) || (n =? 32) || (n =? 133) || (n =? 160).

Fixpoint int_lstrip (s : str) : str :=
  match s with
  | c :: s' => if int_space c then int_lstrip s' else s
  | [] => []
  end.
Definition int_strip (s : str) : str := rev (int_lstrip (rev (int_lstrip s))).

(** [int(s)] on a string: surrounding whitespace is dropped, one sign is
    allowed, digits may be grouped by single underscores, and there may be
    at most [int_max_str_digits] digits.  [None] stands for [ValueError]. *)
Definition digit_val (c : ascii) : Z := Z.of_nat (nat_of_ascii c - 48).

Fixpoint int_digits (acc : Z) (digits : nat) (after_digit : bool) (s : str)
  : option Z :=
  match s with
  | [] =>
      if after_digit && (digits <=? int_max_str_digits) then Some acc else None
  | c :: s' =>
      if isdigit c then int_digits (10 * acc + digit_val c)%Z (S digits) true s'
      else if Ascii.eqb c "_"%char
           then (if after_digit then int_digits acc digits false s' else None)
           else None
  end.

Definition int (s : str) : option Z :=
  match int_strip s with
  | c :: s' =>
      if Ascii.eqb c "-"%char then option_map Z.opp (int_digits 0 0 false s')
      else if Ascii.eqb c "+"%char then int_digits 0 0 false s'
      else int_digits 0 0 false (c :: s')
  | [] => None
  end.

End Py.

(* ================================================================== *)
(** * The fragment of Python's [re] the source uses

    Every pattern of the source is a sequence of single characters,
    character sets, and starred (greedy or lazy) characters or sets.
    Matching is by backtracking, the first successful path in priority
    order. *)
(* ================================================================== *)

Module Re.
Import Py.

Record flags := Flags { IGNORECASE : bool; DOTALL : bool }.

Inductive catom :=
| ALit (c : ascii)           (* a literal character *)
| ASpace.                    (* \s *)

Inductive cset :=
| Atom (a : catom)
| Dot                        (* . *)
| NotIn (l : list catom).    (* [^...] *)

Inductive item :=
| One (c : cset)
| Star (c : cset)            (* c*  *)
| StarLazy (c : cset).       (* c*? *)

Definition regex := list item.

Definition catom_match (fl : flags) (a : catom) (x : ascii) : bool :=
  match a with
  | ALit c =>
      if IGNORECASE fl then Ascii.eqb (lower c) (lower x) else Ascii.eqb c x
  | ASpace => isspace x
  end.

Definition cset_match (fl : flags) (cs : cset) (x : ascii) : bool :=
  match cs with
  | Atom a => catom_match fl a x
  | Dot => DOTALL fl || negb (Ascii.eqb x nl)
  | NotIn l => negb (existsb (fun a => catom_match fl a x) l)
  end.

(** A result is the matched text and what follows it. *)
Definition mres := option (str * str).

Definition consumed (c : ascii) (r : mres) : mres :=
  match r with
  | Some (m, rest) => Some (c :: m, rest)
  | None => None
  end.

(** [f*] then [k]: the longest run first. *)
Fixpoint star_greedy (f : ascii -> bool) (k : str -> mres) (s : str) : mres :=
  match s with
  | c :: s' =>
      if f c
      then match star_greedy f k s' with
           | Some (m, rest) => Some (c :: m, rest)
           | None => k s
           end
      else k s
  | [] => k []
  end.

(** [f*?] then [k]: the shortest run first. *)
Fixpoint star_lazy (f : ascii -> bool) (k : str -> mres) (s : str) : mres :=
  match k s with
  | Some r => Some r
  | None =>
      match s with
      | c :: s' => if f c then consumed c (star_lazy f k s') else None
      | [] => None
      end
  end.

(** A match of [p] anchored at the start of the string. *)
Fixpoint match_here (fl : flags) (p : regex) : str -> mres :=
  match p with
  | [] => fun s => Some ([], s)
  | One cs :: p' =>
      fun s =>
        match s with
        | c :: s' =>
            if cset_match fl cs c then consumed c (match_here fl p' s') else None
        | [] => None
        end
  | Star cs :: p' => star_greedy (cset_match fl cs) (match_here fl p')
  | StarLazy cs :: p' => star_lazy (cset_match fl cs) (match_here fl p')
  end.

(** One left-to-right pass: the characters copied and the matches found,
    in order.  Matches do not overlap; an empty match is followed by one
    copied character. *)
Fixpoint scan (fuel : nat) (fl : flags) (p : regex) (s : str)
  : list (ascii + str) :=
  match fuel with
  | 0 => []
  | S f =>
      match match_here fl p s with
      | Some ([], _) =>
          inr [] :: match s with
                    | [] => []
                    | c :: s' => inl c :: scan f fl p s'
                    end
      | Some (m, r) => inr m :: scan f fl p r
      | None =>
          match s with
          | [] => []
          | c :: s' => inl c :: scan f fl p s'
          end
      end
  end.

Definition chunks (fl : flags) (p : regex) (s : str) : list (ascii + str) :=
  scan (S (length s)) fl p s.

(** [re.findall(p, s, flags)] for a pattern without groups. *)
Definition findall (fl : flags) (p : regex) (s : str) : list str :=
  flat_map (fun x => match x with inr m => [m] | inl _ => [] end)
           (chunks fl p s).

(** [re.sub(p, repl, s, flags=flags)] for a replacement without escapes. *)
Definition sub (fl : flags) (p : regex) (repl s : str) : str :=
  flat_map (fun x => match x with inr _ => repl | inl c => [c] end)
           (chunks fl p s).

(** The literal characters of a pattern. *)
Definition lits (s : string) : regex := map (fun c => One (Atom (ALit c))) (py s).

Definition no_flags : flags := Flags false false.

(** [re.IGNORECASE | re.DOTALL], the flags of every tag pattern. *)
Definition re_flags : flags := Flags true true.

(** The same, from a list of characters. *)
Definition litl (L : str) : regex := map (fun c => One (Atom (ALit c))) L.

End Re.

(* ================================================================== *)
(** * app/models/creative.py *)
(* ================================================================== *)

Module Models.
Import Py.

Inductive error :=
| ValueError (msg : str)
| ValidationError (msg : str)
| TypeError (msg : str)
| RetryableHTTPError (status_code : Z)
| IntegrityError
| MultipleResultsFound
| StatementError (orig : error).

Inductive result (A : Type) :=
| Ok (a : A)
| Raise (e : error).
Arguments Ok {A} a.
Arguments Raise {A} e.

Definition bind {A B} (r : result A) (k : A -> result B) : result B :=
  match r with
  | Ok a => k a
  | Raise e => Raise e
  end.

Inductive CreativeFormat := RUNWAY | INSTREAM_VIDEO | ENHANCED_PREROLL.
Inductive ViewabilityPhase := PHASE_1 | PHASE_2.
Inductive ViewabilityVendor := DOUBLE_VERIFY | IAS.
Inductive DeviceType := DESKTOP | MOBILE | TABLET | CTV.

Definition ViewabilityVendor_eqb (a b : ViewabilityVendor) : bool :=
  match a, b with
  | DOUBLE_VERIFY, DOUBLE_VERIFY | IAS, IAS => true
  | _, _ => false
  end.

(** [x in vendors]. *)
Definition vendor_in (x : ViewabilityVendor) (v : list ViewabilityVendor) : bool :=
  existsb (ViewabilityVendor_eqb x) v.

(** The values of the enumerations. *)
Definition CreativeFormat_value (f : CreativeFormat) : str :=
  match f with
  | RUNWAY => py "runway"
  | INSTREAM_VIDEO => py "instream_video"
  | ENHANCED_PREROLL => py "enhanced_preroll"
  end.

(** A [DeviceType] inside an f-string.  The project runs on Python 3.11+,
    where a [str]-mixed enumeration formats as its class and member name
    (older interpreters print the value). *)
Definition DeviceType_format (d : DeviceType) : str :=
  match d with
  | DESKTOP => py "DeviceType.DESKTOP"
  | MOBILE => py "DeviceType.MOBILE"
  | TABLET => py "DeviceType.TABLET"
  | CTV => py "DeviceType.CTV"
  end.

(** An [Optional[str]] inside an f-string. *)
Definition format_opt (o : option str) : str :=
  match o with
  | Some s => s
  | None => py "None"
  end.

Record ViewabilityConfig := mkViewabilityConfig {
  phase : ViewabilityPhase;
  vendors : list ViewabilityVendor;
  method : str;
  dv_native : bool;
  ias_removed : bool;
  ias_s2s_enabled : bool;
  dsp_seat_id : option str;
  pub_id : option str
}.

(** The validator of the field [vendors]; [phase] is declared before
    [vendors], so it is already in [values]. *)
Definition validate_vendors_for_phase
  (v : list ViewabilityVendor) (phase : ViewabilityPhase)
  : result (list ViewabilityVendor) :=
  match phase with
  | PHASE_1 =>
      if vendor_in IAS v
      then Raise (ValueError
             (py "Phase 1 should not include IAS (removed to prevent conflicts)"))
      else Ok v
  | PHASE_2 =>
      if length v <? 2
      then Raise (ValueError
             (py "Phase 2 should include both IAS and DV vendors"))
      else Ok v
  end.

(** [ViewabilityConfig(phase=..., vendors=..., method=..., ...)]. *)
Definition ViewabilityConfig_new
  (phase : ViewabilityPhase) (vendors : list ViewabilityVendor) (method : str)
  (dv_native ias_removed ias_s2s_enabled : bool)
  (dsp_seat_id pub_id : option str) : result ViewabilityConfig :=
  bind (validate_vendors_for_phase vendors phase) (fun v =>
  Ok (mkViewabilityConfig phase v method dv_native ias_removed
        ias_s2s_enabled dsp_seat_id pub_id)).

Record CreativeConfig := mkCreativeConfig {
  name : str;
  format : CreativeFormat;
  dimensions : str;
  snippet_url : str;
  device_type : DeviceType;
  duration : option Z;
  vast_version : option str;
  branded_canvas : bool;
  cache_buster : bool;
  viewability_config : ViewabilityConfig;
  amazon_macros : bool;
  click_tracking : bool
}.

(** The validator of the field [dimensions]:
    [width, height = v.split('x'); int(width); int(height)]. *)
Definition CreativeConfig_validate_dimensions (v : str) : result str :=
  match split "x"%char v with
  | [width; height] =>
      match int width, int height with
      | Some _, Some _ => Ok v
      | _, _ => Raise (ValueError
          (py "Dimensions must be in format 'widthxheight' (e.g., '320x50')"))
      end
  | _ => Raise (ValueError
          (py "Dimensions must be in format 'widthxheight' (e.g., '320x50')"))
  end.

(** [CreativeConfig(name=..., format=..., ...)]. *)
Definition CreativeConfig_new
  (name : str) (format : CreativeFormat) (dimensions snippet_url : str)
  (device_type : DeviceType) (duration : option Z) (vast_version : option str)
  (branded_canvas cache_buster : bool) (viewability_config : ViewabilityConfig)
  (amazon_macros click_tracking : bool) : result CreativeConfig :=
  bind (CreativeConfig_validate_dimensions dimensions) (fun d =>
  Ok (mkCreativeConfig name format d snippet_url device_type duration
        vast_version branded_canvas cache_buster viewability_config
        amazon_macros click_tracking)).

Record ProcessingMetadata := mkProcessingMetadata {
  processed_at : Z;
  processing_time_ms : Z;
  original_snippet_size : nat;
  processed_snippet_size : nat;
  tags_removed : list str;
  tags_added : list str;
  warnings : list str;
  phase_applied : ViewabilityPhase
}.

Record ProcessedCreative := mkProcessedCreative {
  creative_id : str;
  pc_name : str;
  pc_format : CreativeFormat;
  original_snippet_url : str;
  processed_code : str;
  amazon_dsp_ready : bool;
  creative_type : str;
  pc_viewability_config : ViewabilityConfig;
  processing_metadata : ProcessingMetadata;
  created_at : Z;
  updated_at : Z
}.

(** The values of the other enumerations. *)
Definition ViewabilityPhase_value (p : ViewabilityPhase) : str :=
  match p with
  | PHASE_1 => py "phase_1"
  | PHASE_2 => py "phase_2"
  end.

Definition ViewabilityVendor_value (v : ViewabilityVendor) : str :=
  match v with
  | DOUBLE_VERIFY => py "double_verify"
  | IAS => py "ias"
  end.

Definition DeviceType_value (d : DeviceType) : str :=
  match d with
  | DESKTOP => py "desktop"
  | MOBILE => py "mobile"
  | TABLET => py "tablet"
  | CTV => py "ctv"
  end.

(** What the dictionary returned by [.dict()] can hold.  A member of a
    [str]-mixed enumeration is a [str]; a [datetime] stays a [datetime]. *)
#[warnings="-register-all"] Inductive value :=
| VNone
| VBool (b : bool)
| VInt (n : Z)
| VFloat (x : Z)
| VStr (s : str)
| VDatetime (t : Z)
| VList (items : list value)
| VDict (items : list (str * value)).

Definition VOpt {A} (f : A -> value) (o : option A) : value :=
  match o with
  | Some a => f a
  | None => VNone
  end.

(** [ViewabilityConfig.dict()], the fields in the order of declaration. *)
Definition ViewabilityConfig_dict (c : ViewabilityConfig) : value :=
  VDict [ (py "phase", VStr (ViewabilityPhase_value (phase c)));
          (py "vendors",
           VList (map (fun v => VStr (ViewabilityVendor_value v)) (vendors c)));
          (py "method", VStr (method c));
          (py "dv_native", VBool (dv_native c));
          (py "ias_removed", VBool (ias_removed c));
          (py "ias_s2s_enabled", VBool (ias_s2s_enabled c));
          (py "dsp_seat_id", VOpt VStr (dsp_seat_id c));
          (py "pub_id", VOpt VStr (pub_id c)) ].

(** [CreativeConfig.dict()]. *)
Definition CreativeConfig_dict (c : CreativeConfig) : value :=
  VDict [ (py "name", VStr (name c));
          (py "format", VStr (CreativeFormat_value (format c)));
          (py "dimensions", VStr (dimensions c));
          (py "snippet_url", VStr (snippet_url c));
          (py "device_type", VStr (DeviceType_value (device_type c)));
          (py "duration", VOpt VInt (duration c));
          (py "vast_version", VOpt VStr (vast_version c));
          (py "branded_canvas", VBool (branded_canvas c));
          (py "cache_buster", VBool (cache_buster c));
          (py "viewability_config",
           ViewabilityConfig_dict (viewability_config c));
          (py "amazon_macros", VBool (amazon_macros c));
          (py "click_tracking", VBool (click_tracking c)) ].

(** [ProcessingMetadata.dict()]: [processed_at] is a [datetime]. *)
Definition ProcessingMetadata_dict (m : ProcessingMetadata) : value :=
  VDict [ (py "processed_at", VDatetime (processed_at m));
          (py "processing_time_ms", VFloat (processing_time_ms m));
          (py "original_snippet_size",
           VInt (Z.of_nat (original_snippet_size m)));
          (py "processed_snippet_size",
           VInt (Z.of_nat (processed_snippet_size m)));
          (py "tags_removed", VList (map VStr (tags_removed m)));
          (py "tags_added", VList (map VStr (tags_added m)));
          (py "warnings", VList (map VStr (warnings m)));
          (py "phase_applied", VStr (ViewabilityPhase_value (phase_applied m))) ].

(** [json.dumps(v)] with the default encoder, which is what a [JSON]
    column applies to its value when the engine is given no serializer of
    its own ([create_async_engine] gets none in [app/models/database.py]):
    the encoder has no form for a [datetime] and raises [TypeError].
    Only whether it raises matters here. *)
Fixpoint json_serializable (v : value) : bool :=
  match v with
  | VDatetime _ => false
  | VList items => forallb json_serializable items
  | VDict items => forallb (fun kv => json_serializable (snd kv)) items
  | _ => true
  end.

Definition json_dumps (v : value) : result unit :=
  if json_serializable v then Ok tt
  else Raise (TypeError (py "Object of type datetime is not JSON serializable")).

End Models.

(* ================================================================== *)
(** * app/utils/validation.py: CreativeValidator *)
(* ================================================================== *)

Module CreativeValidator.
Import Py Re Models.

(** What [urllib.parse.urlparse] returns, as far as the source reads it. *)
Record ParseResult := mkParseResult { scheme : str; netloc : str }.

(** [urlparse] belongs to the interpreter's library: the functions that
    call it take it as an argument; [None] stands for a raised exception. *)
Definition urlparse_t := str -> option ParseResult.

Definition IAS_TAG_PATTERNS : list regex :=
  [ lits "<img" ++ [Star (NotIn [ALit ">"%char])] ++ lits "adsafeprotected"
      ++ [Star (NotIn [ALit ">"%char])] ++ lits ">";
    lits "<script" ++ [Star (NotIn [ALit ">"%char])] ++ lits "ias"
      ++ [Star (NotIn [ALit ">"%char])] ++ lits ">" ++ [StarLazy Dot]
      ++ lits "</script>";
    lits "fw.adsafeprotected.com";
    lits "pixel.adsafeprotected.com";
    lits "ias.tracking" ].

Definition DV_TAG_PATTERNS : list regex :=
  [ lits "<img" ++ [Star (NotIn [ALit ">"%char])] ++ lits "doubleverify"
      ++ [Star (NotIn [ALit ">"%char])] ++ lits ">";
    lits "<script" ++ [Star (NotIn [ALit ">"%char])] ++ lits "dvtp_src"
      ++ [Star (NotIn [ALit ">"%char])] ++ lits ">" ++ [StarLazy Dot]
      ++ lits "</script>";
    lits "<script" ++ [Star (NotIn [ALit ">"%char])] ++ lits "doubleVerify"
      ++ [Star (NotIn [ALit ">"%char])] ++ lits ">" ++ [StarLazy Dot]
      ++ lits "</script>";
    lits "tps.doubleverify.com" ].

Definition validate_snippet_url (urlparse : urlparse_t) (url : str) : bool :=
  match urlparse url with
  | Some parsed =>
      match scheme parsed, netloc parsed with
      | [], _ | _, [] => false
      | _, _ => contains (py "snippet.kargo.com") (netloc parsed)
      end
  | None => false
  end.

Definition validate_dimensions (dimensions : str) : result (Z * Z) :=
  if negb (contains (py "x") dimensions)
  then Raise (ValidationError (py "Dimensions must be in format 'widthxheight'"))
  else
    match split1 "x"%char dimensions with
    | [width_str; height_str] =>
        match int width_str with
        | None => Raise (ValidationError (py "Width and height must be valid numbers"))
        | Some width =>
            match int height_str with
            | None =>
                Raise (ValidationError (py "Width and height must be valid numbers"))
            | Some height =>
                if (width <=? 0)%Z || (height <=? 0)%Z
                then Raise (ValidationError
                              (py "Width and height must be positive numbers"))
                else Ok (width, height)
            end
        end
    | _ => Raise (ValidationError (py "Width and height must be valid numbers"))
    end.

Definition size_in (wh : Z * Z) (l : list (Z * Z)) : bool :=
  existsb (fun x => (fst x =? fst wh)%Z && (snd x =? snd wh)%Z) l.

Definition valid_runway_sizes : list (Z * Z) :=
  [(320, 50); (728, 90); (300, 250); (160, 600); (970, 250)]%Z.

Definition valid_video_companion_sizes : list (Z * Z) :=
  [(300, 50); (320, 50); (300, 250); (728, 90)]%Z.

Definition validate_creative_format_dimensions
  (format : CreativeFormat) (dimensions : str) : result bool :=
  bind (validate_dimensions dimensions) (fun wh =>
  match format with
  | RUNWAY => Ok (size_in wh valid_runway_sizes)
  | INSTREAM_VIDEO | ENHANCED_PREROLL => Ok (size_in wh valid_video_companion_sizes)
  end).

Definition detect_ias_tags (creative_code : str) : list str :=
  flat_map (fun pattern => findall re_flags pattern creative_code) IAS_TAG_PATTERNS.

Definition detect_dv_tags (creative_code : str) : list str :=
  flat_map (fun pattern => findall re_flags pattern creative_code) DV_TAG_PATTERNS.

Definition len_str {A} (l : list A) : str := str_of_Z (Z.of_nat (length l)).

Definition validate_phase_configuration
  (phase : ViewabilityPhase) (vendors : list ViewabilityVendor)
  (creative_code : str) : list str :=
  let ias_tags := detect_ias_tags creative_code in
  let dv_tags := detect_dv_tags creative_code in
  match phase with
  | PHASE_1 =>
      (if vendor_in IAS vendors
       then [py "Phase 1 should not include IAS vendor"] else [])
      ++ (match ias_tags with
          | [] => []
          | _ => [py "Phase 1 creative contains IAS tags that should be removed: "
                    ++ len_str ias_tags ++ py " found"]
          end)
      ++ (if vendor_in DOUBLE_VERIFY vendors
             && match dv_tags with [] => true | _ => false end
          then [py "Phase 1 configured for DV but no DV tags found in creative"]
          else [])
  | PHASE_2 =>
      (if negb (vendor_in IAS vendors)
       then [py "Phase 2 should include IAS vendor for S2S integration"] else [])
      ++ (if negb (vendor_in DOUBLE_VERIFY vendors)
          then [py "Phase 2 should include DoubleVerify vendor"] else [])
      ++ (if 2 <? length ias_tags
          then [py "Phase 2 creative has excessive IAS tags (" ++ len_str ias_tags
                  ++ py "), S2S should minimize client-side tags"]
          else [])
  end.

Definition validate_vast_structure (vast_code : str) : list str :=
  (if negb (contains (py "<VAST") vast_code)
   then [py "Missing VAST root element"] else [])
  ++ (if negb (contains (py "<Ad>") vast_code)
         && negb (contains (py "<Ad ") vast_code)
      then [py "Missing Ad element"] else [])
  ++ (if negb (contains (py "<Creative>") vast_code)
         && negb (contains (py "<Creative ") vast_code)
      then [py "Missing Creative element"] else [])
  ++ (if negb (contains (py "<TrackingEvents>") vast_code)
      then [py "Missing TrackingEvents element"] else [])
  ++ flat_map (fun event =>
       if negb (contains (tpl "event=`" ++ event ++ tpl "`") vast_code)
       then [py "Missing required tracking event: " ++ event] else [])
     [py "start"; py "complete"].

End CreativeValidator.

(* ================================================================== *)
(** * app/services/creative_processor.py: SnippetTransformer *)
(* ================================================================== *)

Module SnippetTransformer.
Import Py Re Models.

Definition IAS_PATTERNS : list regex :=
  [ lits "<img" ++ [Star (NotIn [ALit ">"%char])] ++ lits "adsafeprotected"
      ++ [Star (NotIn [ALit ">"%char])] ++ lits ">";
    lits "<script" ++ [Star (NotIn [ALit ">"%char])] ++ lits "adsafeprotected"
      ++ [Star (NotIn [ALit ">"%char])] ++ lits ">" ++ [StarLazy Dot]
      ++ lits "</script>";
    lits "<script" ++ [Star (NotIn [ALit ">"%char])] ++ lits "fw.adsafeprotected"
      ++ [Star (NotIn [ALit ">"%char])] ++ lits ">" ++ [StarLazy Dot]
      ++ lits "</script>";
    lits "pixel.adsafeprotected.com"
      ++ [Star (NotIn [ALit dq; ASpace; ALit ">"%char])];
    lits "fw.adsafeprotected.com"
      ++ [Star (NotIn [ALit dq; ASpace; ALit ">"%char])] ].

Definition DV_PATTERNS : list regex :=
  [ lits "<img" ++ [Star (NotIn [ALit ">"%char])] ++ lits "doubleverify"
      ++ [Star (NotIn [ALit ">"%char])] ++ lits ">";
    lits "<script" ++ [Star (NotIn [ALit ">"%char])] ++ lits "doubleverify"
      ++ [Star (NotIn [ALit ">"%char])] ++ lits ">" ++ [StarLazy Dot]
      ++ lits "</script>";
    lits "<script" ++ [Star (NotIn [ALit ">"%char])] ++ lits "dvtp_src"
      ++ [Star (NotIn [ALit ">"%char])] ++ lits ">" ++ [StarLazy Dot]
      ++ lits "</script>";
    lits "tps.doubleverify.com"
      ++ [Star (NotIn [ALit dq; ASpace; ALit ">"%char])];
    lits "cdn.doubleverify.com"
      ++ [Star (NotIn [ALit dq; ASpace; ALit ">"%char])] ].

(** The dictionary, in insertion order (the order of iteration). *)
Definition AMAZON_MACROS : list (str * str) :=
  [ (py "${CLICK_URL}", py "${AMAZON_CLICK_URL}");
    (py "${IMPRESSION_URL}", py "${AMAZON_IMPRESSION_URL}");
    (py "${CAMPAIGN_ID}", py "${AMAZON_CAMPAIGN_ID}");
    (py "${CREATIVE_ID}", py "${AMAZON_CREATIVE_ID}");
    (py "${PLACEMENT_ID}", py "${AMAZON_PLACEMENT_ID}");
    (py "${SITE_ID}", py "${AMAZON_SITE_ID}");
    (py "${CACHEBUSTER}", py "${AMAZON_CACHEBUSTER}");
    (py "${GDPR}", py "${AMAZON_GDPR}");
    (py "${GDPR_CONSENT}", py "${AMAZON_GDPR_CONSENT}") ].

(** The pattern [\n\s*\n] of the whitespace clean-up. *)
Definition blank_lines : regex :=
  [One (Atom (ALit nl)); Star (Atom ASpace); One (Atom (ALit nl))].

(** One turn of the loop over [IAS_PATTERNS]. *)
Definition remove_pattern (st : str * list str) (pattern : regex)
  : str * list str :=
  let '(cleaned_code, removed_tags) := st in
  match findall re_flags pattern cleaned_code with
  | [] => st
  | matches => (sub re_flags pattern [] cleaned_code, removed_tags ++ matches)
  end.

Definition remove_ias_tags (snippet_code : str) : str * list str :=
  let '(cleaned_code, removed_tags) :=
    fold_left remove_pattern IAS_PATTERNS (snippet_code, []) in
  let cleaned_code := sub no_flags blank_lines [nl] cleaned_code in
  (strip cleaned_code, removed_tags).

Definition inject_amazon_macros (snippet_code : str) : str :=
  fold_left (fun processed_code kv => replace (fst kv) (snd kv) processed_code)
            AMAZON_MACROS snippet_code.

(** [time_ms] is [int(time.time() * 1000)] as the clock reads. *)
Definition generate_cache_buster (time_ms : Z) : str := str_of_Z time_ms.

Definition inject_cache_buster (time_ms : Z) (snippet_code : str)
  (cache_buster : option str) : str :=
  let cache_buster :=
    match cache_buster with
    | None => generate_cache_buster time_ms
    | Some cb => cb
    end in
  let processed_code := replace (py "${CACHEBUSTER}") cache_buster snippet_code in
  replace (py "${AMAZON_CACHEBUSTER}") cache_buster processed_code.

Definition wrap_display_html5_phase1 (snippet_code : str) (config : CreativeConfig)
  : str :=
  strip (
    tlines [ "";
            "        <div class=`amazon-dsp-display-wrapper` data-phase=`phase_1`>";
            "            <script type=`application/json` class=`amazon-config`>";
            "            {";
            "                `format`: `display_html5`,";
            "                `creative_name`: `" ]
    ++
    name config
    ++
    tlines [ "`,";
            "                `dimensions`: `" ]
    ++
    dimensions config
    ++
    tlines [ "`,";
            "                `device_type`: `" ]
    ++
    DeviceType_format (device_type config)
    ++
    tlines [ "`,";
            "                `viewability_vendor`: `double_verify`,";
            "                `viewability_method`: `platform_native`,";
            "                `phase`: `phase_1`";
            "            }";
            "            </script>";
            "            ";
            "            <!-- Original Kargo Creative (IAS removed, DV preserved) -->";
            "            " ]
    ++
    snippet_code
    ++
    tlines [ "";
            "            ";
            "            <script>";
            "                // Amazon DSP integration";
            "                window.amazonDSPConfig = {";
            "                    clickUrl: '${AMAZON_CLICK_URL}',";
            "                    impressionUrl: '${AMAZON_IMPRESSION_URL}',";
            "                    campaignId: '${AMAZON_CAMPAIGN_ID}',";
            "                    creativeId: '${AMAZON_CREATIVE_ID}',";
            "                    viewabilityMethod: 'platform_native'";
            "                };";
            "                ";
            "                // DV viewability handled by Amazon DSP platform";
            "                // No additional viewability pixels needed";
            "                console.log('Amazon DSP Phase 1 creative loaded:', window.amazonDSPConfig);";
            "            </script>";
            "        </div>";
            "        " ]
  ).

Definition wrap_display_html5_phase2 (snippet_code : str) (config : CreativeConfig)
  : str :=
  strip (
    tlines [ "";
            "        <div class=`amazon-dsp-display-wrapper` data-phase=`phase_2`>";
            "            <script type=`application/json` class=`amazon-config`>";
            "            {";
            "                `format`: `display_html5`,";
            "                `creative_name`: `" ]
    ++
    name config
    ++
    tlines [ "`,";
            "                `dimensions`: `" ]
    ++
    dimensions config
    ++
    tlines [ "`,";
            "                `device_type`: `" ]
    ++
    DeviceType_format (device_type config)
    ++
    tlines [ "`,";
            "                `viewability_vendors`: [`ias`, `double_verify`],";
            "                `viewability_method`: `s2s_plus_native`,";
            "                `phase`: `phase_2`,";
            "                `ias_s2s_enabled`: true,";
            "                `dsp_seat_id`: `" ]
    ++
    format_opt (dsp_seat_id (viewability_config config))
    ++
    tlines [ "`,";
            "                `pub_id`: `" ]
    ++
    format_opt (pub_id (viewability_config config))
    ++
    tlines [ "`";
            "            }";
            "            </script>";
            "            ";
            "            <!-- IAS S2S Configuration (no client-side tags needed) -->";
            "            <script type=`application/json` class=`ias-s2s-config`>";
            "            {";
            "                `seat_id`: `" ]
    ++
    format_opt (dsp_seat_id (viewability_config config))
    ++
    tlines [ "`,";
            "                `publisher_id`: `" ]
    ++
    format_opt (pub_id (viewability_config config))
    ++
    tlines [ "`,";
            "                `campaign_id`: `${AMAZON_CAMPAIGN_ID}`,";
            "                `creative_id`: `${AMAZON_CREATIVE_ID}`,";
            "                `measurement_method`: `server_to_server`";
            "            }";
            "            </script>";
            "            ";
            "            <!-- Original Kargo Creative (IAS removed, DV preserved) -->";
            "            " ]
    ++
    snippet_code
    ++
    tlines [ "";
            "            ";
            "            <script>";
            "                // Amazon DSP integration with dual vendor support";
            "                window.amazonDSPConfig = {";
            "                    clickUrl: '${AMAZON_CLICK_URL}',";
            "                    impressionUrl: '${AMAZON_IMPRESSION_URL}',";
            "                    campaignId: '${AMAZON_CAMPAIGN_ID}',";
            "                    creativeId: '${AMAZON_CREATIVE_ID}',";
            "                    viewabilityMethod: 's2s_plus_native',";
            "                    vendors: {";
            "                        ias: 'server_side',";
            "                        dv: 'platform_native'";
            "                    }";
            "                };";
            "                ";
            "                console.log('Amazon DSP Phase 2 creative loaded:', window.amazonDSPConfig);";
            "            </script>";
            "        </div>";
            "        " ]
  ).

(** [{config.duration:02d}]: formatting [None] raises, and so does an
    integer too long to be printed. *)
Definition format_duration (duration : option Z) : result str :=
  match duration with
  | Some d =>
      match format_02d d with
      | Some printed => Ok printed
      | None => Raise (ValueError
          (py "Exceeds the limit (4300 digits) for integer string conversion; use sys.set_int_max_str_digits() to increase the limit"))
      end
  | None => Raise (TypeError
      (py "unsupported format string passed to NoneType.__format__"))
  end.

(** [canvas_width, canvas_height = config.dimensions.split('x')]. *)
Definition unpack_dimensions (dimensions : str) : result (str * str) :=
  match split "x"%char dimensions with
  | [canvas_width; canvas_height] => Ok (canvas_width, canvas_height)
  | [] =>
      Raise (ValueError (py "not enough values to unpack (expected 2, got 0)"))
  | [_] =>
      Raise (ValueError (py "not enough values to unpack (expected 2, got 1)"))
  | _ => Raise (ValueError (py "too many values to unpack (expected 2)"))
  end.

Definition vast_head_phase1 (ad_id duration_02d : str) (config : CreativeConfig)
  : str :=
    tlines [ "<?xml version=`1.0` encoding=`UTF-8`?>";
            "        <VAST version=`3.0`>";
            "            <Ad id=`" ]
    ++
    ad_id
    ++
    tlines [ "`>";
            "                <Wrapper>";
            "                    <AdSystem>Kargo Amazon DSP Phase 1</AdSystem>";
            "                    <VASTAdTagURI>";
            "                        <![CDATA[" ]
    ++
    snippet_url config
    ++
    tlines [ "?cb=${AMAZON_CACHEBUSTER}]]>";
            "                    </VASTAdTagURI>";
            "                    ";
            "                    <!-- Amazon DSP Impression Tracking -->";
            "                    <Impression>";
            "                        <![CDATA[${AMAZON_IMPRESSION_URL}]]>";
            "                    </Impression>";
            "                    ";
            "                    <!-- DV Viewability Tracking (wrapped within VAST) -->";
            "                    <Impression>";
            "                        <![CDATA[https://tps.doubleverify.com/visit.jpg?ctx=818052&cmp=${AMAZON_CAMPAIGN_ID}&sid=${AMAZON_SITE_ID}&plc=${AMAZON_PLACEMENT_ID}&crt=${AMAZON_CREATIVE_ID}&tagtype=video&dvtagver=6.1.src&cb=${AMAZON_CACHEBUSTER}]]>";
            "                    </Impression>";
            "                    ";
            "                    <Creatives>";
            "                        <Creative>";
            "                            <Linear>";
            "                                <Duration>00:00:" ]
    ++
    duration_02d
    ++
    tlines [ "</Duration>";
            "                                ";
            "                                <!-- DV Video Tracking Events -->";
            "                                <TrackingEvents>";
            "                                    <Tracking event=`start`>";
            "                                        <![CDATA[https://tps.doubleverify.com/event.jpg?ctx=818052&cmp=${AMAZON_CAMPAIGN_ID}&evt=start&cb=${AMAZON_CACHEBUSTER}]]>";
            "                                    </Tracking>";
            "                                    <Tracking event=`firstQuartile`>";
            "                                        <![CDATA[https://tps.doubleverify.com/event.jpg?ctx=818052&cmp=${AMAZON_CAMPAIGN_ID}&evt=25&cb=${AMAZON_CACHEBUSTER}]]>";
            "                                    </Tracking>";
            "                                    <Tracking event=`midpoint`>";
            "                                        <![CDATA[https://tps.doubleverify.com/event.jpg?ctx=818052&cmp=${AMAZON_CAMPAIGN_ID}&evt=50&cb=${AMAZON_CACHEBUSTER}]]>";
            "                                    </Tracking>";
            "                                    <Tracking event=`thirdQuartile`>";
            "                                        <![CDATA[https://tps.doubleverify.com/event.jpg?ctx=818052&cmp=${AMAZON_CAMPAIGN_ID}&evt=75&cb=${AMAZON_CACHEBUSTER}]]>";
            "                                    </Tracking>";
            "                                    <Tracking event=`complete`>";
            "                                        <![CDATA[https://tps.doubleverify.com/event.jpg?ctx=818052&cmp=${AMAZON_CAMPAIGN_ID}&evt=complete&cb=${AMAZON_CACHEBUSTER}]]>";
            "                                    </Tracking>";
            "                                </TrackingEvents>";
            "                                ";
            "                                <VideoClicks>";
            "                                    <ClickThrough>";
            "                                        <![CDATA[${AMAZON_CLICK_URL}]]>";
            "                                    </ClickThrough>";
            "                                </VideoClicks>";
            "                            </Linear>";
            "                            ";
            "                            <!-- Branded Canvas Companion (if enabled) -->" ].

Definition vast_companion_phase1 (canvas_width canvas_height : str) : str :=
    tlines [ "";
            "                            <CompanionAds>";
            "                                <Companion width=`" ]
    ++
    canvas_width
    ++
    tpl "` height=`"
    ++
    canvas_height
    ++
    tlines [ "`>";
            "                                    <StaticResource creativeType=`text/html`>";
            "                                        <![CDATA[";
            "                                        <div class=`branded-canvas-phase1` style=`width: " ]
    ++
    canvas_width
    ++
    tpl "px; height: "
    ++
    canvas_height
    ++
    tlines [ "px; background: linear-gradient(45deg, #1e3c72, #2a5298); display: flex; align-items: center; justify-content: center; color: white; font-family: Arial, sans-serif; cursor: pointer;` onclick=`window.open('${AMAZON_CLICK_URL}', '_blank');`>";
            "                                            <div style=`text-align: center;`>";
            "                                                <div style=`font-size: 12px; font-weight: bold;`>Premium Brand</div>";
            "                                                <div style=`font-size: 9px;`>Discover More</div>";
            "                                            </div>";
            "                                        </div>";
            "                                        ]]>";
            "                                    </StaticResource>";
            "                                    <CompanionClickThrough>";
            "                                        <![CDATA[${AMAZON_CLICK_URL}]]>";
            "                                    </CompanionClickThrough>";
            "                                </Companion>";
            "                            </CompanionAds>" ].

Definition vast_tail_phase1 (config : CreativeConfig) : str :=
    tlines [ "";
            "                        </Creative>";
            "                    </Creatives>";
            "                    ";
            "                    <Extensions>";
            "                        <Extension type=`Amazon_DSP`>";
            "                            <AmazonData>";
            "                                <Phase>phase_1</Phase>";
            "                                <ViewabilityMethod>dv_wrapped</ViewabilityMethod>";
            "                                <CreativeName>" ]
    ++
    name config
    ++
    tlines [ "</CreativeName>";
            "                            </AmazonData>";
            "                        </Extension>";
            "                    </Extensions>";
            "                </Wrapper>";
            "            </Ad>";
            "        </VAST>" ].

Definition wrap_vast_phase1 (snippet_code : str) (config : CreativeConfig)
  : result str :=
  let ad_id := name config ++ py "_phase1" in
  bind (format_duration (duration config)) (fun duration_02d =>
  let vast_wrapper := vast_head_phase1 ad_id duration_02d config in
  bind (if branded_canvas config
        then bind (unpack_dimensions (dimensions config)) (fun wh =>
             Ok (vast_wrapper ++ vast_companion_phase1 (fst wh) (snd wh)))
        else Ok vast_wrapper) (fun vast_wrapper =>
  let vast_wrapper := vast_wrapper ++ vast_tail_phase1 config in
  Ok (strip vast_wrapper))).

Definition vast_head_phase2 (ad_id duration_02d : str) (config : CreativeConfig)
  : str :=
    tlines [ "<?xml version=`1.0` encoding=`UTF-8`?>";
            "        <VAST version=`3.0`>";
            "            <Ad id=`" ]
    ++
    ad_id
    ++
    tlines [ "`>";
            "                <Wrapper>";
            "                    <AdSystem>Kargo Amazon DSP Phase 2</AdSystem>";
            "                    <VASTAdTagURI>";
            "                        <![CDATA[" ]
    ++
    snippet_url config
    ++
    tlines [ "?cb=${AMAZON_CACHEBUSTER}]]>";
            "                    </VASTAdTagURI>";
            "                    ";
            "                    <!-- Amazon DSP Impression Tracking -->";
            "                    <Impression>";
            "                        <![CDATA[${AMAZON_IMPRESSION_URL}]]>";
            "                    </Impression>";
            "                    ";
            "                    <!-- DV Viewability Tracking (wrapped within VAST) -->";
            "                    <Impression>";
            "                        <![CDATA[https://tps.doubleverify.com/visit.jpg?ctx=818052&cmp=${AMAZON_CAMPAIGN_ID}&sid=${AMAZON_SITE_ID}&plc=${AMAZON_PLACEMENT_ID}&crt=${AMAZON_CREATIVE_ID}&tagtype=video&dvtagver=6.1.src&cb=${AMAZON_CACHEBUSTER}]]>";
            "                    </Impression>";
            "                    ";
            "                    <Creatives>";
            "                        <Creative>";
            "                            <Linear>";
            "                                <Duration>00:00:" ]
    ++
    duration_02d
    ++
    tlines [ "</Duration>";
            "                                ";
            "                                <!-- DV Video Tracking Events -->";
            "                                <TrackingEvents>";
            "                                    <Tracking event=`start`>";
            "                                        <![CDATA[https://tps.doubleverify.com/event.jpg?ctx=818052&cmp=${AMAZON_CAMPAIGN_ID}&evt=start&cb=${AMAZON_CACHEBUSTER}]]>";
            "                                    </Tracking>";
            "                                    <Tracking event=`firstQuartile`>";
            "                                        <![CDATA[https://tps.doubleverify.com/event.jpg?ctx=818052&cmp=${AMAZON_CAMPAIGN_ID}&evt=25&cb=${AMAZON_CACHEBUSTER}]]>";
            "                                    </Tracking>";
            "                                    <Tracking event=`midpoint`>";
            "                                        <![CDATA[https://tps.doubleverify.com/event.jpg?ctx=818052&cmp=${AMAZON_CAMPAIGN_ID}&evt=50&cb=${AMAZON_CACHEBUSTER}]]>";
            "                                    </Tracking>";
            "                                    <Tracking event=`thirdQuartile`>";
            "                                        <![CDATA[https://tps.doubleverify.com/event.jpg?ctx=818052&cmp=${AMAZON_CAMPAIGN_ID}&evt=75&cb=${AMAZON_CACHEBUSTER}]]>";
            "                                    </Tracking>";
            "                                    <Tracking event=`complete`>";
            "                                        <![CDATA[https://tps.doubleverify.com/event.jpg?ctx=818052&cmp=${AMAZON_CAMPAIGN_ID}&evt=complete&cb=${AMAZON_CACHEBUSTER}]]>";
            "                                    </Tracking>";
            "                                </TrackingEvents>";
            "                                ";
            "                                <VideoClicks>";
            "                                    <ClickThrough>";
            "                                        <![CDATA[${AMAZON_CLICK_URL}]]>";
            "                                    </ClickThrough>";
            "                                </VideoClicks>";
            "                            </Linear>";
            "                            ";
            "                            <!-- Branded Canvas Companion (if enabled) -->" ].

Definition vast_companion_phase2 (canvas_width canvas_height : str) : str :=
    tlines [ "";
            "                            <CompanionAds>";
            "                                <Companion width=`" ]
    ++
    canvas_width
    ++
    tpl "` height=`"
    ++
    canvas_height
    ++
    tlines [ "`>";
            "                                    <StaticResource creativeType=`text/html`>";
            "                                        <![CDATA[";
            "                                        <div class=`branded-canvas-phase2` style=`width: " ]
    ++
    canvas_width
    ++
    tpl "px; height: "
    ++
    canvas_height
    ++
    tlines [ "px; background: linear-gradient(45deg, #1e3c72, #2a5298); display: flex; align-items: center; justify-content: center; color: white; font-family: Arial, sans-serif; cursor: pointer;` onclick=`window.open('${AMAZON_CLICK_URL}', '_blank');`>";
            "                                            <div style=`text-align: center;`>";
            "                                                <div style=`font-size: 12px; font-weight: bold;`>Premium Brand</div>";
            "                                                <div style=`font-size: 9px;`>Discover More</div>";
            "                                            </div>";
            "                                        </div>";
            "                                        ]]>";
            "                                    </StaticResource>";
            "                                    <CompanionClickThrough>";
            "                                        <![CDATA[${AMAZON_CLICK_URL}]]>";
            "                                    </CompanionClickThrough>";
            "                                </Companion>";
            "                            </CompanionAds>" ].

Definition vast_tail_phase2 (config : CreativeConfig) : str :=
    tlines [ "";
            "                        </Creative>";
            "                    </Creatives>";
            "                    ";
            "                    <Extensions>";
            "                        <!-- IAS S2S Configuration -->";
            "                        <Extension type=`IAS_S2S`>";
            "                            <IASData>";
            "                                <SeatId>" ]
    ++
    format_opt (dsp_seat_id (viewability_config config))
    ++
    tlines [ "</SeatId>";
            "                                <PublisherId>" ]
    ++
    format_opt (pub_id (viewability_config config))
    ++
    tlines [ "</PublisherId>";
            "                                <MeasurementType>server_to_server</MeasurementType>";
            "                                <CampaignId>${AMAZON_CAMPAIGN_ID}</CampaignId>";
            "                                <CreativeId>${AMAZON_CREATIVE_ID}</CreativeId>";
            "                            </IASData>";
            "                        </Extension>";
            "                        ";
            "                        <Extension type=`Amazon_DSP`>";
            "                            <AmazonData>";
            "                                <Phase>phase_2</Phase>";
            "                                <ViewabilityMethod>ias_s2s_plus_dv_wrapped</ViewabilityMethod>";
            "                                <CreativeName>" ]
    ++
    name config
    ++
    tlines [ "</CreativeName>";
            "                                <DualVendorEnabled>true</DualVendorEnabled>";
            "                            </AmazonData>";
            "                        </Extension>";
            "                    </Extensions>";
            "                </Wrapper>";
            "            </Ad>";
            "        </VAST>" ].

Definition wrap_vast_phase2 (snippet_code : str) (config : CreativeConfig)
  : result str :=
  let ad_id := name config ++ py "_phase2" in
  bind (format_duration (duration config)) (fun duration_02d =>
  let vast_wrapper := vast_head_phase2 ad_id duration_02d config in
  bind (if branded_canvas config
        then bind (unpack_dimensions (dimensions config)) (fun wh =>
             Ok (vast_wrapper ++ vast_companion_phase2 (fst wh) (snd wh)))
        else Ok vast_wrapper) (fun vast_wrapper =>
  let vast_wrapper := vast_wrapper ++ vast_tail_phase2 config in
  Ok (strip vast_wrapper))).

End SnippetTransformer.

(* ================================================================== *)
(** * app/services/creative_processor.py: CreativeProcessor *)
(* ================================================================== *)

Module CreativeProcessor.
Import Py Re Models CreativeValidator.

(** [app/services/kargo_client.py]: the fields of the response. *)
Record KargoSnippetResponse := mkKargoSnippetResponse {
  snippet_id : str;
  ks_snippet_url : str;
  snippet_code : str;
  ks_format : str;
  ks_status : str;
  ks_dimensions : option str;
  ks_duration : option Z
}.

(** [app/models/database.py]: a row of [processed_creatives]. *)
Record ProcessedCreativeDB := mkProcessedCreativeDB {
  row_creative_id : str;
  row_name : str;
  row_format : str;
  row_original_snippet_url : str;
  row_processed_code : str;
  row_amazon_dsp_ready : bool;
  row_creative_type : str;
  row_amazon_creative_id : option str;
  row_viewability_config : ViewabilityConfig;
  row_processing_metadata : ProcessingMetadata;
  row_original_config : CreativeConfig;
  row_status : str;
  row_upload_status : option str;
  row_created_at : Z;
  row_updated_at : Z
}.

(** What the processor reads from outside: the URL parser of the library,
    the snippet provider, the clock and the identifier generator. *)
Record Env := mkEnv {
  urlparse : urlparse_t;
  get_snippet : str -> result KargoSnippetResponse;
  time_ms : Z;          (* int(time.time() * 1000) *)
  elapsed_ms : Z;       (* (time.time() - start_time) * 1000 *)
  utcnow : Z;
  uuid4 : str
}.

(** What the processor changes: the table behind the session, and the
    requests sent to the snippet provider (oldest first). *)
Record World := mkWorld {
  db : list ProcessedCreativeDB;
  fetched : list str
}.

(** Computations that may raise and that thread the world.  Logging and
    the metrics counters are left out: they change neither what is
    returned nor what is stored. *)
Definition M (A : Type) : Type := World -> result A * World.

Definition ret {A} (a : A) : M A := fun w => (Ok a, w).
Definition lift {A} (r : result A) : M A := fun w => (r, w).
Definition mbind {A B} (m : M A) (k : A -> M B) : M B :=
  fun w =>
    match m w with
    | (Ok a, w') => k a w'
    | (Raise e, w') => (Raise e, w')
    end.

Notation "x <- m ;; k" := (mbind m (fun x => k))
  (at level 61, m at next level, right associativity).
Notation "m ;;; k" := (mbind m (fun _ => k))
  (at level 61, right associativity).

(** [await kargo_client.get_snippet(url)]: the request leaves, then the
    provider answers or fails (after whatever retries the client makes). *)
Definition fetch (env : Env) (url : str) : M KargoSnippetResponse :=
  fun w => (get_snippet env url, mkWorld (db w) (fetched w ++ [url])).

Definition _validate_config (env : Env) (config : CreativeConfig) : result unit :=
  if negb (validate_snippet_url (urlparse env) (snippet_url config))
  then Raise (ValueError (py "Invalid snippet URL: " ++ snippet_url config))
  else
    bind (validate_creative_format_dimensions (format config) (dimensions config))
      (fun _unusual =>
    let _warnings :=
      validate_phase_configuration (phase (viewability_config config))
        (vendors (viewability_config config)) [] in
    Ok tt).

Definition _transform_snippet (env : Env)
  (snippet_response : KargoSnippetResponse) (config : CreativeConfig)
  : result (str * ProcessingMetadata) :=
  let original_code := snippet_code snippet_response in
  (* Phase 1: Remove IAS tags *)
  let '(processed_code, tags_removed) :=
    match phase (viewability_config config) with
    | PHASE_1 => SnippetTransformer.remove_ias_tags original_code
    | PHASE_2 => (original_code, [])
    end in
  (* Inject Amazon macros *)
  let processed_code := SnippetTransformer.inject_amazon_macros processed_code in
  let tags_added := [py "amazon_macros"] in
  (* Inject cache buster *)
  let '(processed_code, tags_added) :=
    if cache_buster config
    then (SnippetTransformer.inject_cache_buster (time_ms env) processed_code None,
          tags_added ++ [py "cache_buster"])
    else (processed_code, tags_added) in
  (* Format-specific processing *)
  bind
    (match format config with
     | RUNWAY =>
         let processed_code :=
           match phase (viewability_config config) with
           | PHASE_1 =>
               SnippetTransformer.wrap_display_html5_phase1 processed_code config
           | PHASE_2 =>
               SnippetTransformer.wrap_display_html5_phase2 processed_code config
           end in
         Ok (processed_code, tags_added ++ [py "amazon_dsp_wrapper"], [])
     | INSTREAM_VIDEO | ENHANCED_PREROLL =>
         bind
           (match phase (viewability_config config) with
            | PHASE_1 => SnippetTransformer.wrap_vast_phase1 processed_code config
            | PHASE_2 => SnippetTransformer.wrap_vast_phase2 processed_code config
            end) (fun processed_code =>
         (* Validate VAST structure *)
         let vast_errors := validate_vast_structure processed_code in
         Ok (processed_code, tags_added ++ [py "vast_wrapper"], vast_errors))
     end) (fun '(processed_code, tags_added, warnings) =>
  (* Final validation *)
  let phase_warnings :=
    validate_phase_configuration (phase (viewability_config config))
      (vendors (viewability_config config)) processed_code in
  let warnings := warnings ++ phase_warnings in
  let metadata :=
    mkProcessingMetadata (utcnow env) (elapsed_ms env)
      (length original_code) (length processed_code)
      tags_removed tags_added warnings (phase (viewability_config config)) in
  Ok (processed_code, metadata)).

Definition _get_amazon_creative_type (format : CreativeFormat) : str :=
  match format with
  | RUNWAY => py "CUSTOM_HTML"
  | INSTREAM_VIDEO => py "VAST_3_0"
  | ENHANCED_PREROLL => py "VAST_3_0"
  end.

Definition str_eqb (a b : str) : bool :=
  if list_eq_dec Ascii.ascii_dec a b then true else false.

(** [select(ProcessedCreativeDB).where(creative_id == ...)]. *)
Definition select_by_id (creative_id : str) (rows : list ProcessedCreativeDB)
  : list ProcessedCreativeDB :=
  filter (fun r => str_eqb (row_creative_id r) creative_id) rows.

(** [result.scalar_one_or_none()]. *)
Definition scalar_one_or_none {A} (rows : list A) : result (option A) :=
  match rows with
  | [] => Ok None
  | [r] => Ok (Some r)
  | _ => Raise MultipleResultsFound
  end.

(** The parameters of the [INSERT] that a flush builds for a new row: the
    three [JSON] columns are serialized, in the order of the table's
    columns, from the dictionaries the row was given. *)
Definition bind_json_columns (row : ProcessedCreativeDB) : result unit :=
  bind (json_dumps (ViewabilityConfig_dict (row_viewability_config row)))
    (fun _ =>
  bind (json_dumps (ProcessingMetadata_dict (row_processing_metadata row)))
    (fun _ =>
  json_dumps (CreativeConfig_dict (row_original_config row)))).

(** [db_session.add(row); await db_session.flush()].  The flush first
    builds the parameters of the statement, and what a column's type raises
    there reaches the caller wrapped in a [StatementError]; the statement
    is then sent, and the table refuses a second row with the same
    [creative_id], which is unique.  A flush that raises leaves the table
    as it was. *)
Definition add_and_flush (row : ProcessedCreativeDB) : M unit :=
  fun w =>
    match bind_json_columns row with
    | Raise e => (Raise (StatementError e), w)
    | Ok _ =>
        match select_by_id (row_creative_id row) (db w) with
        | [] => (Ok tt, mkWorld (db w ++ [row]) (fetched w))
        | _ => (Raise IntegrityError, w)
        end
    end.

(** The row is given [creative.viewability_config.dict()],
    [creative.processing_metadata.dict()] and [config.dict()] for its
    [JSON] columns; the record of the row keeps the models these
    dictionaries come from. *)
Definition _store_processed_creative (env : Env)
  (creative : ProcessedCreative) (config : CreativeConfig) : M unit :=
  let db_creative :=
    mkProcessedCreativeDB (creative_id creative) (pc_name creative)
      (CreativeFormat_value (pc_format creative))
      (original_snippet_url creative) (processed_code creative)
      (amazon_dsp_ready creative) (creative_type creative) None
      (pc_viewability_config creative) (processing_metadata creative)
      config (py "processed") None (utcnow env) (utcnow env) in
  add_and_flush db_creative.

Definition process_creative (env : Env) (config : CreativeConfig)
  : M ProcessedCreative :=
  (* Validate configuration *)
  lift (_validate_config env config) ;;;
  (* Fetch snippet from Kargo *)
  snippet_response <- fetch env (snippet_url config) ;;
  let original_size := length (snippet_code snippet_response) in
  (* Process based on phase and format *)
  r <- lift (_transform_snippet env snippet_response config) ;;
  let '(processed_code, processing_metadata) := r in
  (* Generate unique creative ID *)
  let creative_id := uuid4 env in
  (* Create processed creative *)
  let processed_creative :=
    mkProcessedCreative creative_id (name config) (format config)
      (snippet_url config) processed_code true
      (_get_amazon_creative_type (format config))
      (viewability_config config) processing_metadata
      (utcnow env) (utcnow env) in
  (* Store in database *)
  _store_processed_creative env processed_creative config ;;;
  ret processed_creative.

(** [CreativeFormat(value)]. *)
Definition CreativeFormat_of_value (v : str) : result CreativeFormat :=
  if str_eqb v (py "runway") then Ok RUNWAY
  else if str_eqb v (py "instream_video") then Ok INSTREAM_VIDEO
  else if str_eqb v (py "enhanced_preroll") then Ok ENHANCED_PREROLL
  else Raise (ValueError (v ++ py " is not a valid CreativeFormat")).

(** The stored configuration is validated again when the model is built. *)
Definition ProcessedCreative_of_row (r : ProcessedCreativeDB)
  : result ProcessedCreative :=
  bind (CreativeFormat_of_value (row_format r)) (fun fmt =>
  let vc := row_viewability_config r in
  bind (ViewabilityConfig_new (phase vc) (vendors vc) (method vc) (dv_native vc)
          (ias_removed vc) (ias_s2s_enabled vc) (dsp_seat_id vc) (pub_id vc))
    (fun vc' =>
  Ok (mkProcessedCreative (row_creative_id r) (row_name r) fmt
        (row_original_snippet_url r) (row_processed_code r)
        (row_amazon_dsp_ready r) (row_creative_type r) vc'
        (row_processing_metadata r) (row_created_at r) (row_updated_at r)))).

Definition get_processed_creative (creative_id : str)
  : M (option ProcessedCreative) :=
  fun w =>
    match scalar_one_or_none (select_by_id creative_id (db w)) with
    | Raise e => (Raise e, w)
    | Ok None => (Ok None, w)
    | Ok (Some db_creative) =>
        (bind (ProcessedCreative_of_row db_creative) (fun c => Ok (Some c)), w)
    end.

(** [await db_session.delete(db_creative)]. *)
Definition session_delete (creative_id : str) : M unit :=
  fun w =>
    (Ok tt,
     mkWorld (filter (fun r => negb (str_eqb (row_creative_id r) creative_id)) (db w))
             (fetched w)).

Definition delete_processed_creative (creative_id : str) : M bool :=
  fun w =>
    match scalar_one_or_none (select_by_id creative_id (db w)) with
    | Raise e => (Raise e, w)
    | Ok None => (Ok false, w)
    | Ok (Some _) => (session_delete creative_id ;;; ret true) w
    end.

End CreativeProcessor.

(* ================================================================== *)
(** * Concrete inputs *)
(* ================================================================== *)

Module Examples.
Import Py Re Models CreativeValidator CreativeProcessor.

(** [urllib.parse.urlparse] on a plain URL: the scheme is what precedes the
    first colon when it is a letter followed by letters, digits, [+], [-]
    or [.]; the host is what follows [//] up to the first [/], [?] or [#]. *)
Definition isalpha (c : ascii) : bool :=
  let n := nat_of_ascii c in
  ((65 <=? n) && (n <=? 90)) || ((97 <=? n) && (n <=? 122)).

Definition scheme_char (c : ascii) : bool :=
  isalpha c || isdigit c
  || Ascii.eqb c "+"%char || Ascii.eqb c "-"%char || Ascii.eqb c "."%char.

Fixpoint break_at (f : ascii -> bool) (s : str) : str * str :=
  match s with
  | [] => ([], [])
  | c :: s' =>
      if f c then ([], s)
      else let '(a, b) := break_at f s' in (c :: a, b)
  end.

Definition urlparse_plain (url : str) : option ParseResult :=
  let '(pre, post) := break_at (Ascii.eqb ":"%char) url in
  let '(scheme, rest) :=
    match pre, post with
    | c :: _, _ :: post' =>
        if isalpha c && forallb scheme_char pre
        then (map lower pre, post') else ([], url)
    | _, _ => ([], url)
    end in
  match rest with
  | "/"%char :: "/"%char :: rest' =>
      let is_delim c :=
        Ascii.eqb c "/"%char || Ascii.eqb c "?"%char || Ascii.eqb c "#"%char in
      Some (mkParseResult scheme (fst (break_at is_delim rest')))
  | _ => Some (mkParseResult scheme [])
  end.

Definition kargo_url : str := py "https://snippet.kargo.com/snippet/dm/12345".

(** The test snippet of the mock provider. *)
Definition test_creative : str :=
  py "<div class='test-creative'>Test Creative for Development</div>".

(** What the provider answers when the markup is [code]. *)
Definition answer (code : str) : KargoSnippetResponse :=
  mkKargoSnippetResponse (py "12345") kargo_url code (py "runway") (py "active")
    (Some (py "320x50")) None.

(** A provider that answers every request with the markup [code]. *)
Definition provider (code : str) (url : str) : result KargoSnippetResponse :=
  Ok (mkKargoSnippetResponse (py "12345") url code (py "runway") (py "active")
        (Some (py "320x50")) None).

Definition env_of (code : str) : Env :=
  mkEnv urlparse_plain (provider code) 1700000000000 12 1700000000
        (py "3f2b8c1e-5d47-4a9b-9c60-7e1a2b3c4d5e").

Definition phase1_dv : ViewabilityConfig :=
  mkViewabilityConfig PHASE_1 [DOUBLE_VERIFY] (py "platform_native")
    true true false None None.

Definition phase2_both : ViewabilityConfig :=
  mkViewabilityConfig PHASE_2 [IAS; DOUBLE_VERIFY] (py "s2s_plus_wrapped")
    true true true (Some (py "KARGO_DSP_SEAT_001")) (Some (py "kargo_publisher_id")).

Definition config_of (format : CreativeFormat) (dimensions : str)
  (duration : option Z) (branded_canvas cache_buster : bool)
  (vc : ViewabilityConfig) : CreativeConfig :=
  mkCreativeConfig (py "Test Creative") format dimensions kargo_url MOBILE
    duration (Some (py "3.0")) branded_canvas cache_buster vc true true.

Definition runway_phase1 : CreativeConfig :=
  config_of RUNWAY (py "320x50") None false true phase1_dv.

Definition video_phase2 (duration : option Z) : CreativeConfig :=
  config_of ENHANCED_PREROLL (py "300x50") duration true true phase2_both.

Definition video_phase1 (duration : option Z) : CreativeConfig :=
  config_of INSTREAM_VIDEO (py "300x50") duration false true phase1_dv.

Definition empty_world : World := mkWorld [] [].

(** One IAS pixel with a long query string. *)
Definition long_ias_pixel : str :=
  tpl "<img src=`https://pixel.adsafeprotected.com/rfw/st/818052/81298/skeleton.gif?q="
  ++ repeat "a"%char 2000 ++ tpl "` style=`display:none;`>".

(** A VAST document with many media files. *)
Definition media_file : str :=
  tlines [ "<MediaFile delivery=`progressive` type=`video/mp4` width=`1920` height=`1080`>";
           "<![CDATA[https://cdn.kargo.com/video/premium-brand-15s.mp4]]>";
           "</MediaFile>"; "" ].

Definition long_vast : str :=
  tpl "<VAST version=`3.0`><Ad><InLine><Creatives><Creative><Linear><MediaFiles>"
  ++ concat (repeat media_file 50)
  ++ py "</MediaFiles></Linear></Creative></Creatives></InLine></Ad></VAST>".

Definition runway_phase2 : CreativeConfig :=
  config_of RUNWAY (py "320x50") None false false phase2_both.

(** The same with the cache buster switched on. *)
Definition runway_phase2_cb : CreativeConfig :=
  config_of RUNWAY (py "320x50") None false true phase2_both.

(** A markup that already carries the platform's cache-buster placeholder. *)
Definition many_cache_busters : str :=
  concat (repeat (py "<i>${AMAZON_CACHEBUSTER}</i>") 300).

(** A markup no IAS pattern matches, with a blank line and a trailing space. *)
Definition two_lines : str := py "a" ++ [nl; nl] ++ py "b ".

(** Two tags that name the vendor's domain, and no host of the last two
    patterns. *)
Definition two_tags : str :=
  tpl "<img src=`https://www.adsafeprotected.com/a.gif`><p>ad</p><img src=`https://static.adsafeprotected.com/b.gif`>".

(** One IAS pixel, and a link to the vendor's site. *)
Definition pixel_and_link : str :=
  tpl "<img src=`https://pixel.adsafeprotected.com/a.gif`><a href=`https://www.adsafeprotected.com/`>ad</a>".

(** The markup the PHASE_1 display path makes of the test snippet. *)
Definition stored_code : str :=
  SnippetTransformer.wrap_display_html5_phase1
    (SnippetTransformer.inject_cache_buster 1700000000000
       (SnippetTransformer.inject_amazon_macros
          (fst (SnippetTransformer.remove_ias_tags test_creative))) None)
    runway_phase1.

(** A row of the table for that markup. *)
Definition stored_row : ProcessedCreativeDB :=
  mkProcessedCreativeDB (py "3f2b8c1e-5d47-4a9b-9c60-7e1a2b3c4d5e")
    (py "Test Creative") (py "runway") kargo_url stored_code true
    (py "CUSTOM_HTML") None phase1_dv
    (mkProcessingMetadata 1700000000 12 (length test_creative)
       (length stored_code) []
       [py "amazon_macros"; py "cache_buster"; py "amazon_dsp_wrapper"]
       [] PHASE_1)
    runway_phase1 (py "processed") None 1700000000 1700000000.

(** A table that holds this one row, after one request to the provider. *)
Definition world_one : World := mkWorld [stored_row] [kargo_url].

End Examples.

(* ================================================================== *)
(** * The specification's wording, for comparison with the code *)
(* ================================================================== *)

Module Spec.
Import Py Models.

Definition all_digits (s : str) : bool :=
  match s with
  | [] => false
  | _ => forallb isdigit s
  end.

Definition digits_value (s : str) : Z :=
  fold_left (fun acc c => (10 * acc + digit_val c)%Z) s 0%Z.

(** "of the form digits x digits with both values strictly positive". *)
Definition well_formed_dimensions (d : str) : bool :=
  match split "x"%char d with
  | [w; h] =>
      all_digits w && all_digits h
      && (0 <? digits_value w)%Z && (0 <? digits_value h)%Z
  | _ => false
  end.

(** The errors the specification calls configuration errors. *)
Definition configuration_error (e : error) : Prop :=
  match e with
  | ValueError _ | ValidationError _ => True
  | _ => False
  end.

Definition video_family (f : CreativeFormat) : Prop :=
  f = INSTREAM_VIDEO \/ f = ENHANCED_PREROLL.

(** "N distinct VendorB pattern matches": the matches of every pattern in
    the markup as it comes in. *)
Definition pattern_matches (s : str) : nat :=
  length (flat_map (fun p => Re.findall Re.re_flags p s)
                   SnippetTransformer.IAS_PATTERNS).

End Spec.

(* ================================================================== *)
(** * Checks on a substitution table *)
(* ================================================================== *)

Module Table.
Import Py.

(** [k] and [v] differ at a position both have. *)
Fixpoint clash (k v : str) : bool :=
  match k, v with
  | a :: k', b :: v' => if Ascii.eqb a b then clash k' v' else true
  | _, _ => false
  end.

Definition absent (d : ascii) (s : str) : bool := negb (existsb (Ascii.eqb d) s).

(** The placeholder [k'], and the entry [kv], all start with [d], which
    occurs nowhere else in [k'] or in the replacement, and [k'] is not a
    beginning of the replacement. *)
Definition macro_shape (d : ascii) (k' : str) (kv : str * str) : bool :=
  match k', fst kv, snd kv with
  | a :: b', c :: _, e :: bV =>
      Ascii.eqb a d && Ascii.eqb c d && Ascii.eqb e d
      && absent d b' && absent d bV && clash k' (snd kv)
  | _, _, _ => false
  end.

Definition table_ok (d : ascii) (ms : list (str * str)) : bool :=
  forallb (fun k' => forallb (macro_shape d k') ms) (map fst ms).

(** No replacement is shorter than its placeholder. *)
Definition table_grows (ms : list (str * str)) : bool :=
  forallb (fun kv => length (fst kv) <=? length (snd kv)) ms.

End Table.

(* ================================================================== *)
(** * Notions the properties are stated with *)
(* ================================================================== *)

Module Notions.
Import Py Re SnippetTransformer.

Definition nonspace (c : ascii) : bool := negb (isspace c).

Definition has_nonspace (s : str) : bool := existsb nonspace s.

(** The first character, when there is one, is not whitespace. *)
Definition starts_clean (t : str) : Prop :=
  match t with
  | c :: _ => isspace c = false
  | [] => True
  end.

(** Two line feeds with nothing but whitespace between them. *)
Definition blank_run (t : str) : Prop :=
  exists a w b, t = a ++ nl :: w ++ nl :: b /\ forallb isspace w = true.

(** A line feed occurs in the whitespace the string begins with. *)
Fixpoint nl_in_ws_prefix (s : str) : bool :=
  match s with
  | c :: s' => isspace c && (Ascii.eqb nl c || nl_in_ws_prefix s')
  | [] => false
  end.

(** The string begins with a run of blank lines. *)
Definition blank_at (s : str) : bool :=
  match s with
  | c :: s' => Ascii.eqb nl c && nl_in_ws_prefix s'
  | [] => false
  end.

Fixpoint has_blank (s : str) : bool :=
  match s with
  | [] => false
  | _ :: s' => blank_at s || has_blank s'
  end.

(** The tail of the clean-up pattern: whitespace, then a line feed. *)
Definition ws_then_nl : str -> mres :=
  star_greedy (cset_match no_flags (Atom ASpace))
              (match_here no_flags [One (Atom (ALit nl))]).

(** The whitespace clean-up of [remove_ias_tags]. *)
Definition collapse (s : str) : str := sub no_flags blank_lines [nl] s.

(** One turn of the loop of [inject_amazon_macros]. *)
Definition inject_step (processed_code : str) (kv : str * str) : str :=
  replace (fst kv) (snd kv) processed_code.

(** A continuation returns a beginning of its input and what follows. *)
Definition splits (k : str -> mres) : Prop :=
  forall s m r, k s = Some (m, r) -> s = m ++ r.

(** A pattern that begins with a single character. *)
Definition begins_with_one (p : regex) : bool :=
  match p with
  | One _ :: _ => true
  | _ => false
  end.

(** The pattern matches somewhere in the string. *)
Definition matches_in (fl : flags) (p : regex) (s : str) : Prop :=
  exists a t, s = a ++ t /\ match_here fl p t <> None.

(** [L] begins [t], letters compared without regard to case. *)
Fixpoint istarts (L t : str) : bool :=
  match L with
  | [] => true
  | l :: L' =>
      match t with
      | [] => false
      | x :: t' => Ascii.eqb (lower l) (lower x) && istarts L' t'
      end
  end.

Fixpoint icontains (L t : str) : bool :=
  istarts L t
  || match t with
     | [] => false
     | _ :: t' => icontains L t'
     end.

(** The characters a host reference is continued by: everything but a
    double quote, whitespace and [>]. *)
Definition host_tail : cset := NotIn [ALit dq; ASpace; ALit ">"%char].
Definition tail_char (x : ascii) : bool := cset_match re_flags host_tail x.

(** Every character that matches a letter of [L] is a [tail_char]. *)
Definition lit_tail (L : str) : Prop :=
  forall c x, In c L -> Ascii.eqb (lower c) (lower x) = true -> tail_char x = true.

(** The replacement holds no [tail_char]. *)
Definition repl_ok (R : str) : Prop :=
  forallb (fun x => negb (tail_char x)) R = true.

(** When matches are deleted, what follows a match is empty or begins with
    a character that is no [tail_char], where the pattern does not match. *)
Definition rest_ok (fl : flags) (p : regex) (R : str) : Prop :=
  R = [] ->
  forall s m r, match_here fl p s = Some (m, r) ->
    match r with
    | [] => True
    | x :: _ => tail_char x = false /\ match_here fl p r = None
    end.

(** A host name followed by its tail: the last two IAS patterns. *)
Definition host_pattern (L : str) : regex := litl L ++ [Star host_tail].

Definition pixel_host : str := py "pixel.adsafeprotected.com".
Definition fw_host : str := py "fw.adsafeprotected.com".

(** What the flush of a new row raises: the [TypeError] of the encoder,
    wrapped by the session. *)
Definition flush_error : Models.error :=
  Models.StatementError
    (Models.TypeError (py "Object of type datetime is not JSON serializable")).

(** [s.count(old)] for an [old] that is not empty: the occurrences that
    [replace] finds, from the left and without overlap. *)
Fixpoint count_fuel (fuel : nat) (old s : str) : nat :=
  match fuel with
  | 0 => 0
  | S f =>
      match strip_prefix old s with
      | Some r => S (count_fuel f old r)
      | None =>
          match s with
          | [] => 0
          | _ :: s' => count_fuel f old s'
          end
      end
  end.

Definition count (old s : str) : nat := count_fuel (S (length s)) old s.

(** The markup that reaches the macro injection: in PHASE_1 what
    [remove_ias_tags] leaves, in PHASE_2 the markup as it came. *)
Definition after_removal (config : Models.CreativeConfig) (original : str) : str :=
  match Models.phase (Models.viewability_config config) with
  | Models.PHASE_1 => fst (remove_ias_tags original)
  | Models.PHASE_2 => original
  end.

(** The display wrapper of the configuration's phase. *)
Definition wrap_display (config : Models.CreativeConfig) (snippet_code : str) : str :=
  match Models.phase (Models.viewability_config config) with
  | Models.PHASE_1 => wrap_display_html5_phase1 snippet_code config
  | Models.PHASE_2 => wrap_display_html5_phase2 snippet_code config
  end.

(** The cache-buster placeholders the substitution replaces: those of the
    markup when the configuration asks for a cache buster, none otherwise. *)
Definition placeholders (config : Models.CreativeConfig) (injected : str) : nat :=
  if Models.cache_buster config
  then count (py "${AMAZON_CACHEBUSTER}") injected
  else 0.

(** The text each pattern of the loop is applied to: the markup for the
    first pattern, then what the turn of the pattern before left. *)
Fixpoint stages (patterns : list regex) (s : str) : list (regex * str) :=
  match patterns with
  | [] => []
  | p :: ps => (p, s) :: stages ps (fst (remove_pattern (s, []) p))
  end.

(** All the matches of a pattern in the text it is applied to. *)
Definition stage_matches (stage : regex * str) : list str :=
  findall re_flags (fst stage) (snd stage).

(** The world once the request for the snippet has left. *)
Definition after_fetch (config : Models.CreativeConfig)
  (w : CreativeProcessor.World) : CreativeProcessor.World :=
  CreativeProcessor.mkWorld (CreativeProcessor.db w)
    (CreativeProcessor.fetched w ++ [Models.snippet_url config]).

End Notions.

(* ================================================================== *)
(** * app/utils/retry.py *)
(* ================================================================== *)

Module Retry.
Import Py Models.

(** The classes of [TRANSIENT_EXCEPTIONS]: the built-in ones, those of
    [httpx] and those of [requests]. *)
Inductive transient :=
| ConnectionError
| TimeoutError
| httpx_ConnectError
| httpx_TimeoutException
| httpx_ReadTimeout
| requests_ConnectionError
| requests_Timeout
| requests_ReadTimeout.

(** What the clients and the processor raise, as far as the retry logic
    tells exceptions apart: by their class and, for the HTTP errors, by
    their status code. *)
Inductive exception :=
| Transient (cls : transient)
| RetryableHTTPError (status_code : Z) (message : str)
| HTTPStatusError (status_code : Z)        (* httpx *)
| HTTPError (status_code : Z)              (* requests *)
| PlainException (message : str)           (* Exception(message) *)
| AttributeError (message : str)
| Error (e : error).                       (* the exceptions of the models *)

(** What an awaited call gives. *)
Inductive outcome (A : Type) :=
| Returned (a : A)
| Raised (e : exception).
Arguments Returned {A} a.
Arguments Raised {A} e.

Definition RETRIABLE_STATUS_CODES : list Z := [429; 500; 502; 503; 504]%Z.

Definition status_in (status_code : Z) (codes : list Z) : bool :=
  existsb (Z.eqb status_code) codes.

(** [isinstance(e, TRANSIENT_EXCEPTIONS)]. *)
Definition is_transient (e : exception) : bool :=
  match e with
  | Transient _ => true
  | _ => false
  end.

(** The status code of an instance of [RetryableHTTPError]. *)
Definition retryable_status (e : exception) : option Z :=
  match e with
  | RetryableHTTPError status_code _ => Some status_code
  | Error (Models.RetryableHTTPError status_code) => Some status_code
  | _ => None
  end.

Definition should_retry_http_error (e : exception) : bool :=
  match retryable_status e with
  | Some status_code => status_in status_code RETRIABLE_STATUS_CODES
  | None =>
      match e with
      | HTTPStatusError status_code => status_in status_code RETRIABLE_STATUS_CODES
      | HTTPError status_code => status_in status_code RETRIABLE_STATUS_CODES
      | _ => false
      end
  end.

(** One run of a decorated function: what it gave, the state the calls
    left, and the waits between the attempts, oldest first. *)
Record run (S A : Type) := mkRun {
  run_result : outcome A;
  run_final : S;
  run_sleeps : list Z
}.
Arguments mkRun {S A} run_result run_final run_sleeps.
Arguments run_result {S A} r.
Arguments run_final {S A} r.
Arguments run_sleeps {S A} r.

Section RetryAsync.

Context {S A : Type}.

Variable max_attempts : Z.
Variable wait_multiplier : Z.
Variable wait_max : Z.

(** [isinstance(e, tuple(exceptions))] for the additional classes; always
    false when [exceptions] is [None]. *)
Variable exceptions : exception -> bool.

(** [await func(...)], on the state the call works on. *)
Variable func : S -> outcome A * S.

Definition retry_exceptions (e : exception) : bool :=
  is_transient e || exceptions e.

Definition wait_time (attempt : Z) : Z :=
  Z.min (wait_multiplier * 2 ^ attempt) wait_max.

(** The loop [for attempt in range(max_attempts)], from [attempt] on, with
    [remaining] turns left; a wrapper that falls off its end returns
    [None]. *)
Fixpoint attempts (remaining : nat) (attempt : Z)
  (last_exception : option exception) (s : S) (slept : list Z)
  : run S (option A) :=
  match remaining with
  | 0 =>
      match last_exception with
      | Some e => mkRun (Raised e) s slept
      | None => mkRun (Returned None) s slept
      end
  | Datatypes.S remaining' =>
      match func s with
      | (Returned a, s') => mkRun (Returned (Some a)) s' slept
      | (Raised e, s') =>
          if retry_exceptions e then
            if (attempt =? max_attempts - 1)%Z then mkRun (Raised e) s' slept
            else attempts remaining' (attempt + 1)%Z (Some e) s'
                   (slept ++ [wait_time attempt])
          else
            match retryable_status e with
            | Some _ =>
                if negb (should_retry_http_error e) then mkRun (Raised e) s' slept
                else if (attempt =? max_attempts - 1)%Z
                     then mkRun (Raised e) s' slept
                     else attempts remaining' (attempt + 1)%Z (Some e) s'
                            (slept ++ [wait_time attempt])
            | None => mkRun (Raised e) s' slept
            end
      end
  end.

(** The decorated function. *)
Definition retry_async (s : S) : run S (option A) :=
  attempts (Z.to_nat max_attempts) 0%Z None s [].

End RetryAsync.

(** The decorators of the module that the clients use. *)
Definition no_exceptions (e : exception) : bool := false.

Definition amazon_dsp_retry_async {S A} (func : S -> outcome A * S)
  : S -> run S (option A) :=
  retry_async 3 2 30 no_exceptions func.

Definition kargo_api_retry_async {S A} (func : S -> outcome A * S)
  : S -> run S (option A) :=
  retry_async 2 1 10 no_exceptions func.

Definition database_retry_async {S A} (func : S -> outcome A * S)
  : S -> run S (option A) :=
  retry_async 3 1 5 no_exceptions func.

(** ** CircuitBreaker *)

Inductive breaker_state := closed | open | half_open.

(** The attributes of a breaker that its methods change. *)
Record CircuitBreaker (Time : Type) := mkCircuitBreaker {
  failure_count : Z;
  last_failure_time : option Time;
  state : breaker_state
}.
Arguments mkCircuitBreaker {Time} failure_count last_failure_time state.
Arguments failure_count {Time} c.
Arguments last_failure_time {Time} c.
Arguments state {Time} c.

Section Breaker.

(** The readings of [time.time()], and the test
    [(now - last_failure_time) >= recovery_timeout] on them. *)
Variable Time : Type.
Variable elapsed_at_least : Time -> Time -> Z -> bool.

Variable failure_threshold : Z.
Variable recovery_timeout : Z.

(** [isinstance(e, expected_exception)]. *)
Variable expected_exception : exception -> bool.

Definition CircuitBreaker_new : CircuitBreaker Time :=
  mkCircuitBreaker 0%Z None closed.

Definition _should_attempt_reset (now : Time) (self : CircuitBreaker Time)
  : bool :=
  match last_failure_time self with
  | None => true
  | Some last => elapsed_at_least now last recovery_timeout
  end.

Definition _on_success (self : CircuitBreaker Time) : CircuitBreaker Time :=
  mkCircuitBreaker 0%Z (last_failure_time self) closed.

Definition _on_failure (now : Time) (self : CircuitBreaker Time)
  : CircuitBreaker Time :=
  let failure_count := (failure_count self + 1)%Z in
  mkCircuitBreaker failure_count (Some now)
    (if (failure_threshold <=? failure_count)%Z then open else state self).

(** One call of the decorated function.  [now] is what the clock reads
    when the breaker looks at it before the call, [later] what it reads
    when a failure is recorded. *)
Definition breaker_call {S A : Type} (func : S -> outcome A * S)
  (now later : Time) (s : S) (self : CircuitBreaker Time)
  : outcome A * S * CircuitBreaker Time :=
  let admitted :=
    match state self with
    | open =>
        if _should_attempt_reset now self
        then Some (mkCircuitBreaker (failure_count self)
                     (last_failure_time self) half_open)
        else None
    | _ => Some self
    end in
  match admitted with
  | None => (Raised (PlainException (py "Circuit breaker is OPEN")), s, self)
  | Some self =>
      match func s with
      | (Returned a, s') => (Returned a, s', _on_success self)
      | (Raised e, s') =>
          if expected_exception e
          then (Raised e, s', _on_failure later self)
          else (Raised e, s', self)
      end
  end.

End Breaker.

End Retry.

(* ================================================================== *)
(** * Python dictionaries with string keys, in insertion order *)
(* ================================================================== *)

Module Dict.
Import Py CreativeProcessor.

Definition dict (V : Type) : Type := list (str * V).

(** [d.get(k)]. *)
Fixpoint get {V} (k : str) (d : dict V) : option V :=
  match d with
  | [] => None
  | (k', v) :: d' => if str_eqb k' k then Some v else get k d'
  end.

(** [k in d]. *)
Definition mem {V} (k : str) (d : dict V) : bool :=
  match get k d with Some _ => true | None => false end.

(** [d[k] = v]: a key that is there keeps its place. *)
Fixpoint set {V} (k : str) (v : V) (d : dict V) : dict V :=
  match d with
  | [] => [(k, v)]
  | (k', v') :: d' =>
      if str_eqb k' k then (k, v) :: d' else (k', v') :: set k v d'
  end.

End Dict.

(* ================================================================== *)
(** * app/services/kargo_client.py: MockKargoClient *)
(* ================================================================== *)

Module MockKargoClient.
Import Py Models Retry CreativeProcessor.

(** [urlparse(url).path] of the library; [None] stands for the
    [ValueError] that [urlparse] raises on some malformed URLs. *)
Definition urlpath_t := str -> option str.

(** [s.lstrip(x)], [s.rstrip(x)], [s.strip(x)] for one character [x]. *)
Fixpoint lstrip_char (x : ascii) (s : str) : str :=
  match s with
  | c :: s' => if Ascii.eqb c x then lstrip_char x s' else s
  | [] => []
  end.
Definition rstrip_char (x : ascii) (s : str) : str :=
  rev (lstrip_char x (rev s)).
Definition strip_char (x : ascii) (s : str) : str :=
  rstrip_char x (lstrip_char x s).

(** The instance: its table of snippets. *)
Record client := mkClient {
  _mock_snippets : Dict.dict KargoSnippetResponse
}.

(** The part of [_extract_snippet_id] that follows [urlparse]. *)
Definition snippet_id_of_path (path : str) : str :=
  let path_parts := split "/"%char (strip_char "/"%char path) in
  if (3 <=? length path_parts)
     && str_eqb (nth 0 path_parts []) (py "snippet")
     && str_eqb (nth 1 path_parts []) (py "dm")
  then nth 2 path_parts []
  else match path_parts with
       | [] => py "unknown"
       | _ => last path_parts []
       end.

Definition _extract_snippet_id (urlpath : urlpath_t) (snippet_url : str)
  : outcome str :=
  match urlpath snippet_url with
  | Some path => Returned (snippet_id_of_path path)
  | None => Raised (Error (ValueError (py "Invalid URL")))
  end.

(** The body of [get_snippet].  The instance is not changed; what the
    body works on is the log of the simulated latencies, in milliseconds,
    oldest first: [await asyncio.sleep(0.1)] comes before everything else.
    The metrics are left out. *)
Definition get_snippet_body (urlpath : urlpath_t) (self : client)
  (snippet_url : str) (latencies : list Z)
  : outcome KargoSnippetResponse * list Z :=
  (* Simulate API latency *)
  let latencies := latencies ++ [100%Z] in
  match _extract_snippet_id urlpath snippet_url with
  | Raised e => (Raised e, latencies)
  | Returned snippet_id =>
      match Dict.get snippet_id (_mock_snippets self) with
      | None =>
          (Raised (RetryableHTTPError 404 (py "Snippet not found: " ++ snippet_id)),
           latencies)
      | Some snippet_data =>
          (Returned
             (mkKargoSnippetResponse (CreativeProcessor.snippet_id snippet_data)
                snippet_url
                (snippet_code snippet_data) (ks_format snippet_data)
                (ks_status snippet_data) (ks_dimensions snippet_data)
                (ks_duration snippet_data)),
           latencies)
      end
  end.

(** [get_snippet], as decorated by [kargo_api_retry_async]: the state of
    the run is the log of the latencies, empty before the call. *)
Definition get_snippet (urlpath : urlpath_t) (self : client) (snippet_url : str)
  : run (list Z) (option KargoSnippetResponse) :=
  kargo_api_retry_async (get_snippet_body urlpath self snippet_url) [].

Definition validate_snippet_url (urlpath : urlpath_t) (self : client)
  (snippet_url : str) : bool :=
  match _extract_snippet_id urlpath snippet_url with
  | Returned snippet_id => Dict.mem snippet_id (_mock_snippets self)
  | Raised _ => false
  end.

Definition get_mock_snippet_ids (self : client) : list str :=
  map fst (_mock_snippets self).

End MockKargoClient.

(* ================================================================== *)
(** * app/services/amazon_client.py: MockAmazonDSPClient *)
(* ================================================================== *)

Module MockAmazonDSPClient.
Import Py Models Retry CreativeProcessor.

Record AmazonCreativeUploadRequest := mkAmazonCreativeUploadRequest {
  req_name : str;
  req_format : str;
  req_creative_code : str;
  req_width : Z;
  req_height : Z;
  req_advertiser_id : str;
  req_click_url : option str;
  req_viewability_config : option ViewabilityConfig
}.

Record AmazonCreativeUploadResponse := mkAmazonCreativeUploadResponse {
  resp_creative_id : str;
  resp_name : str;
  resp_status : str;
  resp_format : str;
  resp_approval_status : option str;
  resp_review_feedback : option str;
  resp_created_at : Z;
  resp_last_modified : Z
}.

(** The dictionary that [upload_creative] stores for a creative. *)
Record creative_data := mkCreativeData {
  cd_creative_id : str;
  cd_name : str;
  cd_status : str;
  cd_format : str;
  cd_approval_status : str;
  cd_review_feedback : option str;
  cd_created_at : Z;
  cd_last_modified : Z;
  cd_width : Z;
  cd_height : Z;
  cd_advertiser_id : str;
  cd_creative_code : str
}.

(** The response built from the dictionary: the keys that the model of
    the response does not declare are ignored. *)
Definition response_of (d : creative_data) : AmazonCreativeUploadResponse :=
  mkAmazonCreativeUploadResponse (cd_creative_id d) (cd_name d) (cd_status d)
    (cd_format d) (Some (cd_approval_status d)) (cd_review_feedback d)
    (cd_created_at d) (cd_last_modified d).

Section Client.

(** The values of [_campaigns]; the methods embedded here only count
    them. *)
Variable campaign_data : Type.

(** The clock: what [int(time.time() * 1000)] and [datetime.utcnow()]
    give at the n-th reading of either. *)
Variable time_ms : nat -> Z.
Variable utcnow : nat -> Z.

(** The instance: its two tables, and how often the clock was read. *)
Record client := mkClient {
  _creatives : Dict.dict creative_data;
  _campaigns : Dict.dict campaign_data;
  clock_reads : nat
}.

Definition _generate_mock_id (prefix : str) (self : client) : str * client :=
  let timestamp := time_ms (clock_reads self) in
  (prefix ++ py "_" ++ str_of_Z timestamp ++ py "_"
     ++ str_of_Z (Z.of_nat (length (_creatives self) + length (_campaigns self))),
   mkClient (_creatives self) (_campaigns self) (Datatypes.S (clock_reads self))).

(** What a body works on: the instance, and the log of the simulated
    latencies, in milliseconds, oldest first. *)
Definition awaited : Type := client * list Z.

(** The body of [upload_creative]: [await asyncio.sleep(0.2)] comes before
    the checks.  The metrics are left out. *)
Definition upload_creative_body (request : AmazonCreativeUploadRequest)
  (st : awaited) : outcome AmazonCreativeUploadResponse * awaited :=
  let '(self, latencies) := st in
  (* Simulate API latency *)
  let latencies := latencies ++ [200%Z] in
  if length (req_creative_code request) <? 50
  then (Raised (RetryableHTTPError 400 (py "Creative code too short")),
        (self, latencies))
  else if (req_width request <=? 0)%Z || (req_height request <=? 0)%Z
  then (Raised (RetryableHTTPError 400 (py "Invalid dimensions")),
        (self, latencies))
  else
    let '(creative_id, self) := _generate_mock_id (py "creative") self in
    let now := utcnow (clock_reads self) in
    let self := mkClient (_creatives self) (_campaigns self)
                  (Datatypes.S (clock_reads self)) in
    let approved :=
      contains (py "test") (map lower (req_name request))
      || str_eqb (req_format request) (py "CUSTOM_HTML") in
    let status := if approved then py "APPROVED" else py "PENDING" in
    let approval_status := if approved then py "APPROVED" else py "UNDER_REVIEW" in
    let creative_data :=
      mkCreativeData creative_id (req_name request) status (req_format request)
        approval_status
        (if str_eqb status (py "APPROVED") then None
         else Some (py "Pending creative review"))
        now now (req_width request) (req_height request)
        (req_advertiser_id request) (req_creative_code request) in
    (Returned (response_of creative_data),
     (mkClient (Dict.set creative_id creative_data (_creatives self))
        (_campaigns self) (clock_reads self),
      latencies)).

(** [upload_creative], as decorated by [amazon_dsp_retry_async], with the
    log of its latencies. *)
Definition upload_creative_awaited (request : AmazonCreativeUploadRequest)
  (st : awaited) : run awaited (option AmazonCreativeUploadResponse) :=
  amazon_dsp_retry_async (upload_creative_body request) st.

(** The run of a call on the instance alone: what it gave, the instance it
    left, and the waits between its attempts. *)
Definition on_instance {A} (call : awaited -> run awaited A) (self : client)
  : run client A :=
  let r := call (self, []) in
  mkRun (run_result r) (fst (run_final r)) (run_sleeps r).

(** [await client.upload_creative(request)], as its callers see it. *)
Definition upload_creative (request : AmazonCreativeUploadRequest)
  (self : client) : run client (option AmazonCreativeUploadResponse) :=
  on_instance (upload_creative_awaited request) self.

(** The body of [get_creative]: it begins with [await asyncio.sleep(0.1)]. *)
Definition get_creative_body (creative_id : str) (st : awaited)
  : outcome (option AmazonCreativeUploadResponse) * awaited :=
  let '(self, latencies) := st in
  (* Simulate API latency *)
  let latencies := latencies ++ [100%Z] in
  match Dict.get creative_id (_creatives self) with
  | None => (Returned None, (self, latencies))
  | Some creative_data =>
      (Returned (Some (response_of creative_data)), (self, latencies))
  end.

(** [get_creative], as decorated by [amazon_dsp_retry_async], with the log
    of its latencies. *)
Definition get_creative_awaited (creative_id : str) (st : awaited)
  : run awaited (option (option AmazonCreativeUploadResponse)) :=
  amazon_dsp_retry_async (get_creative_body creative_id) st.

(** [await client.get_creative(creative_id)], as its callers see it. *)
Definition get_creative (creative_id : str) (self : client)
  : run client (option (option AmazonCreativeUploadResponse)) :=
  on_instance (get_creative_awaited creative_id) self.

(** [batch_upload_creatives]: a request whose upload raises is skipped.
    Whatever [upload_creative] returns is appended, [None] included. *)
Fixpoint batch_upload_creatives (requests : list AmazonCreativeUploadRequest)
  (self : client) (results : list (option AmazonCreativeUploadResponse))
  : list (option AmazonCreativeUploadResponse) * client :=
  match requests with
  | [] => (results, self)
  | request :: requests' =>
      let r := upload_creative request self in
      match run_result r with
      | Returned response =>
          batch_upload_creatives requests' (run_final r) (results ++ [response])
      | Raised _ => batch_upload_creatives requests' (run_final r) results
      end
  end.

Definition get_mock_data_summary (self : client) : nat * nat * list str * list str :=
  (length (_creatives self), length (_campaigns self),
   map fst (_creatives self), map fst (_campaigns self)).

End Client.

Arguments _creatives {campaign_data} c.
Arguments _campaigns {campaign_data} c.
Arguments clock_reads {campaign_data} c.
Arguments mkClient {campaign_data} _creatives _campaigns clock_reads.

End MockAmazonDSPClient.

(* ================================================================== *)
(** * app/services/creative_processor.py: upload_to_amazon_dsp *)
(* ================================================================== *)

Module Upload.
Import Py Models Retry CreativeProcessor.
Import MockAmazonDSPClient.

(** [str(phase)] for a member of the enumeration. *)
Definition ViewabilityPhase_str (p : ViewabilityPhase) : str :=
  match p with
  | PHASE_1 => py "ViewabilityPhase.PHASE_1"
  | PHASE_2 => py "ViewabilityPhase.PHASE_2"
  end.

(** [a, b = parts]. *)
Definition unpack2 {A} (parts : list A) : result (A * A) :=
  match parts with
  | [a; b] => Ok (a, b)
  | [] =>
      Raise (ValueError (py "not enough values to unpack (expected 2, got 0)"))
  | [_] =>
      Raise (ValueError (py "not enough values to unpack (expected 2, got 1)"))
  | _ => Raise (ValueError (py "too many values to unpack (expected 2)"))
  end.

(** The width and the height that the request is given: the first
    assignment looks at the phase, the second one replaces what it gave by
    the sides of the constant [dimensions]. *)
Definition upload_dimensions (phase : ViewabilityPhase) : result (Z * Z) :=
  bind (if contains (py "x") (ViewabilityPhase_str phase)
        then bind (unpack2 (split "x"%char (ViewabilityPhase_value phase)))
               (fun _ => Ok tt)
        else Ok tt) (fun _ =>
  let dimensions := py "320x50" in
  if contains (py "x") dimensions
  then
    bind (unpack2 (map int (split "x"%char dimensions))) (fun wh =>
    match fst wh, snd wh with
    | Some width, Some height => Ok (width, height)
    | _, _ => Raise (ValueError (py "invalid literal for int() with base 10"))
    end)
  else Ok (320, 50)%Z).

(** The update of the row after the upload. *)
Definition set_amazon_ids (amazon_creative_id upload_status : str)
  (r : ProcessedCreativeDB) : ProcessedCreativeDB :=
  mkProcessedCreativeDB (row_creative_id r) (row_name r) (row_format r)
    (row_original_snippet_url r) (row_processed_code r) (row_amazon_dsp_ready r)
    (row_creative_type r) (Some amazon_creative_id) (row_viewability_config r)
    (row_processing_metadata r) (row_original_config r) (row_status r)
    (Some upload_status) (row_created_at r) (row_updated_at r).

Definition update_row (creative_id amazon_creative_id upload_status : str)
  (rows : list ProcessedCreativeDB) : list ProcessedCreativeDB :=
  map (fun r => if str_eqb (row_creative_id r) creative_id
                then set_amazon_ids amazon_creative_id upload_status r
                else r) rows.

Section UploadToAmazon.

Variable campaign_data : Type.
Variable time_ms : nat -> Z.
Variable utcnow : nat -> Z.

(** What the method works on: the table behind the session, and the
    shared Amazon client. *)
Definition state : Type := World * client campaign_data.

Definition upload_to_amazon_dsp (creative_id advertiser_id : str) (st : state)
  : outcome str * state :=
  let '(w, amazon_client) := st in
  (* Get processed creative *)
  match get_processed_creative creative_id w with
  | (Raise e, w) => (Raised (Error e), (w, amazon_client))
  | (Ok None, w) =>
      (Raised (Error (ValueError
                        (py "Processed creative not found: " ++ creative_id))),
       (w, amazon_client))
  | (Ok (Some creative), w) =>
      (* Prepare upload request *)
      match upload_dimensions (phase (pc_viewability_config creative)) with
      | Raise e => (Raised (Error e), (w, amazon_client))
      | Ok (width, height) =>
          let upload_request :=
            mkAmazonCreativeUploadRequest (pc_name creative)
              (creative_type creative) (processed_code creative) width height
              advertiser_id None (Some (pc_viewability_config creative)) in
          (* Upload to Amazon DSP *)
          let r := upload_creative campaign_data time_ms utcnow upload_request
                     amazon_client in
          let amazon_client := run_final r in
          match run_result r with
          | Raised e => (Raised e, (w, amazon_client))
          | Returned None =>
              (Raised (AttributeError
                         (py "'NoneType' object has no attribute 'creative_id'")),
               (w, amazon_client))
          | Returned (Some upload_response) =>
              (* Update database with Amazon creative ID *)
              match scalar_one_or_none (select_by_id creative_id (db w)) with
              | Raise e => (Raised (Error e), (w, amazon_client))
              | Ok None =>
                  (Returned (resp_creative_id upload_response), (w, amazon_client))
              | Ok (Some _) =>
                  (Returned (resp_creative_id upload_response),
                   (mkWorld
                      (update_row creative_id (resp_creative_id upload_response)
                         (resp_status upload_response) (db w))
                      (fetched w),
                    amazon_client))
              end
          end
      end
  end.

End UploadToAmazon.

End Upload.

(* ================================================================== *)
(** * app/utils/validation.py: macro detection, CampaignValidator *)
(* ================================================================== *)

Module Validators.
Import Py Re Models.

(** The patterns are escaped literals. *)
Definition AMAZON_MACRO_PATTERNS : list regex :=
  [ lits "${AMAZON_CLICK_URL}";
    lits "${AMAZON_IMPRESSION_URL}";
    lits "${AMAZON_CAMPAIGN_ID}";
    lits "${AMAZON_CREATIVE_ID}";
    lits "${AMAZON_PLACEMENT_ID}";
    lits "${CACHEBUSTER}" ].

(** [CreativeValidator.detect_amazon_macros]: no flags are given. *)
Definition detect_amazon_macros (creative_code : str) : list str :=
  flat_map (fun pattern => findall no_flags pattern creative_code)
           AMAZON_MACRO_PATTERNS.

(** [CampaignValidator.validate_date_range] on [date] objects, each taken
    as its proleptic ordinal; [today] is [date.today()]. *)
Definition validate_date_range (today start_date end_date : Z) : list str :=
  (if (end_date <=? start_date)%Z
   then [py "Start date must be before end date"] else [])
  ++ (if (start_date <? today)%Z
      then [py "Start date cannot be in the past"] else [])
  ++ (if (365 <? end_date - start_date)%Z
      then [py "Campaign duration cannot exceed 365 days"] else [])
  ++ (if (end_date - start_date <? 1)%Z
      then [py "Campaign must run for at least 1 day"] else []).

End Validators.

(* ================================================================== *)
(** * Further concrete inputs *)
(* ================================================================== *)

Module MoreExamples.
Import Py Models Retry CreativeProcessor Examples.

(** A call that times out twice and then returns the number of the
    attempt. *)
Definition flaky (s : nat) : outcome nat * nat :=
  (if s <? 2 then Raised (Transient TimeoutError) else Returned s,
   Datatypes.S s).

(** A call that finds the service busy twice. *)
Definition busy (s : nat) : outcome nat * nat :=
  (if s <? 2 then Raised (RetryableHTTPError 503 (py "busy")) else Returned s,
   Datatypes.S s).

(** A call that never finds what it looks for. *)
Definition missing (s : nat) : outcome nat * nat :=
  (Raised (RetryableHTTPError 404 (py "Snippet not found: 99999")),
   Datatypes.S s).

(** A call that finds the service unavailable, as [httpx] reports it. *)
Definition unavailable (s : nat) : outcome nat * nat :=
  (Raised (HTTPStatusError 503), Datatypes.S s).

(** The test of a breaker on a clock that counts seconds. *)
Definition seconds_passed (now last : Z) (timeout : Z) : bool :=
  (timeout <=? now - last)%Z.

(** Every exception is expected. *)
Definition any_exception (e : exception) : bool := true.

(** A call that always returns. *)
Definition working (s : nat) : outcome nat * nat := (Returned 7, Datatypes.S s).

(** [urlparse(url).path] on a plain URL. *)
Definition urlpath_plain (url : str) : option str :=
  let '(pre, post) := break_at (Ascii.eqb ":"%char) url in
  let rest :=
    match pre, post with
    | c :: _, _ :: post' =>
        if isalpha c && forallb scheme_char pre then post' else url
    | _, _ => url
    end in
  let is_end c := Ascii.eqb c "?"%char || Ascii.eqb c "#"%char in
  match rest with
  | "/"%char :: "/"%char :: rest' =>
      let is_delim c := Ascii.eqb c "/"%char || is_end c in
      Some (fst (break_at is_end (snd (break_at is_delim rest'))))
  | _ => Some (fst (break_at is_end rest))
  end.

(** A client that knows the test snippet. *)
Definition test_client : MockKargoClient.client :=
  MockKargoClient.mkClient
    [(py "12345",
      mkKargoSnippetResponse (py "12345")
        (py "https://snippet.kargo.com/snippet/dm/12345") test_creative
        (py "runway") (py "active") (Some (py "320x50")) None)].

(** The pixel tag of [pixel_and_link]. *)
Definition ias_pixel_tag : str :=
  tpl "<img src=`https://pixel.adsafeprotected.com/a.gif`>".

(** A clock that reads the number of its reading. *)
Definition ticking (n : nat) : Z := Z.of_nat n.

(** A fresh Amazon client. *)
Definition fresh_amazon : MockAmazonDSPClient.client unit :=
  MockAmazonDSPClient.mkClient [] [] 0.

(** An upload request with a long enough code, and one without. *)
Definition good_request : MockAmazonDSPClient.AmazonCreativeUploadRequest :=
  MockAmazonDSPClient.mkAmazonCreativeUploadRequest (py "Test Creative")
    (py "CUSTOM_HTML") (repeat "a"%char 60) 320 50 (py "1234567") None None.

Definition short_request : MockAmazonDSPClient.AmazonCreativeUploadRequest :=
  MockAmazonDSPClient.mkAmazonCreativeUploadRequest (py "Short")
    (py "VAST_3_0") (py "<VAST/>") 320 50 (py "1234567") None None.

End MoreExamples.

(* ================================================================== *)
(** * Notions the further properties are stated with *)
(* ================================================================== *)

Module Texts.
Import Py Models Table.

(** No character of [a] occurs in [b]. *)
Definition disjoint_chars (a b : str) : bool := forallb (fun c => absent c b) a.

(** A cache-buster token that is given explicitly is usable when it is not
    empty and shares no character with the placeholders. *)
Definition usable_token (cache_buster : option str) : Prop :=
  match cache_buster with
  | None => True
  | Some cb => cb <> [] /\ disjoint_chars cb (py "${AMAZON_CACHEBUSTER}") = true
  end.

(** The placeholders that the patterns of [detect_amazon_macros] spell
    out. *)
Definition detected_literals : list str :=
  [ py "${AMAZON_CLICK_URL}";
    py "${AMAZON_IMPRESSION_URL}";
    py "${AMAZON_CAMPAIGN_ID}";
    py "${AMAZON_CREATIVE_ID}";
    py "${AMAZON_PLACEMENT_ID}";
    py "${CACHEBUSTER}" ].

(** The stem of the vendor's hosts, which every IAS pattern spells out. *)
Definition vendor_stem : str := py "adsafeprotected".

(** The first character is there and is not whitespace. *)
Definition begins_solid (a : str) : bool :=
  match a with
  | c :: _ => negb (isspace c)
  | [] => false
  end.

(** The last character is there and is not whitespace. *)
Definition ends_solid (z : str) : bool := begins_solid (rev z).

(** The dimensions have exactly two sides when the canvas needs them. *)
Definition canvas_ready (config : CreativeConfig) : Prop :=
  branded_canvas config = true ->
  exists w h, split "x"%char (dimensions config) = [w; h].

(** The configuration has a duration that [format] can print: an integer
    of at most [int_max_str_digits] digits, the sign not counted. *)
Definition printable_duration (config : CreativeConfig) : Prop :=
  exists d,
    duration config = Some d
    /\ length (str_of_Z (Z.abs d)) <= int_max_str_digits.

(** [f"{w}x{h}"]. *)
Definition dimensions_of (w h : Z) : str := str_of_Z w ++ py "x" ++ str_of_Z h.

(** The error of a side that is not positive. *)
Definition not_positive : error :=
  ValidationError (py "Width and height must be positive numbers").

(** A character [int] can read somewhere in its argument. *)
Definition int_char (c : ascii) : bool :=
  int_space c || isdigit c || Ascii.eqb c "_"%char
  || Ascii.eqb c "+"%char || Ascii.eqb c "-"%char.

(** One more decimal digit. *)
Definition step (a : Z) (c : ascii) : Z := (10 * a + digit_val c)%Z.

(** The separator does not occur. *)
Definition free_of (sep : ascii) (s : str) : bool :=
  forallb (fun c => negb (Ascii.eqb c sep)) s.

End Texts.

Module Stored.
Import Py Models CreativeProcessor.



(** The rows that do not carry the identifier. *)
Definition without (creative_id : str) (rows : list ProcessedCreativeDB)
  : list ProcessedCreativeDB :=
  filter (fun r => negb (str_eqb (row_creative_id r) creative_id)) rows.

End Stored.

Module Retrying.
Import Py Models Retry.

(** An exception after which the wrapper tries again, when attempts are
    left. *)
Definition retried (exceptions : exception -> bool) (e : exception) : bool :=
  retry_exceptions exceptions e
  || match retryable_status e with
     | Some status_code => status_in status_code RETRIABLE_STATUS_CODES
     | None => false
     end.

(** The function with a counter of its calls beside its state. *)
Definition counting {S A : Type} (func : S -> outcome A * S)
  (sn : S * nat) : outcome A * (S * nat) :=
  let '(r, s') := func (fst sn) in (r, (s', Datatypes.S (snd sn))).

(** The waits before the attempts [from], [from + 1], ... *)
Fixpoint backoff (wait_multiplier wait_max : Z) (from : Z) (n : nat) : list Z :=
  match n with
  | 0 => []
  | Datatypes.S n' =>
      wait_time wait_multiplier wait_max from
      :: backoff wait_multiplier wait_max (from + 1)%Z n'
  end.

(** The state after [n] calls in a row that all raise something the
    wrapper retries. *)
Fixpoint after_failures {S A : Type} (exceptions : exception -> bool)
  (func : S -> outcome A * S) (n : nat) (s : S) : option S :=
  match n with
  | 0 => Some s
  | Datatypes.S n' =>
      match func s with
      | (Raised e, s') =>
          if retried exceptions e then after_failures exceptions func n' s'
          else None
      | (Returned _, _) => None
      end
  end.

(** What the wrapper makes of the outcome of a call. *)
Definition passed_on {A : Type} (o : outcome A) : outcome (option A) :=
  match o with
  | Returned a => Returned (Some a)
  | Raised e => Raised e
  end.

(** What holds of a breaker at any time. *)
Definition breaker_ok {Time : Type} (failure_threshold : Z)
  (self : CircuitBreaker Time) : Prop :=
  (0 <= failure_count self)%Z
  /\ (state self <> closed -> (failure_threshold <= failure_count self)%Z)
  /\ (failure_count self <> 0%Z -> last_failure_time self <> None).

(** The breaker turns the call away. *)
Definition rejected {Time : Type} (elapsed_at_least : Time -> Time -> Z -> bool)
  (recovery_timeout : Z) (now : Time) (self : CircuitBreaker Time) : Prop :=
  state self = open
  /\ _should_attempt_reset Time elapsed_at_least recovery_timeout now self = false.

(** The breaker after a history of calls of the decorated function, oldest
    first: each call comes with the two readings of the clock and with the
    state it finds. *)
Fixpoint history {Time S A : Type} (elapsed_at_least : Time -> Time -> Z -> bool)
  (failure_threshold recovery_timeout : Z) (expected_exception : exception -> bool)
  (func : S -> outcome A * S) (calls : list (Time * Time * S))
  (self : CircuitBreaker Time) : CircuitBreaker Time :=
  match calls with
  | [] => self
  | (now, later, s) :: calls' =>
      history elapsed_at_least failure_threshold recovery_timeout
        expected_exception func calls'
        (snd (breaker_call Time elapsed_at_least failure_threshold
                recovery_timeout expected_exception func now later s self))
  end.

(** Every call of the function raises an exception the breaker counts. *)
Definition always_fails {S A : Type} (expected_exception : exception -> bool)
  (func : S -> outcome A * S) : Prop :=
  forall s, exists e s', func s = (Raised e, s') /\ expected_exception e = true.

End Retrying.

Module Clients.
Import Py Models Retry CreativeProcessor.
Import MockAmazonDSPClient.

(** The path of the URL of a snippet. *)
Definition snippet_path (snippet_id : str) : str := py "/snippet/dm/" ++ snippet_id.

(** A request that passes the checks of [upload_creative]. *)
Definition accepted (request : AmazonCreativeUploadRequest) : bool :=
  negb (length (req_creative_code request) <? 50)
  && negb ((req_width request <=? 0)%Z || (req_height request <=? 0)%Z).

(** A request that the mock approves at once. *)
Definition approved (request : AmazonCreativeUploadRequest) : bool :=
  contains (py "test") (map lower (req_name request))
  || str_eqb (req_format request) (py "CUSTOM_HTML").

(** The identifier [_generate_mock_id] makes from a reading of the clock
    and a count. *)
Definition mock_id (prefix : str) (timestamp : Z) (count : nat) : str :=
  prefix ++ py "_" ++ str_of_Z timestamp ++ py "_" ++ str_of_Z (Z.of_nat count).

(** The dictionary of an accepted request, under an identifier and with a
    reading of the clock. *)
Definition data_of (creative_id : str) (now : Z)
  (request : AmazonCreativeUploadRequest) : creative_data :=
  mkCreativeData creative_id (req_name request)
    (if approved request then py "APPROVED" else py "PENDING")
    (req_format request)
    (if approved request then py "APPROVED" else py "UNDER_REVIEW")
    (if approved request then None else Some (py "Pending creative review"))
    now now (req_width request) (req_height request)
    (req_advertiser_id request) (req_creative_code request).

(** Every stored creative carries an identifier that was made when fewer
    creatives and campaigns were stored than are now. *)
Definition ids_below {campaign_data : Type} (self : client campaign_data)
  : Prop :=
  forall k v, In (k, v) (_creatives self) ->
    exists timestamp count,
      k = mock_id (py "creative") timestamp count
      /\ count < length (_creatives self) + length (_campaigns self).

End Clients.

(* ================================================================== *)
(** * Properties *)
(* ================================================================== *)

Import Py Re Models CreativeValidator CreativeProcessor Examples Spec Table.
Import SnippetTransformer Notions.

(** ** Construction of a viewability configuration *)

Lemma vendor_in_In : forall x v, vendor_in x v = true <-> In x v.
Proof.
  intros x v. unfold vendor_in. rewrite existsb_exists. split.
  - intros [y [Hy E]]. destruct x, y; simpl in E; try discriminate; exact Hy.
  - intros H. exists x. split; [exact H | destruct x; reflexivity].
Qed.

(** C2. Building a [ViewabilityConfig] raises exactly when the phase is
    PHASE_1 and the vendors contain IAS, or the phase is PHASE_2 and there
    are fewer than two vendors; in every other case it succeeds and the
    configuration holds the given vendors unchanged. *)
Theorem C2_vendor_phase_invariant :
  forall phase vendors method dvn iasr s2s seat pub,
    let built := ViewabilityConfig_new phase vendors method dvn iasr s2s seat pub in
    let rejected := (phase = PHASE_1 /\ In IAS vendors)
                    \/ (phase = PHASE_2 /\ length vendors < 2) in
    ((exists e, built = Raise e) <-> rejected)
    /\ (built = Ok (mkViewabilityConfig phase vendors method dvn iasr s2s seat pub)
        <-> ~ rejected).
Proof.
  intros phase vendors method dvn iasr s2s seat pub built rejected.
  subst built rejected. unfold ViewabilityConfig_new, validate_vendors_for_phase.
  destruct phase.
  - destruct (vendor_in IAS vendors) eqn:E; simpl.
    + apply vendor_in_In in E. split; split.
      * intros _. left. split; [reflexivity | exact E].
      * intros _. eexists. reflexivity.
      * discriminate.
      * intros H. exfalso. apply H. left. split; [reflexivity | exact E].
    + assert (N : ~ In IAS vendors).
      { intros H. apply vendor_in_In in H. congruence. }
      split; split.
      * intros [e H]. discriminate.
      * intros [[_ H] | [H _]]; [contradiction | discriminate].
      * intros _ [[_ H] | [H _]]; [contradiction | discriminate].
      * reflexivity.
  - destruct (length vendors <? 2) eqn:E; simpl.
    + apply Nat.ltb_lt in E. split; split.
      * intros _. right. split; [reflexivity | exact E].
      * intros _. eexists. reflexivity.
      * discriminate.
      * intros H. exfalso. apply H. right. split; [reflexivity | exact E].
    + apply Nat.ltb_ge in E. split; split.
      * intros [e H]. discriminate.
      * intros [[H _] | [_ H]]; [discriminate | lia].
      * intros _ [[H _] | [_ H]]; [discriminate | lia].
      * reflexivity.
Qed.

(** ** Reading and deleting by identifier *)

Lemma str_eqb_eq : forall a b, str_eqb a b = true <-> a = b.
Proof.
  intros a b. unfold str_eqb.
  destruct (list_eq_dec ascii_dec a b); split; congruence.
Qed.

Lemma str_eqb_neq : forall a b, str_eqb a b = false <-> a <> b.
Proof.
  intros a b. unfold str_eqb.
  destruct (list_eq_dec ascii_dec a b); split; congruence.
Qed.

Lemma select_by_id_absent : forall creative_id rows,
  (forall r, In r rows -> row_creative_id r <> creative_id) ->
  select_by_id creative_id rows = [].
Proof.
  intros creative_id rows. induction rows as [| r rows IH]; intros H.
  - reflexivity.
  - simpl. destruct (str_eqb (row_creative_id r) creative_id) eqn:E.
    + exfalso. apply str_eqb_eq in E. apply (H r); [left; reflexivity | exact E].
    + apply IH. intros r' Hr'. apply H. right. exact Hr'.
Qed.

(** C8. For an identifier that no stored row carries,
    [get_processed_creative] returns [None] and [delete_processed_creative]
    returns [False]; neither raises, and the world (the table included) is
    exactly the one before the call. *)
Theorem C8_missing_id_is_absent :
  forall creative_id w,
    (forall r, In r (db w) -> row_creative_id r <> creative_id) ->
    get_processed_creative creative_id w = (Ok None, w)
    /\ delete_processed_creative creative_id w = (Ok false, w).
Proof.
  intros creative_id w H.
  unfold get_processed_creative, delete_processed_creative.
  rewrite (select_by_id_absent _ _ H). simpl. split; reflexivity.
Qed.

Lemma C8_missing_id_witness :
  (forall r, In r (db world_one) -> row_creative_id r <> py "no-such-id")
  /\ length (db world_one) = 1
  /\ get_processed_creative (py "no-such-id") world_one = (Ok None, world_one)
  /\ delete_processed_creative (py "no-such-id") world_one = (Ok false, world_one).
Proof.
  assert (F : forallb (fun r => negb (str_eqb (row_creative_id r) (py "no-such-id")))
                      (db world_one) = true) by (vm_compute; reflexivity).
  assert (H : forall r, In r (db world_one) -> row_creative_id r <> py "no-such-id").
  { intros r Hr. apply str_eqb_neq.
    exact (proj1 (negb_true_iff _) (proj1 (forallb_forall _ _) F r Hr)). }
  split; [exact H |]. split; [vm_compute; reflexivity |].
  exact (C8_missing_id_is_absent (py "no-such-id") world_one H).
Defined.

(** ** The readiness flag *)

(** What the validators find in the final code is what the metadata holds. *)
Lemma transform_records_warnings : forall env resp config code md,
  _transform_snippet env resp config = Ok (code, md) ->
  warnings md
  = (match format config with
     | RUNWAY => []
     | INSTREAM_VIDEO | ENHANCED_PREROLL => validate_vast_structure code
     end)
    ++ validate_phase_configuration (phase (viewability_config config))
         (vendors (viewability_config config)) code.
Proof.
  intros env resp config code md H. unfold _transform_snippet in H.
  destruct (match phase (viewability_config config) with
            | PHASE_1 => remove_ias_tags (snippet_code resp)
            | PHASE_2 => (snippet_code resp, [])
            end) as [c0 removed].
  destruct (if cache_buster config
            then (inject_cache_buster (time_ms env) (inject_amazon_macros c0) None,
                  [py "amazon_macros"] ++ [py "cache_buster"])
            else (inject_amazon_macros c0, [py "amazon_macros"])) as [c1 added].
  destruct (format config).
  - cbn [bind] in H. injection H as <- <-. reflexivity.
  - destruct (match phase (viewability_config config) with
              | PHASE_1 => wrap_vast_phase1 c1 config
              | PHASE_2 => wrap_vast_phase2 c1 config
              end) as [v | e]; cbn [bind] in H; [| discriminate].
    injection H as <- <-. reflexivity.
  - destruct (match phase (viewability_config config) with
              | PHASE_1 => wrap_vast_phase1 c1 config
              | PHASE_2 => wrap_vast_phase2 c1 config
              end) as [v | e]; cbn [bind] in H; [| discriminate].
    injection H as <- <-. reflexivity.
Qed.

Lemma json_serializable_strings : forall (A : Type) (f : A -> str) l,
  forallb json_serializable (map (fun a => VStr (f a)) l) = true.
Proof. intros A f l. induction l as [| a l IH]; [reflexivity | exact IH]. Qed.

Lemma json_serializable_option : forall (A : Type) (f : A -> value) o,
  (forall a, json_serializable (f a) = true) ->
  json_serializable (VOpt f o) = true.
Proof. intros A f [a |] H; [apply H | reflexivity]. Qed.

(** The dictionary of a viewability configuration has a JSON form. *)
Lemma ViewabilityConfig_dict_serializable : forall c,
  json_serializable (ViewabilityConfig_dict c) = true.
Proof.
  intros c. unfold ViewabilityConfig_dict.
  cbn [json_serializable forallb snd andb].
  rewrite (json_serializable_strings _ ViewabilityVendor_value).
  rewrite !json_serializable_option by reflexivity. reflexivity.
Qed.

(** The dictionary of the processing metadata has none: it holds the
    [datetime] of [processed_at]. *)
Lemma ProcessingMetadata_dict_not_serializable : forall m,
  json_serializable (ProcessingMetadata_dict m) = false.
Proof. intros m. reflexivity. Qed.

(** So the flush of a new row raises, whatever the row and the table. *)
Lemma add_and_flush_raises : forall row w,
  add_and_flush row w = (Raise flush_error, w).
Proof.
  intros row w. unfold add_and_flush, bind_json_columns, json_dumps.
  rewrite ViewabilityConfig_dict_serializable.
  rewrite ProcessingMetadata_dict_not_serializable. reflexivity.
Qed.

Lemma store_raises : forall env creative config w,
  _store_processed_creative env creative config w = (Raise flush_error, w).
Proof. intros env creative config w. apply add_and_flush_raises. Qed.

(** A run of [process_creative], step by step. *)
Lemma process_creative_steps : forall env config w,
  process_creative env config w
  = match _validate_config env config with
    | Raise e => (Raise e, w)
    | Ok _ =>
        match get_snippet env (snippet_url config) with
        | Raise e => (Raise e, after_fetch config w)
        | Ok resp =>
            match _transform_snippet env resp config with
            | Raise e => (Raise e, after_fetch config w)
            | Ok _ => (Raise flush_error, after_fetch config w)
            end
        end
    end.
Proof.
  intros env config w. unfold process_creative, mbind, lift, ret, fetch.
  destruct (_validate_config env config) as [u | e]; [| reflexivity].
  destruct (get_snippet env (snippet_url config)) as [resp | e]; [| reflexivity].
  destruct (_transform_snippet env resp config) as [[code md] | e];
    [| reflexivity].
  rewrite store_raises. reflexivity.
Qed.

(** C9. No call of [process_creative] returns a creative, so no returned
    creative carries a readiness flag.  Whatever the configuration, the
    markup and the table, the call raises and leaves the table as it was;
    and when the configuration check, the request to the provider and the
    transformation have all succeeded, whatever warnings the metadata
    holds, what it raises is the error of the flush: the creative is built
    with [amazon_dsp_ready=True], but its row is given the dictionary of
    the metadata, whose [processed_at] is a [datetime] that the JSON column
    cannot serialize. *)
Theorem C9_no_creative_is_returned :
  forall env config w,
    (forall pc w', process_creative env config w <> (Ok pc, w'))
    /\ db (snd (process_creative env config w)) = db w
    /\ (forall creative w1,
          _store_processed_creative env creative config w1
          = (Raise flush_error, w1))
    /\ (forall resp code md,
          _validate_config env config = Ok tt ->
          get_snippet env (snippet_url config) = Ok resp ->
          _transform_snippet env resp config = Ok (code, md) ->
          process_creative env config w
          = (Raise flush_error, after_fetch config w)
          /\ warnings md
             = (match format config with
                | RUNWAY => []
                | INSTREAM_VIDEO | ENHANCED_PREROLL => validate_vast_structure code
                end)
               ++ validate_phase_configuration (phase (viewability_config config))
                    (vendors (viewability_config config)) code).
Proof.
  intros env config w. rewrite process_creative_steps.
  split; [| split; [| split]].
  - intros pc w'.
    destruct (_validate_config env config); [| discriminate].
    destruct (get_snippet env (snippet_url config)); [| discriminate].
    destruct (_transform_snippet env a0 config); discriminate.
  - destruct (_validate_config env config); [| reflexivity].
    destruct (get_snippet env (snippet_url config)); [| reflexivity].
    destruct (_transform_snippet env a0 config); reflexivity.
  - intros creative w1. apply store_raises.
  - intros resp code md V G T. rewrite V, G, T. split; [reflexivity |].
    exact (transform_records_warnings _ _ _ _ _ T).
Qed.

(** The run on the test snippet: the configuration is valid, the provider
    answers, the transformation succeeds with one warning, and the call
    raises at the flush. *)
Lemma C9_failing_run :
  exists code md,
    _validate_config (env_of test_creative) runway_phase1 = Ok tt
    /\ get_snippet (env_of test_creative) (snippet_url runway_phase1)
       = Ok (answer test_creative)
    /\ _transform_snippet (env_of test_creative) (answer test_creative)
         runway_phase1 = Ok (code, md)
    /\ length (warnings md) = 1
    /\ process_creative (env_of test_creative) runway_phase1 empty_world
       = (Raise flush_error, mkWorld [] [kargo_url]).
Proof.
  assert (V : _validate_config (env_of test_creative) runway_phase1 = Ok tt)
    by (vm_compute; reflexivity).
  assert (G : get_snippet (env_of test_creative) (snippet_url runway_phase1)
              = Ok (answer test_creative)) by reflexivity.
  assert (F : match _transform_snippet (env_of test_creative)
                      (answer test_creative) runway_phase1 with
              | Ok (_, md) => length (warnings md) =? 1
              | Raise _ => false
              end = true) by (vm_compute; reflexivity).
  destruct (_transform_snippet (env_of test_creative)
              (answer test_creative) runway_phase1)
    as [[code md] | e] eqn:T; [| discriminate].
  exists code, md. split; [exact V |]. split; [exact G |].
  split; [reflexivity |]. split; [apply Nat.eqb_eq; exact F |].
  exact (proj1 (proj2 (proj2 (proj2
           (C9_no_creative_is_returned (env_of test_creative) runway_phase1
              empty_world))) _ _ _ V G T)).
Defined.

(** ** The duration of a VAST wrapper *)

(** C3. At a configured duration of 75 seconds both VAST wrappers carry a
    [start] and a [complete] tracking event, and their Duration element
    reads 00:00:75, not 00:01:15: the seconds are printed behind a fixed
    [00:00:] and never carried into minutes. *)
Theorem C3_duration_75_seconds :
  match SnippetTransformer.wrap_vast_phase1 [] (video_phase1 (Some 75%Z)),
        SnippetTransformer.wrap_vast_phase2 [] (video_phase2 (Some 75%Z)) with
  | Ok v1, Ok v2 =>
      forallb (fun v =>
        contains (tpl "event=`start`") v
        && contains (tpl "event=`complete`") v
        && contains (py "<Duration>00:00:75</Duration>") v
        && negb (contains (py "<Duration>00:01:15</Duration>") v)) [v1; v2]
  | _, _ => false
  end = true.
Proof. vm_compute. reflexivity. Qed.

(** ** A video configuration without a duration *)

Lemma process_creative_fetches : forall env config w,
  _validate_config env config = Ok tt ->
  fetched (snd (process_creative env config w)) = fetched w ++ [snippet_url config].
Proof.
  intros env config w V. rewrite process_creative_steps, V.
  destruct (get_snippet env (snippet_url config)) as [resp | e];
    [| reflexivity].
  destruct (_transform_snippet env resp config); reflexivity.
Qed.

(** C7, as the code has it. The duration is optional: a video
    configuration without one, whose dimensions and URL are valid, is built
    without error, passes the configuration check, and is taken into
    processing (the snippet is requested from the provider). *)
Theorem C7_duration_is_optional :
  forall env name fmt dims url dev vv bc cb vc am ct,
    video_family fmt ->
    CreativeConfig_validate_dimensions dims = Ok dims ->
    (exists wh, validate_dimensions dims = Ok wh) ->
    validate_snippet_url (urlparse env) url = true ->
    exists config,
      CreativeConfig_new name fmt dims url dev None vv bc cb vc am ct = Ok config
      /\ duration config = None
      /\ format config = fmt
      /\ _validate_config env config = Ok tt
      /\ forall w,
           fetched (snd (process_creative env config w)) = fetched w ++ [url].
Proof.
  intros env name fmt dims url dev vv bc cb vc am ct _ Hc [wh Hd] Hu.
  eexists. split.
  { unfold CreativeConfig_new. rewrite Hc. simpl. reflexivity. }
  split; [reflexivity |]. split; [reflexivity |].
  assert (V : _validate_config env
                (mkCreativeConfig name fmt dims url dev None vv bc cb vc am ct) = Ok tt).
  { unfold _validate_config. simpl. rewrite Hu. simpl.
    unfold validate_creative_format_dimensions. rewrite Hd. simpl.
    destruct fmt; reflexivity. }
  split; [exact V |].
  intros w. apply (process_creative_fetches _ _ w V).
Qed.

Lemma C7_duration_is_optional_witness :
  video_family ENHANCED_PREROLL
  /\ CreativeConfig_validate_dimensions (py "300x50") = Ok (py "300x50")
  /\ (exists wh, validate_dimensions (py "300x50") = Ok wh)
  /\ validate_snippet_url urlparse_plain kargo_url = true
  /\ exists config,
      CreativeConfig_new (py "Video Without Duration") ENHANCED_PREROLL (py "300x50")
        kargo_url MOBILE None (Some (py "3.0")) false true phase1_dv true true
      = Ok config
      /\ duration config = None
      /\ format config = ENHANCED_PREROLL
      /\ _validate_config (env_of test_creative) config = Ok tt
      /\ forall w,
           fetched (snd (process_creative (env_of test_creative) config w))
           = fetched w ++ [kargo_url].
Proof.
  assert (H1 : video_family ENHANCED_PREROLL) by (right; reflexivity).
  assert (H2 : CreativeConfig_validate_dimensions (py "300x50") = Ok (py "300x50"))
    by (vm_compute; reflexivity).
  assert (H3 : exists wh, validate_dimensions (py "300x50") = Ok wh)
    by (eexists; vm_compute; reflexivity).
  assert (H4 : validate_snippet_url (urlparse (env_of test_creative)) kargo_url = true)
    by (vm_compute; reflexivity).
  split; [exact H1 |]. split; [exact H2 |]. split; [exact H3 |]. split; [exact H4 |].
  exact (C7_duration_is_optional (env_of test_creative)
           (py "Video Without Duration") ENHANCED_PREROLL (py "300x50") kargo_url
           MOBILE (Some (py "3.0")) false true phase1_dv true true H1 H2 H3 H4).
Defined.

(** A duration is not required: this video configuration has none, yet it
    is built, it passes the configuration check, and the request to the
    provider leaves. *)
Lemma C7_counterexample :
  exists config,
    CreativeConfig_new (py "Video Without Duration") ENHANCED_PREROLL (py "300x50")
      kargo_url MOBILE None (Some (py "3.0")) false true phase1_dv true true
    = Ok config
    /\ video_family (format config)
    /\ duration config = None
    /\ _validate_config (env_of test_creative) config = Ok tt
    /\ fetched (snd (process_creative (env_of test_creative) config empty_world))
       = [kargo_url].
Proof.
  eexists. split; [vm_compute; reflexivity |].
  split; [right; reflexivity |]. split; [reflexivity |].
  split; vm_compute; reflexivity.
Qed.

(** ** Malformed dimensions and invalid URLs *)

Lemma split_nonempty : forall sep s, split sep s <> [].
Proof.
  intros sep s. destruct s as [| c s]; simpl; [discriminate |].
  destruct (Ascii.eqb c sep); [discriminate |].
  destruct (split sep s); discriminate.
Qed.

Lemma split_one : forall sep s h, split sep s = [h] -> s = h.
Proof.
  intros sep s. induction s as [| c s IH]; intros h H; simpl in H.
  - congruence.
  - destruct (Ascii.eqb c sep).
    + injection H as _ H. exfalso. exact (split_nonempty _ _ H).
    + destruct (split sep s) as [| w0 ws] eqn:E;
        [exfalso; exact (split_nonempty _ _ E) |].
      injection H as H1 H2. subst. f_equal. apply IH. reflexivity.
Qed.

Lemma split_two : forall sep s w h, split sep s = [w; h] -> s = w ++ sep :: h.
Proof.
  intros sep s. induction s as [| c s IH]; intros w h H; simpl in H.
  - discriminate.
  - destruct (Ascii.eqb c sep) eqn:C.
    + apply Ascii.eqb_eq in C. injection H as H1 H2. subst. simpl.
      f_equal. apply split_one with (sep := sep). exact H2.
    + destruct (split sep s) as [| w0 ws] eqn:E; [discriminate |].
      injection H as H1 H2. subst. simpl. f_equal. apply IH. reflexivity.
Qed.

Lemma digit_not_x : forall c, isdigit c = true -> Ascii.eqb c "x"%char = false.
Proof.
  intros c H. destruct (Ascii.eqb c "x"%char) eqn:E; [| reflexivity].
  apply Ascii.eqb_eq in E. subst c. discriminate.
Qed.

Lemma split1_digits : forall w h,
  forallb isdigit w = true -> split1 "x"%char (w ++ "x"%char :: h) = [w; h].
Proof.
  induction w as [| c w IH]; intros h H; simpl.
  - reflexivity.
  - simpl in H. apply andb_true_iff in H. destruct H as [Hc Hw].
    rewrite (digit_not_x _ Hc). rewrite (IH h Hw). reflexivity.
Qed.

Lemma contains_x : forall w h, contains (py "x") (w ++ "x"%char :: h) = true.
Proof.
  induction w as [| c w IH]; intros h.
  - destruct h; reflexivity.
  - change (contains (py "x") ((c :: w) ++ "x"%char :: h))
      with (startswith (py "x") ((c :: w) ++ "x"%char :: h)
            || contains (py "x") (w ++ "x"%char :: h)).
    rewrite IH. apply orb_true_r.
Qed.

Lemma digit_not_int_space : forall c, isdigit c = true -> int_space c = false.
Proof.
  intros c. unfold isdigit, int_space. generalize (nat_of_ascii c). intros n H.
  apply andb_true_iff in H. destruct H as [H1 H2].
  apply Nat.leb_le in H1. apply Nat.leb_le in H2.
  repeat rewrite orb_false_iff. repeat split.
  - apply andb_false_iff. right. apply Nat.leb_gt. lia.
  - apply Nat.eqb_neq. lia.
  - apply Nat.eqb_neq. lia.
  - apply Nat.eqb_neq. lia.
Qed.

Lemma int_lstrip_digits : forall s, forallb isdigit s = true -> int_lstrip s = s.
Proof.
  intros [| c s] H; simpl; [reflexivity |].
  simpl in H. apply andb_true_iff in H. destruct H as [Hc _].
  rewrite (digit_not_int_space _ Hc). reflexivity.
Qed.

Lemma int_strip_digits : forall s, forallb isdigit s = true -> int_strip s = s.
Proof.
  intros s H. unfold int_strip. rewrite (int_lstrip_digits _ H).
  rewrite int_lstrip_digits; [apply rev_involutive |].
  rewrite forallb_forall in *. intros c Hc. apply H. apply in_rev. exact Hc.
Qed.

Lemma int_digits_value : forall s acc n b,
  forallb isdigit s = true -> (s <> [] \/ b = true) ->
  n + length s <= int_max_str_digits ->
  int_digits acc n b s
  = Some (fold_left (fun a c => (10 * a + digit_val c)%Z) s acc).
Proof.
  induction s as [| c s IH]; intros acc n b H Hne Hn; cbn [int_digits fold_left].
  - destruct Hne as [Hne | Hb]; [congruence | subst].
    cbn [length] in Hn. rewrite Nat.add_0_r in Hn.
    apply Nat.leb_le in Hn. rewrite Hn. reflexivity.
  - cbn [forallb] in H. apply andb_true_iff in H. destruct H as [Hc Hs].
    rewrite Hc. apply IH; [exact Hs | right; reflexivity |].
    cbn [length] in Hn. lia.
Qed.

Lemma int_all_digits : forall s,
  all_digits s = true -> length s <= int_max_str_digits ->
  int s = Some (digits_value s).
Proof.
  intros [| c s] H Hlen; [discriminate |].
  unfold all_digits in H. unfold int. rewrite (int_strip_digits _ H).
  simpl in H. apply andb_true_iff in H. destruct H as [Hc Hs].
  assert (Hm : Ascii.eqb c "-"%char = false).
  { destruct (Ascii.eqb c "-"%char) eqn:E; [| reflexivity].
    apply Ascii.eqb_eq in E. subst c. discriminate. }
  assert (Hp : Ascii.eqb c "+"%char = false).
  { destruct (Ascii.eqb c "+"%char) eqn:E; [| reflexivity].
    apply Ascii.eqb_eq in E. subst c. discriminate. }
  rewrite Hm, Hp. apply int_digits_value.
  - cbn [forallb]. rewrite Hc, Hs. reflexivity.
  - left. discriminate.
  - exact Hlen.
Qed.

(** Every string of the form digits x digits with positive values is
    accepted by the parser of the code, as long as [int] reads that many
    digits. *)
Lemma well_formed_dimensions_accepted : forall d,
  well_formed_dimensions d = true ->
  length d <= int_max_str_digits ->
  exists wh, validate_dimensions d = Ok wh.
Proof.
  intros d H Hlen. unfold well_formed_dimensions in H.
  destruct (split "x"%char d) as [| w [| h [| ? ?]]] eqn:E; try discriminate.
  apply split_two in E. subst d.
  rewrite length_app in Hlen. cbn [length] in Hlen.
  repeat (apply andb_true_iff in H; destruct H as [H ?]).
  assert (Hw : forallb isdigit w = true) by (destruct w; [discriminate | exact H]).
  unfold validate_dimensions. rewrite contains_x. simpl negb. cbv iota.
  rewrite (split1_digits _ h Hw).
  rewrite (int_all_digits _ H) by lia. rewrite (int_all_digits _ H2) by lia.
  apply Z.ltb_lt in H0, H1.
  assert (L1 : (digits_value w <=? 0)%Z = false) by (apply Z.leb_gt; exact H1).
  assert (L2 : (digits_value h <=? 0)%Z = false) by (apply Z.leb_gt; exact H0).
  rewrite L1, L2. simpl. eexists. reflexivity.
Qed.

Lemma validate_dimensions_raises : forall d e,
  validate_dimensions d = Raise e -> configuration_error e.
Proof.
  intros d e. unfold validate_dimensions.
  destruct (negb (contains (py "x") d)); [intros H; injection H as <-; exact I |].
  destruct (split1 "x"%char d) as [| w [| h [| ? ?]]];
    try (intros H; injection H as <-; exact I).
  destruct (int w) as [wv |]; [| intros H; injection H as <-; exact I].
  destruct (int h) as [hv |]; [| intros H; injection H as <-; exact I].
  destruct ((wv <=? 0)%Z || (hv <=? 0)%Z); [intros H; injection H as <-; exact I |].
  discriminate.
Qed.

Lemma validate_snippet_url_false : forall urlparse url,
  validate_snippet_url urlparse url = false <->
  (urlparse url = None
   \/ exists parsed, urlparse url = Some parsed
        /\ (scheme parsed = [] \/ netloc parsed = []
            \/ contains (py "snippet.kargo.com") (netloc parsed) = false)).
Proof.
  intros urlparse url. unfold validate_snippet_url.
  destruct (urlparse url) as [parsed |]; split.
  - intros H. right. exists parsed. split; [reflexivity |].
    destruct (scheme parsed); [left; reflexivity |].
    destruct (netloc parsed); [right; left; reflexivity |].
    right. right. exact H.
  - intros [H | [p [E H]]]; [discriminate |]. injection E as <-.
    destruct (scheme parsed); [reflexivity |].
    destruct (netloc parsed) eqn:N; [reflexivity |].
    destruct H as [H | [H | H]]; [discriminate | discriminate | exact H].
  - intros _. left. reflexivity.
  - reflexivity.
Qed.

(** C6, as the code has it. When the dimension parser of the code rejects
    the dimensions (no [x], a side that [int] cannot read, or a value that
    is not positive), or the source URL is invalid, [process_creative]
    raises a configuration error and leaves the world as it was: nothing
    was requested from the provider and no row was stored.  [int] accepts
    more than plain digits, so a string such as [+320x50] is not rejected. *)
Theorem C6_invalid_config_aborts_before_fetch :
  forall env config w,
    (exists e, validate_dimensions (dimensions config) = Raise e)
    \/ validate_snippet_url (urlparse env) (snippet_url config) = false ->
    exists e,
      process_creative env config w = (Raise e, w) /\ configuration_error e.
Proof.
  intros env config w H.
  unfold process_creative, mbind, lift. unfold _validate_config.
  destruct (validate_snippet_url (urlparse env) (snippet_url config)) eqn:U; simpl.
  - destruct H as [[e He] | H]; [| discriminate].
    unfold validate_creative_format_dimensions. rewrite He. simpl.
    exists e. split; [reflexivity |]. exact (validate_dimensions_raises _ _ He).
  - eexists. split; [reflexivity |]. exact I.
Qed.

Lemma C6_invalid_config_witness :
  ((exists e, validate_dimensions (py "0x50") = Raise e)
   \/ validate_snippet_url urlparse_plain kargo_url = false)
  /\ exists e,
       process_creative (env_of test_creative)
         (config_of RUNWAY (py "0x50") None false true phase1_dv) world_one
       = (Raise e, world_one)
       /\ configuration_error e.
Proof.
  assert (H : (exists e, validate_dimensions (py "0x50") = Raise e)
              \/ validate_snippet_url urlparse_plain kargo_url = false)
    by (left; eexists; vm_compute; reflexivity).
  split; [exact H |].
  exact (C6_invalid_config_aborts_before_fetch (env_of test_creative)
           (config_of RUNWAY (py "0x50") None false true phase1_dv) world_one H).
Defined.

(** Not every string outside the form digits x digits is rejected:
    [+320x50] is not of that form, yet the configuration is built, the
    configuration check passes and the provider is asked for the snippet.
    What the call raises afterwards is the error of the flush, which is no
    configuration error. *)
Lemma C6_counterexample :
  well_formed_dimensions (py "+320x50") = false
  /\ exists config,
       CreativeConfig_new (py "Test Creative") RUNWAY (py "+320x50") kargo_url
         MOBILE None (Some (py "3.0")) false true phase1_dv true true = Ok config
       /\ _validate_config (env_of test_creative) config = Ok tt
       /\ process_creative (env_of test_creative) config empty_world
          = (Raise flush_error, mkWorld [] [kargo_url])
       /\ ~ configuration_error flush_error.
Proof.
  split; [vm_compute; reflexivity |].
  exists (config_of RUNWAY (py "+320x50") None false true phase1_dv).
  split; [vm_compute; reflexivity |].
  split; [vm_compute; reflexivity |].
  split; [| intros H; exact H].
  rewrite process_creative_steps.
  assert (F : match _transform_snippet (env_of test_creative) (answer test_creative)
                      (config_of RUNWAY (py "+320x50") None false true phase1_dv)
              with Ok _ => true | Raise _ => false end = true)
    by (vm_compute; reflexivity).
  assert (V : _validate_config (env_of test_creative)
                (config_of RUNWAY (py "+320x50") None false true phase1_dv) = Ok tt)
    by (vm_compute; reflexivity).
  rewrite V.
  change (get_snippet (env_of test_creative)
            (snippet_url (config_of RUNWAY (py "+320x50") None false true phase1_dv)))
    with (Ok (answer test_creative)).
  cbv iota beta.
  destruct (_transform_snippet (env_of test_creative) (answer test_creative)
              (config_of RUNWAY (py "+320x50") None false true phase1_dv));
    [reflexivity | discriminate].
Qed.

(** ** Facts about [str.replace] *)

Lemma strip_prefix_some : forall p s r, strip_prefix p s = Some r -> s = p ++ r.
Proof.
  induction p as [| a p IH]; intros s r H; simpl in H.
  - injection H as <-. reflexivity.
  - destruct s as [| c s]; [discriminate |].
    destruct (Ascii.eqb a c) eqn:E; [| discriminate].
    apply Ascii.eqb_eq in E. subst c. simpl. f_equal. apply IH. exact H.
Qed.

Lemma strip_prefix_app : forall p r, strip_prefix p (p ++ r) = Some r.
Proof.
  induction p as [| a p IH]; intros r; simpl.
  - reflexivity.
  - rewrite Ascii.eqb_refl. apply IH.
Qed.

Lemma startswith_cons : forall a p c s,
  startswith (a :: p) (c :: s) = Ascii.eqb a c && startswith p s.
Proof.
  intros a p c s. unfold startswith. simpl.
  destruct (Ascii.eqb a c); reflexivity.
Qed.

Lemma contains_cons : forall k c s,
  contains k (c :: s) = startswith k (c :: s) || contains k s.
Proof. reflexivity. Qed.

Lemma contains_false_startswith : forall k s,
  contains k s = false -> startswith k s = false.
Proof.
  intros k [| c s] H; simpl in H; apply orb_false_iff in H; apply H.
Qed.

Lemma contains_false_app_r : forall k a s,
  contains k (a ++ s) = false -> contains k s = false.
Proof.
  intros k a. induction a as [| c a IH]; intros s H; [exact H |].
  simpl app in H. rewrite contains_cons in H.
  apply orb_false_iff in H. apply IH. apply H.
Qed.

Lemma replace_fuel_of : forall old new s,
  old <> [] -> replace old new s = replace_fuel (S (length s)) old new s.
Proof. intros [| a o] new s H; [congruence | reflexivity]. Qed.

Section Replace.

Variables old new : str.
Hypothesis old_nonempty : old <> [].

Lemma strip_prefix_shorter : forall s r,
  strip_prefix old s = Some r -> length r < length s.
Proof.
  intros s r H. apply strip_prefix_some in H. subst s.
  rewrite length_app. destruct old; [congruence | simpl; lia].
Qed.

Lemma replace_fuel_enough : forall f1 f2 s,
  length s < f1 -> length s < f2 ->
  replace_fuel f1 old new s = replace_fuel f2 old new s.
Proof.
  induction f1 as [| f1 IH]; intros f2 s H1 H2; [lia |].
  destruct f2 as [| f2]; [lia |]. simpl.
  destruct (strip_prefix old s) as [r |] eqn:E.
  - apply strip_prefix_shorter in E. f_equal. apply IH; lia.
  - destruct s as [| c s]; [reflexivity |]. simpl in H1, H2.
    f_equal. apply IH; lia.
Qed.

(** The equation [replace] satisfies. *)
Lemma replace_eq : forall s,
  replace old new s =
  match strip_prefix old s with
  | Some r => new ++ replace old new r
  | None =>
      match s with
      | [] => []
      | c :: s' => c :: replace old new s'
      end
  end.
Proof.
  intros s. rewrite (@replace_fuel_of old new s old_nonempty).
  change (replace_fuel (S (length s)) old new s) with
    (match strip_prefix old s with
     | Some r => new ++ replace_fuel (length s) old new r
     | None => match s with
               | [] => []
               | c :: s' => c :: replace_fuel (length s) old new s'
               end
     end).
  destruct (strip_prefix old s) as [r |] eqn:E.
  - f_equal. pose proof (strip_prefix_shorter _ _ E).
    rewrite (@replace_fuel_of old new r old_nonempty).
    apply replace_fuel_enough; lia.
  - destruct s as [| c s']; [reflexivity |]. f_equal.
    rewrite (@replace_fuel_of old new s' old_nonempty). reflexivity.
Qed.

(** Without an occurrence nothing changes. *)
Lemma replace_absent : forall s, contains old s = false -> replace old new s = s.
Proof.
  induction s as [| c s IH]; intros H; rewrite replace_eq.
  - destruct (strip_prefix old []) eqn:E; [| reflexivity].
    apply contains_false_startswith in H. unfold startswith in H.
    rewrite E in H. discriminate.
  - pose proof (contains_false_startswith _ _ H) as S0.
    unfold startswith in S0.
    destruct (strip_prefix old (c :: s)); [discriminate |].
    rewrite contains_cons in H. apply orb_false_iff in H.
    f_equal. apply IH. apply H.
Qed.

(** A replacement at least as long as what it replaces never shortens. *)
Lemma replace_length : forall n s,
  length s <= n -> length old <= length new ->
  length s <= length (replace old new s).
Proof.
  induction n as [| n IH]; intros s Hn Hl; rewrite replace_eq.
  - destruct s; [| simpl in Hn; lia].
    destruct (strip_prefix old []); simpl; lia.
  - destruct (strip_prefix old s) as [r |] eqn:E.
    + pose proof (strip_prefix_shorter _ _ E) as Hr.
      apply strip_prefix_some in E. subst s.
      rewrite !length_app in *. specialize (IH r). lia.
    + destruct s as [| c s']; [simpl; lia |]. simpl in *.
      specialize (IH s'). lia.
Qed.

End Replace.

(** ** Macro injection *)

Section NoNewOccurrence.

Variable d : ascii.
Variables bK bV b' : str.
Hypothesis d_not_in_b' : absent d b' = true.
Hypothesis d_not_in_bV : absent d bV = true.
Hypothesis k'_clashes : clash (d :: b') (d :: bV) = true.

Let K := d :: bK.
Let V := d :: bV.
Let K' := d :: b'.

Lemma K_nonempty : K <> [].
Proof. discriminate. Qed.

Lemma absent_cons : forall x b,
  absent d (x :: b) = true -> Ascii.eqb d x = false /\ absent d b = true.
Proof.
  intros x b H. unfold absent in *. simpl in H.
  apply negb_true_iff in H. apply orb_false_iff in H. destruct H as [H1 H2].
  split; [exact H1 | apply negb_true_iff; exact H2].
Qed.

(** What the output begins with, before any [d], the input begins with. *)
Lemma startswith_replace_back : forall b s,
  absent d b = true ->
  startswith b (replace K V s) = true -> startswith b s = true.
Proof.
  induction b as [| x b IH]; intros s Hb H; [reflexivity |].
  apply absent_cons in Hb. destruct Hb as [Hx Hb].
  rewrite (@replace_eq K V K_nonempty) in H.
  destruct (strip_prefix K s) as [r |].
  - unfold V in H. simpl app in H. rewrite startswith_cons in H.
    apply andb_true_iff in H. destruct H as [H _].
    apply Ascii.eqb_eq in H. subst x. rewrite Ascii.eqb_refl in Hx. discriminate.
  - destruct s as [| c s]; [discriminate |].
    rewrite startswith_cons in *. apply andb_true_iff in H. destruct H as [H1 H2].
    rewrite H1. simpl. apply IH; assumption.
Qed.

Lemma contains_skip : forall u X,
  absent d u = true -> contains K' (u ++ X) = contains K' X.
Proof.
  induction u as [| c u IH]; intros X H; [reflexivity |].
  apply absent_cons in H. destruct H as [Hc Hu].
  simpl app. rewrite contains_cons. unfold K' at 1. rewrite startswith_cons.
  rewrite Hc. simpl. apply IH. exact Hu.
Qed.

Lemma clash_startswith : forall k v R,
  clash k v = true -> startswith k (v ++ R) = false.
Proof.
  induction k as [| a k IH]; intros v R H; [discriminate |].
  destruct v as [| b v]; [discriminate |]. simpl in H.
  simpl app. rewrite startswith_cons.
  destruct (Ascii.eqb a b); [| reflexivity]. simpl. apply IH. exact H.
Qed.

(** Replacing [K] by [V] leaves no occurrence of [K], and creates no
    occurrence of a placeholder [K'] that was absent. *)
Lemma replace_no_new : forall n s,
  length s <= n ->
  K' = K \/ contains K' s = false ->
  contains K' (replace K V s) = false.
Proof.
  induction n as [| n IH]; intros s Hn H; rewrite (@replace_eq K V K_nonempty).
  - destruct s; [| simpl in Hn; lia]. simpl. reflexivity.
  - destruct (strip_prefix K s) as [r |] eqn:E.
    + pose proof (@strip_prefix_shorter K K_nonempty _ _ E) as Hr.
      apply strip_prefix_some in E.
      assert (Hr' : contains K' (replace K V r) = false).
      { apply IH; [lia |]. destruct H as [H | H]; [left; exact H | right].
        subst s. apply (contains_false_app_r _ _ _ H). }
      change (V ++ replace K V r) with (d :: (bV ++ replace K V r)).
      rewrite contains_cons, (contains_skip _ _ d_not_in_bV), Hr', orb_false_r.
      exact (clash_startswith (d :: b') (d :: bV) (replace K V r) k'_clashes).
    + destruct s as [| c s]; [reflexivity |].
      rewrite contains_cons.
      assert (Hs : contains K' (replace K V s) = false).
      { apply IH; [simpl in Hn; lia |]. destruct H as [H | H]; [left; exact H | right].
        rewrite contains_cons in H. apply orb_false_iff in H. apply H. }
      rewrite Hs, orb_false_r.
      destruct (startswith K' (c :: replace K V s)) eqn:S0; [| reflexivity].
      exfalso. unfold K' in S0. rewrite startswith_cons in S0.
      apply andb_true_iff in S0. destruct S0 as [S1 S2].
      apply startswith_replace_back in S2; [| exact d_not_in_b'].
      assert (S3 : startswith K' (c :: s) = true).
      { unfold K'. rewrite startswith_cons, S1, S2. reflexivity. }
      destruct H as [H | H].
      * rewrite H in S3. unfold startswith in S3. rewrite E in S3. discriminate.
      * apply contains_false_startswith in H. congruence.
Qed.

End NoNewOccurrence.

Lemma macro_shape_no_new : forall d k' kv s,
  macro_shape d k' kv = true ->
  k' = fst kv \/ contains k' s = false ->
  contains k' (inject_step s kv) = false.
Proof.
  intros d k' [k v] s Sh H. unfold macro_shape in Sh. simpl in Sh, H.
  destruct k' as [| a b']; [discriminate |].
  destruct k as [| c bK]; [discriminate |].
  destruct v as [| e bV]; [discriminate |].
  repeat (apply andb_true_iff in Sh; destruct Sh as [Sh ?]).
  apply Ascii.eqb_eq in Sh, H4, H3. subst a c e.
  unfold inject_step. simpl.
  apply (@replace_no_new d bK bV b' H2 H1 H0 (length s) s (Nat.le_refl _) H).
Qed.

(** After the whole table was applied, none of its placeholders is left. *)
Lemma fold_no_placeholder : forall d ms done s,
  (forall k, In k (done ++ map fst ms) ->
     forall kv, In kv ms -> macro_shape d k kv = true) ->
  (forall k, In k done -> contains k s = false) ->
  forall k, In k (done ++ map fst ms) ->
    contains k (fold_left inject_step ms s) = false.
Proof.
  intros d ms. induction ms as [| [K V] ms IH]; intros done s Sh Hd k Hk.
  - simpl in *. rewrite app_nil_r in Hk. apply Hd. exact Hk.
  - simpl fold_left.
    apply (IH (done ++ [K]) (inject_step s (K, V))).
    + intros k0 Hk0 kv Hkv. apply Sh; [| right; exact Hkv].
      rewrite <- app_assoc in Hk0. exact Hk0.
    + intros k0 Hk0. apply in_app_or in Hk0.
      apply (macro_shape_no_new d).
      * apply Sh; [| left; reflexivity].
        destruct Hk0 as [Hk0 | [<- | []]];
          [apply in_or_app; left; exact Hk0
          | apply in_or_app; right; left; reflexivity].
      * destruct Hk0 as [Hk0 | [<- | []]];
          [right; apply Hd; exact Hk0 | left; reflexivity].
    + rewrite <- app_assoc. exact Hk.
Qed.

(** A table none of whose placeholders occurs changes nothing. *)
Lemma fold_absent : forall ms s,
  (forall kv, In kv ms -> fst kv <> []) ->
  (forall k, In k (map fst ms) -> contains k s = false) ->
  fold_left inject_step ms s = s.
Proof.
  induction ms as [| [K V] ms IH]; intros s Hne H; [reflexivity |].
  simpl fold_left.
  assert (E : inject_step s (K, V) = s).
  { unfold inject_step. simpl. apply replace_absent.
    - apply (Hne (K, V)). left. reflexivity.
    - apply H. left. reflexivity. }
  rewrite E. apply IH.
  - intros kv Hkv. apply Hne. right. exact Hkv.
  - intros k Hk. apply H. right. exact Hk.
Qed.

Lemma table_ok_shape : forall d ms,
  table_ok d ms = true ->
  forall k, In k (map fst ms) -> forall kv, In kv ms -> macro_shape d k kv = true.
Proof.
  intros d ms H k Hk kv Hkv. unfold table_ok in H.
  rewrite forallb_forall in H. specialize (H k Hk).
  rewrite forallb_forall in H. apply H. exact Hkv.
Qed.

Lemma macro_shape_nonempty : forall d k kv,
  macro_shape d k kv = true -> fst kv <> [].
Proof.
  intros d k [K V] H. unfold macro_shape in H. simpl in *.
  destruct k; [discriminate |]. destruct K; [discriminate | discriminate].
Qed.

Lemma AMAZON_MACROS_ok :
  table_ok "$"%char SnippetTransformer.AMAZON_MACROS = true.
Proof. vm_compute. reflexivity. Qed.

(** No generic placeholder of the table survives an injection. *)
Lemma inject_leaves_no_placeholder : forall s k,
  In k (map fst SnippetTransformer.AMAZON_MACROS) ->
  contains k (SnippetTransformer.inject_amazon_macros s) = false.
Proof.
  intros s k Hk.
  apply (@fold_no_placeholder "$"%char SnippetTransformer.AMAZON_MACROS [] s).
  - intros k0 Hk0. apply table_ok_shape; [exact AMAZON_MACROS_ok | exact Hk0].
  - intros k0 [].
  - exact Hk.
Qed.

(** C4. Macro injection is idempotent: injecting twice gives what
    injecting once gives, for every markup. *)
Theorem C4_inject_macros_idempotent :
  forall s,
    SnippetTransformer.inject_amazon_macros
      (SnippetTransformer.inject_amazon_macros s)
    = SnippetTransformer.inject_amazon_macros s.
Proof.
  intros s.
  apply (fold_absent SnippetTransformer.AMAZON_MACROS).
  - intros kv Hkv.
    apply (@macro_shape_nonempty "$"%char (fst kv)).
    apply table_ok_shape with (ms := SnippetTransformer.AMAZON_MACROS);
      [exact AMAZON_MACROS_ok | apply in_map; exact Hkv | exact Hkv].
  - intros k Hk. apply inject_leaves_no_placeholder. exact Hk.
Qed.

(** ** Sizes before and after processing *)

Lemma lstrip_app : forall a r,
  has_nonspace a = true -> lstrip (a ++ r) = lstrip a ++ r.
Proof.
  induction a as [| c a IH]; intros r H; [discriminate |].
  cbn [app lstrip]. destruct (isspace c) eqn:E; [| reflexivity].
  apply IH. unfold has_nonspace in *. cbn [existsb] in H.
  unfold nonspace at 1 in H. rewrite E in H. exact H.
Qed.

Lemma has_nonspace_rev : forall s, has_nonspace s = true -> has_nonspace (rev s) = true.
Proof.
  intros s H. unfold has_nonspace in *. apply existsb_exists in H.
  destruct H as [c [Hc E]]. apply existsb_exists. exists c.
  split; [apply in_rev; rewrite rev_involutive; exact Hc | exact E].
Qed.

Lemma rstrip_app : forall p z,
  has_nonspace z = true -> rstrip (p ++ z) = p ++ rstrip z.
Proof.
  intros p z H. unfold rstrip. rewrite rev_app_distr.
  rewrite (lstrip_app _ _ (has_nonspace_rev _ H)).
  rewrite rev_app_distr, rev_involutive. reflexivity.
Qed.

Lemma table_grows_length : forall ms s,
  (forall kv, In kv ms -> fst kv <> []) ->
  table_grows ms = true ->
  length s <= length (fold_left inject_step ms s).
Proof.
  induction ms as [| [K V] ms IH]; intros s Hne H; [apply Nat.le_refl |].
  simpl fold_left. unfold table_grows in H. simpl in H.
  apply andb_true_iff in H. destruct H as [H1 H2]. apply Nat.leb_le in H1.
  apply Nat.le_trans with (m := length (inject_step s (K, V))).
  - unfold inject_step. simpl.
    apply (@replace_length K V (Hne (K, V) (or_introl eq_refl)) (length s) s);
      [apply Nat.le_refl | exact H1].
  - apply IH; [intros kv Hkv; apply Hne; right; exact Hkv | exact H2].
Qed.

Lemma AMAZON_MACROS_nonempty :
  forall kv, In kv SnippetTransformer.AMAZON_MACROS -> fst kv <> [].
Proof.
  intros kv Hkv. apply (@macro_shape_nonempty "$"%char (fst kv)).
  apply table_ok_shape with (ms := SnippetTransformer.AMAZON_MACROS);
    [exact AMAZON_MACROS_ok | apply in_map; exact Hkv | exact Hkv].
Qed.

(** Macro injection never shortens the markup. *)
Lemma inject_length : forall s,
  length s <= length (SnippetTransformer.inject_amazon_macros s).
Proof.
  intros s. apply (table_grows_length SnippetTransformer.AMAZON_MACROS).
  - exact AMAZON_MACROS_nonempty.
  - vm_compute. reflexivity.
Qed.

(** Both display wrappers keep the whole markup they are given: they are
    as long as the markup and the wrapper around an empty markup. *)
Lemma wrap_display_html5_phase1_frame : forall snippet_code config,
  length (SnippetTransformer.wrap_display_html5_phase1 snippet_code config)
  = length (SnippetTransformer.wrap_display_html5_phase1 [] config)
    + length snippet_code.
Proof.
  intros snippet_code config. unfold SnippetTransformer.wrap_display_html5_phase1.
  unfold strip. rewrite !lstrip_app by (vm_compute; reflexivity).
  repeat rewrite app_assoc.
  rewrite !rstrip_app by (vm_compute; reflexivity).
  repeat rewrite length_app. cbn [length]. lia.
Qed.

Lemma wrap_display_html5_phase2_frame : forall snippet_code config,
  length (SnippetTransformer.wrap_display_html5_phase2 snippet_code config)
  = length (SnippetTransformer.wrap_display_html5_phase2 [] config)
    + length snippet_code.
Proof.
  intros snippet_code config. unfold SnippetTransformer.wrap_display_html5_phase2.
  unfold strip. rewrite !lstrip_app by (vm_compute; reflexivity).
  repeat rewrite app_assoc.
  rewrite !rstrip_app by (vm_compute; reflexivity).
  repeat rewrite length_app. cbn [length]. lia.
Qed.

Lemma wrap_display_frame : forall config snippet_code,
  length (wrap_display config snippet_code)
  = length (wrap_display config []) + length snippet_code.
Proof.
  intros config snippet_code. unfold wrap_display.
  destruct (phase (viewability_config config));
    [apply wrap_display_html5_phase1_frame | apply wrap_display_html5_phase2_frame].
Qed.

(** What a substitution does to the length: every occurrence counted
    trades the length of [old] for the length of [new]. *)
Lemma replace_fuel_count : forall old new fuel s,
  length (replace_fuel fuel old new s) + count_fuel fuel old s * length old
  = length s + count_fuel fuel old s * length new.
Proof.
  intros old new. induction fuel as [| f IH]; intros s; [reflexivity |].
  cbn [replace_fuel count_fuel].
  destruct (strip_prefix old s) as [r |] eqn:E.
  - apply strip_prefix_some in E. subst s. specialize (IH r).
    rewrite !length_app. cbn [Nat.mul]. lia.
  - destruct s as [| c s']; [reflexivity |].
    specialize (IH s'). cbn [length]. lia.
Qed.

Lemma replace_count : forall old new s,
  old <> [] ->
  length (replace old new s) + count old s * length old
  = length s + count old s * length new.
Proof.
  intros old new s N. unfold count.
  destruct old as [| a old']; [congruence |].
  apply replace_fuel_count.
Qed.

(** The cache-buster substitution after the macro injection: the generic
    placeholder is gone by then, and each platform placeholder, of 21
    characters, becomes the token. *)
Lemma inject_cache_buster_count : forall time_ms s,
  let injected := SnippetTransformer.inject_amazon_macros s in
  length (SnippetTransformer.inject_cache_buster time_ms injected None)
  + count (py "${AMAZON_CACHEBUSTER}") injected * 21
  = length injected
    + count (py "${AMAZON_CACHEBUSTER}") injected
      * length (SnippetTransformer.generate_cache_buster time_ms).
Proof.
  intros time_ms s injected. unfold SnippetTransformer.inject_cache_buster.
  rewrite (@replace_absent (py "${CACHEBUSTER}")
             (SnippetTransformer.generate_cache_buster time_ms)
             ltac:(discriminate) injected).
  - apply (replace_count (py "${AMAZON_CACHEBUSTER}")). discriminate.
  - apply inject_leaves_no_placeholder. vm_compute. tauto.
Qed.

(** What [_transform_snippet] does on the display path. *)
Lemma transform_runway : forall env resp config,
  format config = RUNWAY ->
  let injected :=
    SnippetTransformer.inject_amazon_macros
      (after_removal config (snippet_code resp)) in
  exists md,
    _transform_snippet env resp config
    = Ok (wrap_display config
            (if cache_buster config
             then SnippetTransformer.inject_cache_buster (time_ms env) injected None
             else injected), md)
    /\ original_snippet_size md = length (snippet_code resp)
    /\ processed_snippet_size md
       = length (wrap_display config
                   (if cache_buster config
                    then SnippetTransformer.inject_cache_buster (time_ms env)
                           injected None
                    else injected)).
Proof.
  intros env resp config Hf injected. subst injected.
  unfold _transform_snippet, after_removal, wrap_display. rewrite Hf.
  destruct (phase (viewability_config config)).
  - destruct (SnippetTransformer.remove_ias_tags (snippet_code resp))
      as [cleaned removed].
    destruct (cache_buster config); cbn [fst bind];
      (eexists; split; [reflexivity |]; split; reflexivity).
  - destruct (cache_buster config); cbn [bind];
      (eexists; split; [reflexivity |]; split; reflexivity).
Qed.

(** C1, as the code has it. For a display creative, in either phase and
    with the cache buster on or off, the sizes that [_transform_snippet]
    records are the lengths of the markup as it came and of the code it
    returns, and the second is exactly the length of the wrapper itself plus
    the length of the markup after tag removal (PHASE_1) and macro
    injection, less what the cache-buster substitution saves: each of the
    placeholders it replaces, of 21 characters, becomes the token.  Macro
    injection never shortens.  So the processed size is at least the
    original size whenever what the tag removal deleted and what the
    substitution saved do not together exceed the length of the wrapper
    itself.  Video wrappers drop the markup and carry no such bound. *)
Theorem C1_display_size_bound :
  forall env resp config code md,
    _transform_snippet env resp config = Ok (code, md) ->
    format config = RUNWAY ->
    let original := snippet_code resp in
    let cleaned := after_removal config original in
    let injected := SnippetTransformer.inject_amazon_macros cleaned in
    let token := SnippetTransformer.generate_cache_buster (time_ms env) in
    let frame := length (wrap_display config []) in
    original_snippet_size md = length original
    /\ processed_snippet_size md = length code
    /\ length code + placeholders config injected * 21
       = frame + length injected + placeholders config injected * length token
    /\ length cleaned <= length injected
    /\ (length original - length cleaned
        + placeholders config injected * (21 - length token) <= frame ->
        original_snippet_size md <= processed_snippet_size md).
Proof.
  intros env resp config code md H Hf original cleaned injected token frame.
  destruct (transform_runway env resp config Hf) as [md' [T [S1 S2]]].
  rewrite T in H. injection H as Hc Hm. subst md'.
  fold original in S1. fold original cleaned injected in Hc, S2.
  rewrite Hc in S2.
  assert (E : length code + placeholders config injected * 21
              = frame + length injected + placeholders config injected * length token).
  { rewrite <- Hc. rewrite wrap_display_frame. fold frame. unfold placeholders.
    destruct (cache_buster config).
    - pose proof (inject_cache_buster_count (time_ms env) cleaned) as Q.
      cbv zeta in Q. fold injected token in Q. lia.
    - lia. }
  assert (G : length cleaned <= length injected) by apply inject_length.
  split; [exact S1 |]. split; [exact S2 |]. split; [exact E |].
  split; [exact G |].
  intros B. rewrite S1, S2.
  set (p := placeholders config injected) in *.
  destruct (Nat.le_gt_cases (length token) 21) as [L | L].
  - assert (M : p * 21 = p * length token + p * (21 - length token)).
    { rewrite <- Nat.mul_add_distr_l. f_equal. lia. }
    lia.
  - assert (M : p * 21 <= p * length token)
      by (apply Nat.mul_le_mono_l; lia).
    lia.
Qed.

(** The run on the test snippet, in PHASE_1 and with the cache buster on,
    as a configuration has it by default. *)
Lemma C1_display_size_witness :
  exists code md,
    _transform_snippet (env_of test_creative) (answer test_creative) runway_phase1
    = Ok (code, md)
    /\ format runway_phase1 = RUNWAY
    /\ cache_buster runway_phase1 = true
    /\ original_snippet_size md = length test_creative
    /\ processed_snippet_size md = length code
    /\ original_snippet_size md <= processed_snippet_size md.
Proof.
  assert (F : match _transform_snippet (env_of test_creative)
                      (answer test_creative) runway_phase1 with
              | Ok _ => true
              | Raise _ => false
              end = true) by (vm_compute; reflexivity).
  assert (B : length test_creative
              - length (after_removal runway_phase1 test_creative)
              + placeholders runway_phase1
                  (SnippetTransformer.inject_amazon_macros
                     (after_removal runway_phase1 test_creative))
                * (21 - length (SnippetTransformer.generate_cache_buster
                                  (time_ms (env_of test_creative))))
              <= length (wrap_display runway_phase1 []))
    by (apply Nat.leb_le; vm_compute; reflexivity).
  destruct (_transform_snippet (env_of test_creative) (answer test_creative)
              runway_phase1) as [[code md] | e] eqn:T; [| discriminate].
  exists code, md. split; [reflexivity |]. split; [reflexivity |].
  split; [reflexivity |].
  destruct (C1_display_size_bound (env_of test_creative) (answer test_creative)
              runway_phase1 code md T eq_refl) as [S1 [S2 [_ [_ Hb]]]].
  split; [exact S1 |]. split; [exact S2 |]. exact (Hb B).
Defined.

(** A transformation whose recorded size check says smaller is one that
    shrank the markup. *)
Lemma transform_shrinks : forall env resp config,
  match _transform_snippet env resp config with
  | Ok (_, md) => processed_snippet_size md <? original_snippet_size md
  | Raise _ => false
  end = true ->
  exists code md,
    _transform_snippet env resp config = Ok (code, md)
    /\ processed_snippet_size md < original_snippet_size md.
Proof.
  intros env resp config F.
  destruct (_transform_snippet env resp config) as [[code md] | e];
    [| discriminate].
  exists code, md. split; [reflexivity | apply Nat.ltb_lt; exact F].
Qed.

(** The statement for every transformation fails: a PHASE_1 display run
    whose markup is one long IAS pixel, a PHASE_2 video run whose markup is
    a long VAST document, and a PHASE_2 display run with the cache buster
    on whose markup is full of cache-buster placeholders, all record a
    processed size below the original. *)
Lemma C1_counterexample :
  (exists code md,
     _transform_snippet (env_of long_ias_pixel) (answer long_ias_pixel)
       runway_phase1 = Ok (code, md)
     /\ processed_snippet_size md < original_snippet_size md)
  /\ (exists code md,
        _transform_snippet (env_of long_vast) (answer long_vast)
          (video_phase2 (Some 15%Z)) = Ok (code, md)
        /\ processed_snippet_size md < original_snippet_size md)
  /\ (exists code md,
        _transform_snippet (env_of many_cache_busters) (answer many_cache_busters)
          runway_phase2_cb = Ok (code, md)
        /\ processed_snippet_size md < original_snippet_size md).
Proof.
  split; [| split]; apply transform_shrinks; vm_compute; reflexivity.
Qed.

(** ** Facts about the matcher *)

Lemma star_greedy_splits : forall f k, splits k -> splits (star_greedy f k).
Proof.
  intros f k Hk s. induction s as [| c s IH]; intros m r H; simpl in H.
  - apply Hk. exact H.
  - destruct (f c); [| apply Hk; exact H].
    destruct (star_greedy f k s) as [[m' r'] |] eqn:E.
    + injection H as <- <-. simpl. f_equal. apply IH. reflexivity.
    + apply Hk. exact H.
Qed.

Lemma star_lazy_splits : forall f k, splits k -> splits (star_lazy f k).
Proof.
  intros f k Hk s. induction s as [| c s IH]; intros m r H; simpl in H.
  - destruct (k []) as [[m' r'] |] eqn:E; [| discriminate].
    injection H as <- <-. apply Hk. exact E.
  - destruct (k (c :: s)) as [[m' r'] |] eqn:E.
    + injection H as <- <-. apply Hk. exact E.
    + destruct (f c); [| discriminate].
      destruct (star_lazy f k s) as [[m' r'] |] eqn:E'; [| discriminate].
      simpl in H. injection H as <- <-. simpl. f_equal. apply IH. reflexivity.
Qed.

(** A match is a beginning of the string it was found in. *)
Lemma match_here_splits : forall fl p, splits (match_here fl p).
Proof.
  intros fl p. induction p as [| i p IH]; intros s m r H.
  - simpl in H. injection H as <- <-. reflexivity.
  - destruct i as [cs | cs | cs]; simpl in H.
    + destruct s as [| c s]; [discriminate |].
      destruct (cset_match fl cs c); [| discriminate].
      destruct (match_here fl p s) as [[m' r'] |] eqn:E; [| discriminate].
      simpl in H. injection H as <- <-. simpl. f_equal. apply IH. exact E.
    + exact (@star_greedy_splits _ _ IH _ _ _ H).
    + exact (@star_lazy_splits _ _ IH _ _ _ H).
Qed.

Lemma begins_with_one_nonempty : forall fl p s r,
  begins_with_one p = true -> match_here fl p s <> Some ([], r).
Proof.
  intros fl [| [cs | cs | cs] p] s r H; try discriminate.
  simpl. destruct s as [| c s]; [discriminate |].
  destruct (cset_match fl cs c); [| discriminate].
  destruct (match_here fl p s) as [[m' r'] |]; discriminate.
Qed.

Section Scan.

Variable fl : flags.
Variable p : regex.
Hypothesis p_one : begins_with_one p = true.

Lemma match_shorter : forall s m r,
  match_here fl p s = Some (m, r) -> length r < length s.
Proof.
  intros s m r H. pose proof (@match_here_splits fl p s m r H) as E. subst s.
  destruct m as [| c m]; [exfalso; exact (begins_with_one_nonempty _ _ _ _ p_one H) |].
  rewrite length_app. simpl. lia.
Qed.

Lemma scan_fuel_enough : forall f1 f2 s,
  length s < f1 -> length s < f2 -> scan f1 fl p s = scan f2 fl p s.
Proof.
  induction f1 as [| f1 IH]; intros f2 s H1 H2; [lia |].
  destruct f2 as [| f2]; [lia |]. simpl.
  destruct (match_here fl p s) as [[m r] |] eqn:E.
  - pose proof (match_shorter _ _ _ E) as Hr.
    destruct m as [| c m];
      [exfalso; exact (begins_with_one_nonempty _ _ _ _ p_one E) |].
    f_equal. apply IH; lia.
  - destruct s as [| c s]; [reflexivity |]. simpl in H1, H2.
    f_equal. apply IH; lia.
Qed.

(** The equation of one pass. *)
Lemma chunks_eq : forall s,
  chunks fl p s =
  match match_here fl p s with
  | Some (m, r) => inr m :: chunks fl p r
  | None =>
      match s with
      | [] => []
      | c :: s' => inl c :: chunks fl p s'
      end
  end.
Proof.
  intros s. unfold chunks at 1. simpl.
  destruct (match_here fl p s) as [[m r] |] eqn:E.
  - pose proof (match_shorter _ _ _ E) as Hr.
    destruct m as [| c m];
      [exfalso; exact (begins_with_one_nonempty _ _ _ _ p_one E) |].
    f_equal. apply scan_fuel_enough; lia.
  - destruct s as [| c s]; reflexivity.
Qed.

Lemma findall_eq : forall s,
  findall fl p s =
  match match_here fl p s with
  | Some (m, r) => m :: findall fl p r
  | None =>
      match s with
      | [] => []
      | _ :: s' => findall fl p s'
      end
  end.
Proof.
  intros s. unfold findall. rewrite chunks_eq.
  destruct (match_here fl p s) as [[m r] |]; [reflexivity |].
  destruct s; reflexivity.
Qed.

Lemma sub_eq : forall repl s,
  sub fl p repl s =
  match match_here fl p s with
  | Some (m, r) => repl ++ sub fl p repl r
  | None =>
      match s with
      | [] => []
      | c :: s' => c :: sub fl p repl s'
      end
  end.
Proof.
  intros repl s. unfold sub. rewrite chunks_eq.
  destruct (match_here fl p s) as [[m r] |]; [reflexivity |].
  destruct s; reflexivity.
Qed.

Lemma findall_nil_iff : forall s, findall fl p s = [] <-> ~ matches_in fl p s.
Proof.
  induction s as [| c s IH]; rewrite findall_eq.
  - destruct (match_here fl p []) as [[m r] |] eqn:E; split.
    + discriminate.
    + intros H. exfalso. apply H. exists [], []. split; [reflexivity |].
      rewrite E. discriminate.
    + intros _ [a [t [H1 H2]]]. destruct a; [| discriminate].
      simpl in H1. subst t. congruence.
    + reflexivity.
  - destruct (match_here fl p (c :: s)) as [[m r] |] eqn:E; split.
    + discriminate.
    + intros H. exfalso. apply H. exists [], (c :: s). split; [reflexivity |].
      rewrite E. discriminate.
    + intros H [a [t [H1 H2]]]. destruct a as [| c' a].
      * simpl in H1. subst t. congruence.
      * injection H1 as -> ->. apply (proj1 IH H). exists a, t.
        split; [reflexivity | exact H2].
    + intros H. apply IH. intros [a [t [H1 H2]]]. apply H.
      exists (c :: a), t. split; [simpl; f_equal; exact H1 | exact H2].
Qed.

End Scan.


(** ** The loop over the IAS patterns *)

Lemma remove_loop_extends : forall ps s acc,
  exists extra, snd (fold_left remove_pattern ps (s, acc)) = acc ++ extra.
Proof.
  induction ps as [| p ps IH]; intros s acc; simpl.
  - exists []. rewrite app_nil_r. reflexivity.
  - destruct (findall re_flags p s) as [| m ms].
    + apply IH.
    + destruct (IH (sub re_flags p [] s) (acc ++ m :: ms)) as [extra E].
      exists ((m :: ms) ++ extra). rewrite E, <- app_assoc. reflexivity.
Qed.

Lemma remove_loop_no_match : forall ps s acc,
  (forall p, In p ps -> findall re_flags p s = []) ->
  fold_left remove_pattern ps (s, acc) = (s, acc).
Proof.
  induction ps as [| p ps IH]; intros s acc H; simpl; [reflexivity |].
  rewrite (H p (or_introl eq_refl)). apply IH.
  intros q Hq. apply H. right. exact Hq.
Qed.

Lemma remove_loop_some_match : forall ps s acc,
  (exists p, In p ps /\ findall re_flags p s <> []) ->
  snd (fold_left remove_pattern ps (s, acc)) <> [].
Proof.
  induction ps as [| p ps IH]; intros s acc [q [Hq Hm]]; [destruct Hq |].
  simpl. destruct (findall re_flags p s) as [| m ms] eqn:E.
  - apply IH. exists q. split; [| exact Hm].
    destruct Hq as [<- | Hq]; [congruence | exact Hq].
  - destruct (remove_loop_extends ps (sub re_flags p [] s) (acc ++ m :: ms))
      as [extra X].
    rewrite X. intros N. apply app_eq_nil in N. destruct N as [N _].
    apply app_eq_nil in N. destruct N as [_ N]. discriminate.
Qed.

Lemma IAS_PATTERNS_begin_with_one :
  forall p, In p IAS_PATTERNS -> begins_with_one p = true.
Proof.
  assert (H : forallb begins_with_one IAS_PATTERNS = true)
    by (vm_compute; reflexivity).
  intros p Hp. rewrite forallb_forall in H. apply H. exact Hp.
Qed.

(** The removed list is empty exactly when no pattern matches anywhere in
    the input. *)
Lemma removed_nil_iff : forall s,
  snd (remove_ias_tags s) = [] <->
  (forall p, In p IAS_PATTERNS -> ~ matches_in re_flags p s).
Proof.
  intros s. unfold remove_ias_tags.
  destruct (fold_left remove_pattern IAS_PATTERNS (s, [])) as [cleaned removed] eqn:E.
  cbn [fst snd]. split.
  - intros H p Hp M. subst removed.
    assert (N : snd (fold_left remove_pattern IAS_PATTERNS (s, [])) <> []).
    { apply remove_loop_some_match. exists p. split; [exact Hp |].
      intros F. apply (@findall_nil_iff re_flags p (IAS_PATTERNS_begin_with_one p Hp) s) in F.
      exact (F M). }
    rewrite E in N. apply N. reflexivity.
  - intros H. rewrite remove_loop_no_match in E.
    + injection E as _ <-. reflexivity.
    + intros p Hp. apply (@findall_nil_iff re_flags p (IAS_PATTERNS_begin_with_one p Hp) s).
      apply H. exact Hp.
Qed.

Lemma cleaned_when_no_match : forall s,
  (forall p, In p IAS_PATTERNS -> ~ matches_in re_flags p s) ->
  fst (remove_ias_tags s) = strip (sub no_flags blank_lines [nl] s).
Proof.
  intros s H. unfold remove_ias_tags. rewrite remove_loop_no_match; [reflexivity |].
  intros p Hp. apply (@findall_nil_iff re_flags p (IAS_PATTERNS_begin_with_one p Hp) s).
  apply H. exact Hp.
Qed.


(** ** The whitespace clean-up *)

Lemma nl_isspace : forall c, Ascii.eqb nl c = true -> isspace c = true.
Proof. intros c H. apply Ascii.eqb_eq in H. subst c. reflexivity. Qed.

Lemma ws_then_nl_spec : forall s,
  match ws_then_nl s with
  | Some (m, r) => nl_in_ws_prefix s = true /\ nl_in_ws_prefix r = false
                   /\ forallb isspace m = true
  | None => nl_in_ws_prefix s = false
  end.
Proof.
  induction s as [| c s IH]; [reflexivity |].
  unfold ws_then_nl in *. cbn [star_greedy match_here].
  change (cset_match no_flags (Atom ASpace) c) with (isspace c).
  change (cset_match no_flags (Atom (ALit nl)) c) with (Ascii.eqb nl c).
  cbn [nl_in_ws_prefix].
  destruct (isspace c) eqn:Sp.
  - destruct (star_greedy _ _ s) as [[m r] |].
    + destruct IH as [I1 [I2 I3]]. rewrite I1, orb_true_r.
      cbn [forallb andb]. rewrite Sp, I3. repeat split; assumption.
    + rewrite IH, orb_false_r. destruct (Ascii.eqb nl c) eqn:N.
      * cbn [consumed forallb andb]. rewrite Sp. repeat split; exact IH.
      * reflexivity.
  - destruct (Ascii.eqb nl c) eqn:N; [| reflexivity].
    apply nl_isspace in N. congruence.
Qed.

Lemma match_blank_lines : forall s,
  match match_here no_flags blank_lines s with
  | Some (m, r) => blank_at s = true /\ nl_in_ws_prefix r = false
                   /\ forallb isspace m = true
  | None => blank_at s = false
  end.
Proof.
  intros [| c s]; [reflexivity |].
  change (match_here no_flags blank_lines (c :: s))
    with (if Ascii.eqb nl c then consumed c (ws_then_nl s) else None).
  cbn [blank_at]. destruct (Ascii.eqb nl c) eqn:N; [| reflexivity].
  pose proof (ws_then_nl_spec s) as W.
  destruct (ws_then_nl s) as [[m r] |]; cbn [consumed andb forallb].
  - destruct W as [W1 [W2 W3]]. rewrite (nl_isspace _ N), W3. auto.
  - exact W.
Qed.

Lemma blank_lines_begin : begins_with_one blank_lines = true.
Proof. reflexivity. Qed.

Lemma collapse_eq : forall s,
  collapse s =
  match match_here no_flags blank_lines s with
  | Some (m, r) => nl :: collapse r
  | None =>
      match s with
      | [] => []
      | c :: s' => c :: collapse s'
      end
  end.
Proof.
  intros s. unfold collapse. rewrite (@sub_eq no_flags blank_lines blank_lines_begin [nl] s).
  destruct (match_here no_flags blank_lines s) as [[m r] |]; reflexivity.
Qed.

Lemma blank_at_false_of_prefix : forall c s,
  nl_in_ws_prefix (c :: s) = false -> blank_at (c :: s) = false.
Proof.
  intros c s H. cbn [blank_at nl_in_ws_prefix] in *.
  destruct (Ascii.eqb nl c) eqn:N; [| reflexivity].
  rewrite (nl_isspace _ N) in H. cbn [andb orb] in H. discriminate.
Qed.

(** Whitespace without a line feed at the start stays so. *)
Lemma collapse_keeps_prefix : forall s,
  nl_in_ws_prefix s = false -> nl_in_ws_prefix (collapse s) = false.
Proof.
  induction s as [| c s IH]; intros H; rewrite collapse_eq.
  - reflexivity.
  - pose proof (match_blank_lines (c :: s)) as M.
    rewrite (blank_at_false_of_prefix _ _ H) in M.
    destruct (match_here no_flags blank_lines (c :: s)) as [[m r] |];
      [destruct M; discriminate |].
    cbn [nl_in_ws_prefix] in *. destruct (isspace c); [| reflexivity].
    cbn [andb] in *.
    apply orb_false_iff in H. destruct H as [H1 H2]. rewrite H1. cbn [orb].
    apply IH. exact H2.
Qed.

(** After the clean-up no run of blank lines is left. *)
Lemma collapse_no_blank : forall n s, length s <= n -> has_blank (collapse s) = false.
Proof.
  induction n as [| n IH]; intros s Hn; rewrite collapse_eq;
    pose proof (match_blank_lines s) as M.
  - destruct s; [| simpl in Hn; lia]. reflexivity.
  - destruct (match_here no_flags blank_lines s) as [[m r] |] eqn:E.
    + destruct M as [_ [M _]].
      pose proof (@match_shorter no_flags blank_lines blank_lines_begin _ _ _ E) as Hr.
      cbn [has_blank blank_at]. rewrite (collapse_keeps_prefix _ M).
      rewrite andb_false_r. cbn [orb]. apply IH. lia.
    + destruct s as [| c s]; [reflexivity |].
      cbn [length] in Hn. cbn [has_blank]. rewrite (IH s) by lia.
      rewrite orb_false_r.
      cbn [blank_at] in *. destruct (Ascii.eqb nl c) eqn:N; [| reflexivity].
      cbn [andb] in *. apply collapse_keeps_prefix. exact M.
Qed.

(** The clean-up touches whitespace only. *)
Lemma collapse_keeps_text : forall n s,
  length s <= n ->
  filter (fun c => negb (isspace c)) (collapse s)
  = filter (fun c => negb (isspace c)) s.
Proof.
  induction n as [| n IH]; intros s Hn; rewrite collapse_eq;
    pose proof (match_blank_lines s) as M.
  - destruct s; [| simpl in Hn; lia]. reflexivity.
  - destruct (match_here no_flags blank_lines s) as [[m r] |] eqn:E.
    + destruct M as [_ [_ M]].
      pose proof (@match_shorter no_flags blank_lines blank_lines_begin _ _ _ E) as Hr.
      apply match_here_splits in E. subst s.
      rewrite filter_app. cbn [filter]. change (isspace nl) with true.
      cbn [negb]. rewrite length_app in Hn, Hr. rewrite IH by lia.
      assert (F : filter (fun c => negb (isspace c)) m = []).
      { clear - M. induction m as [| c m IHm]; [reflexivity |].
        cbn [forallb filter] in *. apply andb_true_iff in M. destruct M as [M1 M2].
        rewrite M1. cbn [negb]. apply IHm. exact M2. }
      rewrite F. reflexivity.
    + destruct s as [| c s]; [reflexivity |]. cbn [filter length] in *.
      rewrite IH by lia. reflexivity.
Qed.


(** ** Facts about [str.strip] *)

Lemma lstrip_spec : forall s,
  exists w, s = w ++ lstrip s /\ forallb isspace w = true.
Proof.
  induction s as [| c s IH]; [exists []; split; reflexivity |].
  cbn [lstrip]. destruct (isspace c) eqn:E.
  - destruct IH as [w [H1 H2]]. exists (c :: w). split.
    + cbn [app]. f_equal. exact H1.
    + cbn [forallb]. rewrite E, H2. reflexivity.
  - exists []. split; reflexivity.
Qed.

Lemma lstrip_starts_clean : forall s, starts_clean (lstrip s).
Proof.
  induction s as [| c s IH]; [exact I |].
  cbn [lstrip]. destruct (isspace c) eqn:E; [exact IH | exact E].
Qed.

Lemma rstrip_spec : forall s,
  exists w, s = rstrip s ++ w /\ forallb isspace w = true.
Proof.
  intros s. unfold rstrip. destruct (lstrip_spec (rev s)) as [w [H1 H2]].
  exists (rev w). split.
  - rewrite <- rev_app_distr, <- H1, rev_involutive. reflexivity.
  - rewrite forallb_forall in *. intros c Hc. apply H2. apply in_rev. exact Hc.
Qed.

Lemma strip_starts_clean : forall s, starts_clean (strip s).
Proof.
  intros s. unfold strip. destruct (rstrip_spec (lstrip s)) as [w [H _]].
  pose proof (lstrip_starts_clean s) as C. rewrite H in C.
  destruct (rstrip (lstrip s)); [exact I | exact C].
Qed.

Lemma strip_ends_clean : forall s, starts_clean (rev (strip s)).
Proof.
  intros s. unfold strip, rstrip. rewrite rev_involutive.
  apply lstrip_starts_clean.
Qed.

Lemma filter_spaces : forall w,
  forallb isspace w = true -> filter nonspace w = [].
Proof.
  induction w as [| c w IH]; intros H; [reflexivity |].
  cbn [forallb filter] in *. apply andb_true_iff in H. destruct H as [H1 H2].
  unfold nonspace at 1. rewrite H1. cbn [negb]. apply IH. exact H2.
Qed.

Lemma strip_keeps_text : forall s, filter nonspace (strip s) = filter nonspace s.
Proof.
  intros s. unfold strip.
  destruct (lstrip_spec s) as [w1 [H1 F1]].
  destruct (rstrip_spec (lstrip s)) as [w2 [H2 F2]].
  rewrite H1 at 2. rewrite H2 at 2. rewrite !filter_app.
  rewrite (filter_spaces _ F1), (filter_spaces _ F2), app_nil_r. reflexivity.
Qed.

Lemma nl_in_ws_prefix_app : forall p q,
  nl_in_ws_prefix p = true -> nl_in_ws_prefix (p ++ q) = true.
Proof.
  induction p as [| c p IH]; intros q H; [discriminate |].
  cbn [app nl_in_ws_prefix] in *. apply andb_true_iff in H. destruct H as [H1 H2].
  rewrite H1. cbn [andb]. apply orb_true_iff in H2. apply orb_true_iff.
  destruct H2 as [H2 | H2]; [left; exact H2 | right; apply IH; exact H2].
Qed.

Lemma has_blank_app_r : forall a t, has_blank (a ++ t) = false -> has_blank t = false.
Proof.
  induction a as [| c a IH]; intros t H; [exact H |].
  cbn [app has_blank] in H. apply orb_false_iff in H. apply IH. apply H.
Qed.

Lemma has_blank_app_l : forall p q, has_blank (p ++ q) = false -> has_blank p = false.
Proof.
  induction p as [| c p IH]; intros q H; [reflexivity |].
  cbn [app has_blank] in *. apply orb_false_iff in H. destruct H as [H1 H2].
  rewrite (IH q H2), orb_false_r.
  cbn [blank_at] in *. destruct (Ascii.eqb nl c); [| reflexivity].
  cbn [andb] in *. destruct (nl_in_ws_prefix p) eqn:E; [| reflexivity].
  rewrite (nl_in_ws_prefix_app _ q E) in H1. discriminate.
Qed.

Lemma strip_no_blank : forall s, has_blank s = false -> has_blank (strip s) = false.
Proof.
  intros s H. unfold strip.
  destruct (lstrip_spec s) as [w1 [H1 _]].
  destruct (rstrip_spec (lstrip s)) as [w2 [H2 _]].
  rewrite H1 in H. apply has_blank_app_r in H.
  rewrite H2 in H. apply has_blank_app_l in H. exact H.
Qed.

Lemma ws_then_nl_prefix : forall w b,
  forallb isspace w = true -> nl_in_ws_prefix (w ++ nl :: b) = true.
Proof.
  induction w as [| c w IH]; intros b H; [reflexivity |].
  cbn [forallb app nl_in_ws_prefix] in *.
  apply andb_true_iff in H. destruct H as [H1 H2].
  rewrite H1, (IH b H2), orb_true_r. reflexivity.
Qed.

Lemma has_blank_false_no_run : forall t, has_blank t = false -> ~ blank_run t.
Proof.
  intros t H [a [w [b [E F]]]]. subst t.
  apply has_blank_app_r in H. cbn [has_blank blank_at] in H.
  rewrite (ws_then_nl_prefix _ b F) in H. discriminate.
Qed.

(** What [remove_ias_tags] returns is cleaned up, whatever was removed. *)
Lemma cleaned_is_clean : forall s,
  ~ blank_run (fst (remove_ias_tags s))
  /\ starts_clean (fst (remove_ias_tags s))
  /\ starts_clean (rev (fst (remove_ias_tags s))).
Proof.
  intros s. unfold remove_ias_tags.
  destruct (fold_left remove_pattern IAS_PATTERNS (s, [])) as [cleaned removed].
  cbn [fst]. split; [| split].
  - apply has_blank_false_no_run. apply strip_no_blank.
    apply (collapse_no_blank (length cleaned)). apply Nat.le_refl.
  - apply strip_starts_clean.
  - apply strip_ends_clean.
Qed.

Lemma two_lines_unmatched :
  forall p, In p IAS_PATTERNS -> ~ matches_in re_flags p two_lines.
Proof.
  assert (H : forallb (fun p => match findall re_flags p two_lines with
                                | [] => true
                                | _ => false
                                end) IAS_PATTERNS = true)
    by (vm_compute; reflexivity).
  intros p Hp. rewrite forallb_forall in H. specialize (H p Hp).
  apply (@findall_nil_iff re_flags p (IAS_PATTERNS_begin_with_one p Hp) two_lines).
  destruct (findall re_flags p two_lines); [reflexivity | discriminate].
Qed.

(** C10. The removed list is empty exactly when no IAS pattern matches the
    input.  Even then the markup is not returned as it came: for every
    input the cleaned string holds no run of blank lines (two line feeds
    separated by whitespace only) and neither begins nor ends with
    whitespace; when nothing matched it is the input with its blank-line
    runs replaced by one line feed each and its ends stripped, the
    characters that are not whitespace kept in their order.  The markup
    [two_lines] is changed although nothing is removed from it. *)
Theorem C10_removed_empty_iff_unmatched_and_cleanup :
  (forall s,
     let cleaned := fst (remove_ias_tags s) in
     let removed := snd (remove_ias_tags s) in
     let unmatched := forall p, In p IAS_PATTERNS -> ~ matches_in re_flags p s in
     (removed = [] <-> unmatched)
     /\ ~ blank_run cleaned
     /\ starts_clean cleaned
     /\ starts_clean (rev cleaned)
     /\ (unmatched ->
         cleaned = strip (sub no_flags blank_lines [nl] s)
         /\ filter nonspace cleaned = filter nonspace s))
  /\ (forall p, In p IAS_PATTERNS -> ~ matches_in re_flags p two_lines)
  /\ snd (remove_ias_tags two_lines) = []
  /\ fst (remove_ias_tags two_lines) = py "a" ++ [nl] ++ py "b"
  /\ fst (remove_ias_tags two_lines) <> two_lines.
Proof.
  split.
  - intros s cleaned removed unmatched. subst cleaned removed unmatched.
    destruct (cleaned_is_clean s) as [C1 [C2 C3]].
    split; [apply removed_nil_iff |].
    split; [exact C1 |]. split; [exact C2 |]. split; [exact C3 |].
    intros U. rewrite (cleaned_when_no_match s U). split; [reflexivity |].
    rewrite strip_keeps_text.
    apply (collapse_keeps_text (length s)). apply Nat.le_refl.
  - split; [exact two_lines_unmatched |].
    split; [apply removed_nil_iff; exact two_lines_unmatched |].
    assert (E : fst (remove_ias_tags two_lines) = py "a" ++ [nl] ++ py "b")
      by (vm_compute; reflexivity).
    split; [exact E |]. rewrite E. vm_compute. discriminate.
Qed.


(** ** Occurrences without regard to case *)

Lemma istarts_lower : forall L t,
  istarts L t = startswith (map lower L) (map lower t).
Proof.
  induction L as [| l L IH]; intros t; [reflexivity |].
  destruct t as [| x t]; [reflexivity |].
  cbn [istarts map]. rewrite startswith_cons, IH. reflexivity.
Qed.

Lemma icontains_lower : forall L t,
  icontains L t = contains (map lower L) (map lower t).
Proof.
  intros L t. induction t as [| x t IH].
  - cbn [icontains map contains]. rewrite istarts_lower. reflexivity.
  - cbn [icontains]. rewrite IH, istarts_lower. reflexivity.
Qed.

Lemma istarts_app : forall L p q, istarts L p = true -> istarts L (p ++ q) = true.
Proof.
  induction L as [| l L IH]; intros p q H; [reflexivity |].
  destruct p as [| x p]; [discriminate |]. cbn [istarts app] in *.
  apply andb_true_iff in H. destruct H as [H1 H2].
  rewrite H1, (IH _ q H2). reflexivity.
Qed.

Lemma icontains_cons : forall L x t,
  icontains L (x :: t) = istarts L (x :: t) || icontains L t.
Proof. reflexivity. Qed.

Lemma icontains_app_r : forall L a t, icontains L t = true -> icontains L (a ++ t) = true.
Proof.
  induction a as [| c a IH]; intros t H; [exact H |].
  cbn [app]. rewrite icontains_cons, (IH t H). apply orb_true_r.
Qed.

Lemma icontains_app_l : forall L p q, icontains L p = true -> icontains L (p ++ q) = true.
Proof.
  induction p as [| x p IH]; intros q H.
  - cbn [icontains] in H. rewrite orb_false_r in H.
    destruct L; [| discriminate]. destruct q; reflexivity.
  - cbn [app]. rewrite icontains_cons in *. apply orb_true_iff in H.
    apply orb_true_iff. destruct H as [H | H].
    + left. exact (istarts_app _ _ q H).
    + right. apply IH. exact H.
Qed.

Lemma icontains_intro : forall L a t, istarts L t = true -> icontains L (a ++ t) = true.
Proof.
  intros L a t H. apply icontains_app_r.
  destruct t; cbn [icontains]; rewrite H; reflexivity.
Qed.

Lemma icontains_strip : forall L s, icontains L s = false -> icontains L (strip s) = false.
Proof.
  intros L s H. destruct (icontains L (strip s)) eqn:E; [| reflexivity].
  unfold strip in E.
  destruct (lstrip_spec s) as [w1 [H1 _]].
  destruct (rstrip_spec (lstrip s)) as [w2 [H2 _]].
  apply (icontains_app_l _ _ w2) in E. rewrite <- H2 in E.
  apply (icontains_app_r _ w1) in E. rewrite <- H1 in E. congruence.
Qed.

(** ** Substitution creates no occurrence *)

Section SubAbsence.

Variable fl : flags.
Variable p : regex.
Hypothesis p_one : begins_with_one p = true.

Lemma match_here_nil : match_here fl p [] = None.
Proof. destruct p as [| [cs | cs | cs] q]; try discriminate. reflexivity. Qed.

Lemma replaced_head : forall R,
  repl_ok R -> rest_ok fl p R ->
  forall s m r, match_here fl p s = Some (m, r) ->
    match R ++ sub fl p R r with
    | [] => True
    | x :: _ => tail_char x = false
    end.
Proof.
  intros [| x R] HR Hrest s m r E.
  - specialize (Hrest eq_refl s m r E). cbn [app].
    rewrite (@sub_eq fl p p_one [] r).
    destruct r as [| y r']; [rewrite match_here_nil; exact I |].
    destruct Hrest as [H1 H2]. rewrite H2. exact H1.
  - cbn [app]. unfold repl_ok in HR. cbn [forallb] in HR.
    apply andb_true_iff in HR. destruct HR as [HR _].
    apply negb_true_iff in HR. exact HR.
Qed.

Lemma istarts_sub_back : forall R L,
  repl_ok R -> rest_ok fl p R -> lit_tail L ->
  forall s, istarts L (sub fl p R s) = true -> istarts L s = true.
Proof.
  intros R L HR Hrest. induction L as [| l L IH]; intros HL s H; [reflexivity |].
  assert (HL' : lit_tail L).
  { intros c x Hc. apply HL. right. exact Hc. }
  rewrite (@sub_eq fl p p_one R s) in H.
  destruct (match_here fl p s) as [[m r] |] eqn:E.
  - pose proof (@replaced_head R HR Hrest _ _ _ E) as Hh.
    destruct (R ++ sub fl p R r) as [| x t]; [discriminate |].
    cbn [istarts] in H. apply andb_true_iff in H. destruct H as [H _].
    rewrite (HL l x (or_introl eq_refl) H) in Hh. discriminate.
  - destruct s as [| c s]; [discriminate |]. cbn [istarts] in *.
    apply andb_true_iff in H. destruct H as [H1 H2].
    rewrite H1. cbn [andb]. apply IH; assumption.
Qed.

Lemma icontains_skip_repl : forall R L X,
  repl_ok R -> lit_tail L -> L <> [] ->
  icontains L (R ++ X) = icontains L X.
Proof.
  intros R L X HR HL Hne. induction R as [| x R IH]; [reflexivity |].
  unfold repl_ok in HR. cbn [forallb] in HR.
  apply andb_true_iff in HR. destruct HR as [Hx HR]. apply negb_true_iff in Hx.
  cbn [app]. rewrite icontains_cons, (IH HR).
  destruct L as [| l L]; [congruence |]. cbn [istarts].
  destruct (Ascii.eqb (lower l) (lower x)) eqn:E; [| reflexivity].
  rewrite (HL l x (or_introl eq_refl) E) in Hx. discriminate.
Qed.

(** An occurrence of [L] in the output is an occurrence in the input, at a
    place where the pattern does not match. *)
Lemma icontains_sub : forall R L,
  repl_ok R -> rest_ok fl p R -> lit_tail L -> L <> [] ->
  forall n s, length s <= n ->
    icontains L (sub fl p R s) = true ->
    exists a t, s = a ++ t /\ istarts L t = true /\ match_here fl p t = None.
Proof.
  intros R L HR Hrest HL Hne.
  induction n as [| n IH]; intros s Hn H; rewrite (@sub_eq fl p p_one R s) in H.
  - destruct s; [| cbn [length] in Hn; lia]. rewrite match_here_nil in H.
    destruct L; [congruence | discriminate].
  - destruct (match_here fl p s) as [[m r] |] eqn:E.
    + pose proof (@match_shorter fl p p_one _ _ _ E) as Hr.
      rewrite (@icontains_skip_repl R L _ HR HL Hne) in H.
      destruct (IH r ltac:(lia) H) as [a [t [H1 [H2 H3]]]].
      exists (m ++ a), t. split; [| split; assumption].
      rewrite <- app_assoc, <- H1. apply match_here_splits in E. exact E.
    + destruct s as [| c s]; [destruct L; [congruence | discriminate] |].
      rewrite icontains_cons in H. apply orb_true_iff in H. destruct H as [H | H].
      * exists [], (c :: s). split; [reflexivity |]. split; [| exact E].
        destruct L as [| l L]; [reflexivity |]. cbn [istarts] in *.
        apply andb_true_iff in H. destruct H as [H1 H2]. rewrite H1. cbn [andb].
        apply (@istarts_sub_back R L HR Hrest); [| exact H2].
        intros c' x Hc. apply HL. right. exact Hc.
      * cbn [length] in Hn. destruct (IH s ltac:(lia) H) as [a [t [H1 [H2 H3]]]].
        exists (c :: a), t. split; [cbn [app]; f_equal; exact H1 | split; assumption].
Qed.

End SubAbsence.


(** ** The two host patterns *)

Lemma match_litl_some : forall L q s m r,
  match_here re_flags (litl L ++ q) s = Some (m, r) ->
  istarts L s = true
  /\ exists s2 m2, match_here re_flags q s2 = Some (m2, r).
Proof.
  induction L as [| l L IH]; intros q s m r H.
  - split; [reflexivity |]. exists s, m. exact H.
  - destruct s as [| x s]; [discriminate |].
    cbn [litl map app match_here] in H.
    change (cset_match re_flags (Atom (ALit l)) x)
      with (Ascii.eqb (lower l) (lower x)) in H.
    cbn [istarts]. destruct (Ascii.eqb (lower l) (lower x)); [| discriminate].
    destruct (match_here re_flags (map (fun c => One (Atom (ALit c))) L ++ q) s)
      as [[m' r'] |] eqn:E; [| discriminate].
    cbn [consumed] in H. injection H as _ <-.
    destruct (IH q s m' r' E) as [I1 I2]. rewrite I1. split; [reflexivity | exact I2].
Qed.

Lemma match_litl_total : forall L q s,
  (forall s2, match_here re_flags q s2 <> None) ->
  istarts L s = true -> match_here re_flags (litl L ++ q) s <> None.
Proof.
  induction L as [| l L IH]; intros q s Hq H; [apply Hq |].
  destruct s as [| x s]; [discriminate |].
  cbn [istarts] in H. apply andb_true_iff in H. destruct H as [H1 H2].
  cbn [litl map app match_here].
  change (cset_match re_flags (Atom (ALit l)) x) with (Ascii.eqb (lower l) (lower x)).
  rewrite H1. specialize (IH q s Hq H2). unfold litl in IH.
  destruct (match_here re_flags (map (fun c => One (Atom (ALit c))) L ++ q) s)
    as [[m' r'] |]; [discriminate | congruence].
Qed.

Lemma star_tail_spec : forall s,
  exists m r,
    match_here re_flags [Star host_tail] s = Some (m, r)
    /\ match r with
       | [] => True
       | x :: _ => tail_char x = false
       end.
Proof.
  induction s as [| c s IH].
  - exists [], []. split; [reflexivity | exact I].
  - cbn [match_here star_greedy] in *.
    change (cset_match re_flags host_tail c) with (tail_char c).
    destruct (tail_char c) eqn:T.
    + destruct IH as [m [r [E R]]]. rewrite E. exists (c :: m), r.
      split; [reflexivity | exact R].
    + exists [], (c :: s). split; [reflexivity | exact T].
Qed.

Lemma host_pattern_one : forall L, L <> [] -> begins_with_one (host_pattern L) = true.
Proof. intros [| l L] H; [congruence | reflexivity]. Qed.

Lemma host_pattern_matches : forall L s,
  istarts L s = true -> match_here re_flags (host_pattern L) s <> None.
Proof.
  intros L s H. apply match_litl_total; [| exact H].
  intros s2. destruct (star_tail_spec s2) as [m [r [E _]]]. congruence.
Qed.

Lemma host_pattern_rest : forall L,
  lit_tail L -> L <> [] -> rest_ok re_flags (host_pattern L) [].
Proof.
  intros L HL Hne _ s m r E.
  destruct (match_litl_some L [Star host_tail] s m r E) as [_ [s2 [m2 E2]]].
  destruct (star_tail_spec s2) as [m' [r' [E' R]]].
  rewrite E' in E2. injection E2 as _ <-.
  destruct r' as [| x r']; [exact I |]. split; [exact R |].
  destruct (match_here re_flags (host_pattern L) (x :: r')) as [[m3 r3] |] eqn:E3;
    [| reflexivity].
  destruct (match_litl_some L [Star host_tail] _ _ _ E3) as [I3 _].
  destruct L as [| l L]; [congruence |]. cbn [istarts] in I3.
  apply andb_true_iff in I3. destruct I3 as [I3 _].
  rewrite (HL l x (or_introl eq_refl) I3) in R. discriminate.
Qed.

Lemma repl_ok_nil : repl_ok [].
Proof. reflexivity. Qed.

Lemma repl_ok_nl : repl_ok [nl].
Proof. reflexivity. Qed.

Lemma lit_tail_check : forall L,
  (forall x, forallb (fun c => implb (Ascii.eqb (lower c) (lower x)) (tail_char x)) L
             = true) ->
  lit_tail L.
Proof.
  intros L H c x Hc E. specialize (H x). rewrite forallb_forall in H.
  specialize (H c Hc). rewrite E in H. exact H.
Qed.

Lemma pixel_host_tail : lit_tail pixel_host.
Proof.
  apply lit_tail_check.
  intros [[] [] [] [] [] [] [] []]; vm_compute; reflexivity.
Qed.

Lemma fw_host_tail : lit_tail fw_host.
Proof.
  apply lit_tail_check.
  intros [[] [] [] [] [] [] [] []]; vm_compute; reflexivity.
Qed.

Lemma icontains_split : forall L t,
  icontains L t = true -> exists a u, t = a ++ u /\ istarts L u = true.
Proof.
  intros L t. induction t as [| x t IH]; intros H.
  - cbn [icontains] in H. rewrite orb_false_r in H. exists [], []. auto.
  - rewrite icontains_cons in H. apply orb_true_iff in H. destruct H as [H | H].
    + exists [], (x :: t). auto.
    + destruct (IH H) as [a [u [E I]]]. exists (x :: a), u.
      split; [cbn [app]; f_equal; exact E | exact I].
Qed.

(** One turn of the loop with a host pattern leaves no reference to its host. *)
Lemma host_step_clears : forall L u acc,
  lit_tail L -> L <> [] ->
  icontains L (fst (remove_pattern (u, acc) (host_pattern L))) = false.
Proof.
  intros L u acc HL Hne. cbn [remove_pattern].
  pose proof (@host_pattern_one L Hne) as P1.
  destruct (icontains L (fst _)) eqn:C; [exfalso | reflexivity].
  destruct (findall re_flags (host_pattern L) u) as [| m ms] eqn:F.
  - cbn [fst] in C. apply (@findall_nil_iff re_flags _ P1 u) in F. apply F.
    destruct (icontains_split _ _ C) as [a [t [E I]]].
    exists a, t. split; [exact E | apply host_pattern_matches; exact I].
  - cbn [fst] in C.
    destruct (@icontains_sub re_flags _ P1 [] L repl_ok_nil
                (@host_pattern_rest L HL Hne) HL Hne (length u) u (Nat.le_refl _) C)
      as [a [t [_ [I N]]]].
    exact (host_pattern_matches _ _ I N).
Qed.

(** It creates no reference to another host either. *)
Lemma host_step_keeps : forall L L' u acc,
  lit_tail L -> L <> [] -> lit_tail L' -> L' <> [] ->
  icontains L' u = false ->
  icontains L' (fst (remove_pattern (u, acc) (host_pattern L))) = false.
Proof.
  intros L L' u acc HL Hne HL' Hne' H. cbn [remove_pattern].
  pose proof (@host_pattern_one L Hne) as P1.
  destruct (findall re_flags (host_pattern L) u) as [| m ms]; [exact H |].
  cbn [fst]. destruct (icontains L' (sub re_flags (host_pattern L) [] u)) eqn:C;
    [exfalso | reflexivity].
  destruct (@icontains_sub re_flags _ P1 [] L' repl_ok_nil
              (@host_pattern_rest L HL Hne) HL' Hne' (length u) u (Nat.le_refl _) C)
    as [a [t [E [I _]]]].
  subst u. rewrite (icontains_intro _ a _ I) in H. discriminate.
Qed.

Lemma blank_lines_rest : rest_ok no_flags blank_lines [nl].
Proof. intros H. discriminate. Qed.

Lemma collapse_keeps_absent : forall L u,
  lit_tail L -> L <> [] ->
  icontains L u = false ->
  icontains L (sub no_flags blank_lines [nl] u) = false.
Proof.
  intros L u HL Hne H.
  destruct (icontains L (sub no_flags blank_lines [nl] u)) eqn:C; [| reflexivity].
  destruct (@icontains_sub no_flags _ blank_lines_begin [nl] L repl_ok_nl
              blank_lines_rest HL Hne (length u) u (Nat.le_refl _) C)
    as [a [t [E [I _]]]].
  subst u. rewrite (icontains_intro _ a _ I) in H. discriminate.
Qed.

Lemma IAS_PATTERNS_hosts : exists p1 p2 p3,
  IAS_PATTERNS = [p1; p2; p3; host_pattern pixel_host; host_pattern fw_host].
Proof. eexists. eexists. eexists. reflexivity. Qed.

(** The cleaned string holds no reference to either host. *)
Lemma cleaned_has_no_host : forall s,
  icontains pixel_host (fst (remove_ias_tags s)) = false
  /\ icontains fw_host (fst (remove_ias_tags s)) = false.
Proof.
  intros s. unfold remove_ias_tags.
  destruct IAS_PATTERNS_hosts as [p1 [p2 [p3 E]]]. rewrite E.
  cbn [fold_left].
  destruct (remove_pattern (remove_pattern (remove_pattern (s, []) p1) p2) p3)
    as [u acc].
  assert (Np : pixel_host <> []) by discriminate.
  assert (Nf : fw_host <> []) by discriminate.
  pose proof (@host_step_clears pixel_host u acc pixel_host_tail Np) as H4.
  destruct (remove_pattern (u, acc) (host_pattern pixel_host)) as [u4 acc4].
  cbn [fst] in H4.
  pose proof (@host_step_clears fw_host u4 acc4 fw_host_tail Nf) as H5.
  pose proof (@host_step_keeps fw_host pixel_host u4 acc4 fw_host_tail Nf pixel_host_tail Np H4) as H45.
  destruct (remove_pattern (u4, acc4) (host_pattern fw_host)) as [u5 acc5].
  cbn [fst] in *. split; apply icontains_strip.
  - apply (@collapse_keeps_absent pixel_host u5 pixel_host_tail Np H45).
  - apply (@collapse_keeps_absent fw_host u5 fw_host_tail Nf H5).
Qed.

(** One turn of the loop records every match of its pattern. *)
Lemma remove_pattern_records : forall s acc p,
  remove_pattern (s, acc) p
  = (fst (remove_pattern (s, []) p), acc ++ findall re_flags p s).
Proof.
  intros s acc p. unfold remove_pattern.
  destruct (findall re_flags p s) as [| m ms];
    [rewrite app_nil_r; reflexivity | reflexivity].
Qed.

Lemma remove_loop_records : forall ps s acc,
  snd (fold_left remove_pattern ps (s, acc))
  = acc ++ flat_map stage_matches (stages ps s).
Proof.
  induction ps as [| p ps IH]; intros s acc; cbn [fold_left stages flat_map].
  - rewrite app_nil_r. reflexivity.
  - rewrite remove_pattern_records, IH. unfold stage_matches at 2.
    cbn [fst snd]. rewrite app_assoc. reflexivity.
Qed.

Lemma stages_app : forall before ps s,
  (forall q, In q before -> findall re_flags q s = []) ->
  flat_map stage_matches (stages (before ++ ps) s)
  = flat_map stage_matches (stages ps s).
Proof.
  induction before as [| p before IH]; intros ps s H; [reflexivity |].
  cbn [app stages flat_map]. unfold stage_matches at 1. cbn [fst snd].
  rewrite (H p (or_introl eq_refl)). cbn [app].
  unfold remove_pattern. rewrite (H p (or_introl eq_refl)). cbn [fst].
  apply IH. intros q Hq. apply H. right. exact Hq.
Qed.

Lemma flat_map_no_match : forall ps s,
  (forall q, In q ps -> findall re_flags q s = []) ->
  flat_map (fun p => findall re_flags p s) ps = [].
Proof.
  induction ps as [| p ps IH]; intros s H; cbn [flat_map]; [reflexivity |].
  rewrite (H p (or_introl eq_refl)). apply IH.
  intros q Hq. apply H. right. exact Hq.
Qed.

(** C5, as the code has it. For every markup the cleaned string holds no
    reference, in any letter case, to the hosts pixel.adsafeprotected.com
    and fw.adsafeprotected.com.  The removed list holds, pattern by pattern
    and in the order of [IAS_PATTERNS], every match of the pattern in the
    text it is applied to: the markup for the first pattern, then what the
    earlier turns left.  So the list begins with every match in the markup
    of the first pattern that matches there at all, and when only one
    pattern matches in the markup the list has at least as many entries as
    there are pattern matches.  Other mentions of the domain may stay, and
    a match that lies inside an earlier pattern's match goes with it and
    is not recorded on its own. *)
Theorem C5_host_references_removed :
  forall s,
    contains pixel_host (map lower (fst (remove_ias_tags s))) = false
    /\ contains fw_host (map lower (fst (remove_ias_tags s))) = false
    /\ snd (remove_ias_tags s)
       = flat_map stage_matches (stages IAS_PATTERNS s)
    /\ (forall before p after,
          IAS_PATTERNS = before ++ p :: after ->
          (forall q, In q before -> findall re_flags q s = []) ->
          (exists later,
             snd (remove_ias_tags s) = findall re_flags p s ++ later)
          /\ ((forall q, In q after -> findall re_flags q s = []) ->
              pattern_matches s <= length (snd (remove_ias_tags s)))).
Proof.
  intros s. destruct (cleaned_has_no_host s) as [H1 H2].
  rewrite icontains_lower in H1, H2. split; [exact H1 |]. split; [exact H2 |].
  assert (R : snd (remove_ias_tags s)
              = flat_map stage_matches (stages IAS_PATTERNS s)).
  { unfold remove_ias_tags.
    pose proof (remove_loop_records IAS_PATTERNS s []) as L.
    destruct (fold_left remove_pattern IAS_PATTERNS (s, [])) as [cleaned removed].
    cbn [snd app] in *. exact L. }
  split; [exact R |].
  intros before p after E B.
  assert (P : snd (remove_ias_tags s)
              = findall re_flags p s
                ++ flat_map stage_matches
                     (stages after (fst (remove_pattern (s, []) p)))).
  { rewrite R, E. rewrite (stages_app before (p :: after) s B).
    reflexivity. }
  split; [eexists; exact P |].
  intros A. unfold pattern_matches. rewrite E at 1.
  rewrite flat_map_app. cbn [flat_map].
  rewrite (flat_map_no_match before s B), (flat_map_no_match after s A).
  rewrite app_nil_r. cbn [app]. rewrite P, length_app. apply Nat.le_add_r.
Qed.

(** Two tags of the first pattern and no other match: both are recorded. *)
Lemma C5_one_pattern_witness :
  pattern_matches two_tags = 2
  /\ length (snd (remove_ias_tags two_tags)) = 2
  /\ exists before p after,
       IAS_PATTERNS = before ++ p :: after
       /\ (forall q, In q before -> findall re_flags q two_tags = [])
       /\ (forall q, In q after -> findall re_flags q two_tags = [])
       /\ length (findall re_flags p two_tags) = 2
       /\ pattern_matches two_tags <= length (snd (remove_ias_tags two_tags)).
Proof.
  split; [vm_compute; reflexivity |]. split; [vm_compute; reflexivity |].
  exists [], (nth 0 IAS_PATTERNS []), (tl IAS_PATTERNS).
  assert (E : IAS_PATTERNS = [] ++ nth 0 IAS_PATTERNS [] :: tl IAS_PATTERNS)
    by reflexivity.
  assert (B : forall q, In q [] -> findall re_flags q two_tags = [])
    by (intros q []).
  assert (A : forall q, In q (tl IAS_PATTERNS) -> findall re_flags q two_tags = []).
  { assert (F : forallb (fun q => match findall re_flags q two_tags with
                                  | [] => true
                                  | _ => false
                                  end) (tl IAS_PATTERNS) = true)
      by (vm_compute; reflexivity).
    intros q Hq. rewrite forallb_forall in F. specialize (F q Hq).
    destruct (findall re_flags q two_tags); [reflexivity | discriminate]. }
  split; [exact E |]. split; [exact B |]. split; [exact A |].
  split; [vm_compute; reflexivity |].
  exact (proj2 (proj2 (proj2 (proj2 (C5_host_references_removed two_tags)))
                  [] (nth 0 IAS_PATTERNS []) (tl IAS_PATTERNS) E B) A).
Defined.

(** The domain can survive, and the list can be shorter than the number of
    matches: here the link still names the domain after the removal, and
    the two pattern matches of the markup (the pixel tag, and the host
    reference inside it) leave one entry in the removed list. *)
Lemma C5_counterexample :
  contains (py "adsafeprotected") (fst (remove_ias_tags pixel_and_link)) = true
  /\ pattern_matches pixel_and_link = 2
  /\ length (snd (remove_ias_tags pixel_and_link)) = 1.
Proof. vm_compute. repeat split; reflexivity. Qed.

(* ================================================================== *)
(** * Further properties *)
(* ================================================================== *)

Import Retry Texts Stored Retrying Clients MoreExamples Validators.

(** ** Macro injection and the cache buster *)

(** X1. After [inject_amazon_macros] none of the nine generic placeholders
    of [AMAZON_MACROS] occurs in the result, and the markup comes back
    unchanged exactly when none of them occurred in it. *)
Theorem X1_inject_clears_every_placeholder :
  forall s,
    (forall k, In k (map fst AMAZON_MACROS) ->
       contains k (inject_amazon_macros s) = false)
    /\ (inject_amazon_macros s = s
        <-> forall k, In k (map fst AMAZON_MACROS) -> contains k s = false).
Proof.
  intros s. split.
  - intros k Hk. apply inject_leaves_no_placeholder. exact Hk.
  - split.
    + intros E k Hk. rewrite <- E. apply inject_leaves_no_placeholder. exact Hk.
    + intros H. apply (fold_absent AMAZON_MACROS).
      * exact AMAZON_MACROS_nonempty.
      * exact H.
Qed.

Section FreshToken.

Variable K new : str.
Hypothesis K_nonempty : K <> [].
Hypothesis new_nonempty : new <> [].

Lemma startswith_replace_fresh : forall b,
  disjoint_chars new b = true ->
  forall s, startswith b (replace K new s) = true -> startswith b s = true.
Proof.
  induction b as [| x b IH]; intros D s H.
  - reflexivity.
  - rewrite (replace_eq K new K_nonempty) in H.
    destruct (strip_prefix K s) as [r |] eqn:E.
    + destruct new as [| n new'] eqn:N; [congruence |].
      exfalso. cbn [app] in H. rewrite startswith_cons in H.
      apply andb_true_iff in H. destruct H as [H _].
      apply Ascii.eqb_eq in H. subst n.
      unfold disjoint_chars in D. cbn [forallb] in D.
      apply andb_true_iff in D. destruct D as [D _].
      unfold absent in D. cbn [existsb] in D. rewrite Ascii.eqb_refl in D.
      discriminate.
    + destruct s as [| c s']; [discriminate |].
      rewrite startswith_cons in H. rewrite startswith_cons.
      apply andb_true_iff in H. destruct H as [H1 H2].
      rewrite H1. cbn [andb]. apply IH; [| exact H2].
      unfold disjoint_chars in *. rewrite forallb_forall in *.
      intros c0 Hc0. specialize (D c0 Hc0). unfold absent in *.
      cbn [existsb] in D. apply negb_true_iff in D.
      apply orb_false_iff in D. destruct D as [_ D]. rewrite D. reflexivity.
Qed.

Variable K' : str.
Hypothesis K'_nonempty : K' <> [].
Hypothesis new_avoids : disjoint_chars new K' = true.

Lemma contains_skip_fresh : forall u X,
  disjoint_chars u K' = true -> contains K' (u ++ X) = contains K' X.
Proof.
  induction u as [| c u IH]; intros X D; [reflexivity |].
  cbn [app]. rewrite contains_cons.
  unfold disjoint_chars in D. cbn [forallb] in D.
  apply andb_true_iff in D. destruct D as [Dc Du].
  rewrite (IH X Du).
  destruct K' as [| k0 k'] eqn:EK; [congruence |].
  rewrite startswith_cons.
  unfold absent in Dc. cbn [existsb] in Dc. apply negb_true_iff in Dc.
  apply orb_false_iff in Dc. destruct Dc as [Dc _].
  rewrite Ascii.eqb_sym, Dc. reflexivity.
Qed.

Lemma replace_fresh_none : forall n s,
  length s <= n ->
  K' = K \/ contains K' s = false ->
  contains K' (replace K new s) = false.
Proof.
  induction n as [| n IH]; intros s Hn H.
  - destruct s; [| simpl in Hn; lia].
    rewrite (replace_eq K new K_nonempty).
    destruct (strip_prefix K []) as [r |] eqn:E.
    + apply strip_prefix_some in E. symmetry in E.
      apply app_eq_nil in E. destruct E as [E _]. congruence.
    + destruct K' as [| k0 k']; [congruence | reflexivity].
  - rewrite (replace_eq K new K_nonempty).
    destruct (strip_prefix K s) as [r |] eqn:E.
    + rewrite (contains_skip_fresh _ _ new_avoids).
      pose proof (@strip_prefix_shorter K K_nonempty _ _ E) as L.
      apply IH; [lia |].
      destruct H as [H | H]; [left; exact H | right].
      apply strip_prefix_some in E. subst s.
      apply (contains_false_app_r _ _ _ H).
    + destruct s as [| c s'].
      * destruct K' as [| k0 k']; [congruence | reflexivity].
      * rewrite contains_cons.
        assert (S0 : startswith K' (c :: s') = false).
        { destruct H as [H | H].
          - subst K'. unfold startswith. rewrite E. reflexivity.
          - apply contains_false_startswith. exact H. }
        assert (S1 : startswith K' (c :: replace K new s') = false).
        { destruct (startswith K' (c :: replace K new s')) eqn:S1; [| reflexivity].
          destruct K' as [| k0 k'] eqn:EK; [congruence |].
          rewrite startswith_cons in S1, S0.
          apply andb_true_iff in S1. destruct S1 as [A B].
          rewrite A in S0. cbn [andb] in S0.
          rewrite (startswith_replace_fresh k') in S0; [discriminate | | exact B].
          unfold disjoint_chars in *. rewrite forallb_forall in *.
          intros c0 Hc0. specialize (new_avoids c0 Hc0). unfold absent in *.
          cbn [existsb] in new_avoids. apply negb_true_iff in new_avoids.
          apply orb_false_iff in new_avoids. destruct new_avoids as [_ D].
          rewrite D. reflexivity. }
        rewrite S1. cbn [orb]. apply IH; [simpl in Hn; lia |].
        destruct H as [H | H]; [left; exact H | right].
        rewrite contains_cons in H. apply orb_false_iff in H. exact (proj2 H).
Qed.

End FreshToken.

Lemma uint_chars : forall d c,
  In c (py (NilEmpty.string_of_uint d)) -> isdigit c = true.
Proof.
  induction d; intros c H; cbn in H;
    try (destruct H as [<- | H]; [reflexivity | apply IHd; exact H]).
  destruct H.
Qed.

Lemma uint_nonempty : forall d, py (NilZero.string_of_uint d) <> [].
Proof. destruct d; discriminate. Qed.

Lemma str_of_Z_chars : forall n c,
  In c (str_of_Z n) -> isdigit c = true \/ c = "-"%char.
Proof.
  intros n c. unfold str_of_Z, NilZero.string_of_int.
  destruct (Z.to_int n) as [d | d].
  - unfold NilZero.string_of_uint. destruct d; intros H;
      try (left; apply (uint_chars _ _ H)).
    cbn in H. destruct H as [<- | []]. left. reflexivity.
  - cbn [py list_ascii_of_string]. intros [<- | H]; [right; reflexivity |].
    unfold NilZero.string_of_uint in H. destruct d;
      try (left; apply (uint_chars _ _ H)).
    cbn in H. destruct H as [<- | []]. left. reflexivity.
Qed.

Lemma str_of_Z_nonempty : forall n, str_of_Z n <> [].
Proof.
  intros n. unfold str_of_Z, NilZero.string_of_int.
  destruct (Z.to_int n) as [d | d]; [apply uint_nonempty | discriminate].
Qed.

Lemma generated_token_disjoint : forall n,
  disjoint_chars (str_of_Z n) (py "${AMAZON_CACHEBUSTER}") = true.
Proof.
  intros n. unfold disjoint_chars. apply forallb_forall. intros c Hc.
  assert (T : forallb (fun k => negb (isdigit k || Ascii.eqb k "-"%char))
                      (py "${AMAZON_CACHEBUSTER}") = true)
    by (vm_compute; reflexivity).
  unfold absent. apply negb_true_iff.
  destruct (existsb (Ascii.eqb c) (py "${AMAZON_CACHEBUSTER}")) eqn:X; [| reflexivity].
  apply existsb_exists in X. destruct X as [k [Hk E]].
  apply Ascii.eqb_eq in E. subst k.
  rewrite forallb_forall in T. specialize (T c Hk).
  apply str_of_Z_chars in Hc. destruct Hc as [Hc | Hc].
  - rewrite Hc in T. discriminate.
  - subst c. discriminate.
Qed.

Lemma disjoint_chars_sub : forall a b b',
  (forall c, In c b' -> In c b) ->
  disjoint_chars a b = true -> disjoint_chars a b' = true.
Proof.
  intros a b b' S D. unfold disjoint_chars in *. rewrite forallb_forall in *.
  intros c Hc. specialize (D c Hc). unfold absent in *.
  apply negb_true_iff in D. apply negb_true_iff.
  destruct (existsb (Ascii.eqb c) b') eqn:X; [| reflexivity].
  apply existsb_exists in X. destruct X as [k [Hk E]].
  assert (Y : existsb (Ascii.eqb c) b = true).
  { apply existsb_exists. exists k. split; [apply S; exact Hk | exact E]. }
  congruence.
Qed.

Lemma inject_cache_buster_token : forall snippet_code cb,
  cb <> [] -> disjoint_chars cb (py "${AMAZON_CACHEBUSTER}") = true ->
  let out := replace (py "${AMAZON_CACHEBUSTER}") cb
               (replace (py "${CACHEBUSTER}") cb snippet_code) in
  contains (py "${CACHEBUSTER}") out = false
  /\ contains (py "${AMAZON_CACHEBUSTER}") out = false.
Proof.
  intros s cb Hne D out. subst out.
  assert (D1 : disjoint_chars cb (py "${CACHEBUSTER}") = true).
  { apply (disjoint_chars_sub cb (py "${AMAZON_CACHEBUSTER}")); [| exact D].
    intros c Hc.
    assert (T : forallb (fun k => existsb (Ascii.eqb k) (py "${AMAZON_CACHEBUSTER}"))
                        (py "${CACHEBUSTER}") = true) by (vm_compute; reflexivity).
    rewrite forallb_forall in T. specialize (T c Hc).
    apply existsb_exists in T. destruct T as [k [Hk E]].
    apply Ascii.eqb_eq in E. subst k. exact Hk. }
  assert (N1 : py "${CACHEBUSTER}" <> []) by discriminate.
  assert (N2 : py "${AMAZON_CACHEBUSTER}" <> []) by discriminate.
  assert (A : contains (py "${CACHEBUSTER}")
                (replace (py "${CACHEBUSTER}") cb s) = false).
  { apply (@replace_fresh_none _ _ N1 Hne _ N1 D1 (length s)); [lia |].
    left. reflexivity. }
  split.
  - apply (@replace_fresh_none _ _ N2 Hne _ N1 D1
             (length (replace (py "${CACHEBUSTER}") cb s))); [lia |].
    right. exact A.
  - apply (@replace_fresh_none _ _ N2 Hne _ N2 D
             (length (replace (py "${CACHEBUSTER}") cb s))); [lia |].
    left. reflexivity.
Qed.

(** X2. After [inject_cache_buster] neither cache-buster placeholder,
    generic or Amazon, occurs in the result: for the token the method
    generates from the clock, and for every given token that is not empty
    and shares no character with the placeholders. *)
Theorem X2_cache_buster_leaves_no_placeholder :
  forall time_ms snippet_code cache_buster,
    usable_token cache_buster ->
    contains (py "${CACHEBUSTER}")
      (inject_cache_buster time_ms snippet_code cache_buster) = false
    /\ contains (py "${AMAZON_CACHEBUSTER}")
         (inject_cache_buster time_ms snippet_code cache_buster) = false.
Proof.
  intros time_ms s [cb |] U; unfold inject_cache_buster.
  - destruct U as [Hne D]. exact (inject_cache_buster_token s cb Hne D).
  - apply (inject_cache_buster_token s).
    + apply str_of_Z_nonempty.
    + apply generated_token_disjoint.
Qed.

Lemma X2_cache_buster_witness :
  usable_token (Some (py "1700000000000"))
  /\ contains (py "${CACHEBUSTER}")
       (inject_cache_buster 0 many_cache_busters (Some (py "1700000000000")))
     = false
  /\ contains (py "${AMAZON_CACHEBUSTER}")
       (inject_cache_buster 0 many_cache_busters (Some (py "1700000000000")))
     = false.
Proof.
  assert (U : usable_token (Some (py "1700000000000")))
    by (split; [discriminate | vm_compute; reflexivity]).
  split; [exact U |].
  exact (X2_cache_buster_leaves_no_placeholder 0 many_cache_busters
           (Some (py "1700000000000")) U).
Defined.

(** ** What the removal of IAS tags takes away *)

Section SubLength.

Variable fl : flags.
Variable p : regex.
Hypothesis p_one : begins_with_one p = true.

Lemma sub_nil_length : forall n s,
  length s <= n ->
  length (sub fl p [] s) <= length s
  /\ (findall fl p s <> [] -> length (sub fl p [] s) < length s).
Proof.
  induction n as [| n IH]; intros s Hn.
  - destruct s; [| simpl in Hn; lia].
    rewrite (@sub_eq fl p p_one), (@findall_eq fl p p_one).
    destruct (match_here fl p []) as [[m r] |] eqn:E.
    + apply (@match_shorter fl p p_one) in E. simpl in E. lia.
    + split; [simpl; lia | congruence].
  - rewrite (@sub_eq fl p p_one), (@findall_eq fl p p_one).
    destruct (match_here fl p s) as [[m r] |] eqn:E.
    + pose proof (@match_shorter fl p p_one _ _ _ E) as L.
      destruct (IH r ltac:(lia)) as [A _]. cbn [app]. split; [lia | intros _; lia].
    + destruct s as [| c s']; [split; [simpl; lia | congruence] |].
      destruct (IH s' ltac:(simpl in Hn; lia)) as [A B].
      cbn [length]. split; [lia |]. intros F. specialize (B F). lia.
Qed.

Lemma sub_one_length : forall x n s,
  length s <= n -> length (sub fl p [x] s) <= length s.
Proof.
  intros x. induction n as [| n IH]; intros s Hn.
  - destruct s; [| simpl in Hn; lia].
    rewrite (@sub_eq fl p p_one).
    destruct (match_here fl p []) as [[m r] |] eqn:E.
    + apply (@match_shorter fl p p_one) in E. simpl in E. lia.
    + simpl; lia.
  - rewrite (@sub_eq fl p p_one).
    destruct (match_here fl p s) as [[m r] |] eqn:E.
    + pose proof (@match_shorter fl p p_one _ _ _ E) as L.
      specialize (IH r ltac:(lia)). cbn [app length]. lia.
    + destruct s as [| c s']; [simpl; lia |].
      specialize (IH s' ltac:(simpl in Hn; lia)). cbn [length]. lia.
Qed.

End SubLength.

Lemma remove_loop_length : forall ps u acc,
  (forall p, In p ps -> begins_with_one p = true) ->
  length (fst (fold_left remove_pattern ps (u, acc))) <= length u
  /\ (length acc < length (snd (fold_left remove_pattern ps (u, acc))) ->
      length (fst (fold_left remove_pattern ps (u, acc))) < length u).
Proof.
  induction ps as [| p ps IH]; intros u acc H.
  - cbn [fold_left fst snd]. split; lia.
  - cbn [fold_left].
    assert (R : remove_pattern (u, acc) p
                = match findall re_flags p u with
                  | [] => (u, acc)
                  | ms => (sub re_flags p [] u, acc ++ ms)
                  end) by reflexivity.
    rewrite R. clear R.
    assert (Hp : begins_with_one p = true) by (apply H; left; reflexivity).
    assert (Hps : forall q, In q ps -> begins_with_one q = true)
      by (intros q Hq; apply H; right; exact Hq).
    destruct (findall re_flags p u) as [| m ms] eqn:F.
    + apply IH. exact Hps.
    + destruct (@sub_nil_length re_flags p Hp (length u) u (le_n _)) as [_ S].
      assert (S' : length (sub re_flags p [] u) < length u)
        by (apply S; congruence).
      destruct (IH (sub re_flags p [] u) (acc ++ m :: ms) Hps) as [A _].
      split; [lia | intros _; lia].
Qed.

Lemma lstrip_length : forall s, length (lstrip s) <= length s.
Proof.
  intros s. destruct (lstrip_spec s) as [w [E _]].
  rewrite E at 2. rewrite length_app. lia.
Qed.

Lemma strip_length : forall s, length (strip s) <= length s.
Proof.
  intros s. unfold strip.
  destruct (rstrip_spec (lstrip s)) as [w [E _]].
  pose proof (lstrip_length s) as L.
  rewrite E in L. rewrite length_app in L. lia.
Qed.

(** X3. [remove_ias_tags] never returns a longer markup than it was
    given, and a strictly shorter one whenever it reports a removed tag. *)
Theorem X3_removal_never_lengthens :
  forall s,
    length (fst (remove_ias_tags s)) <= length s
    /\ (snd (remove_ias_tags s) <> [] ->
        length (fst (remove_ias_tags s)) < length s).
Proof.
  intros s.
  destruct (remove_loop_length IAS_PATTERNS s [] IAS_PATTERNS_begin_with_one)
    as [A B].
  unfold remove_ias_tags.
  destruct (fold_left remove_pattern IAS_PATTERNS (s, [])) as [u removed].
  cbn [fst snd] in *.
  pose proof (strip_length (sub no_flags blank_lines [nl] u)) as S.
  pose proof (@sub_one_length no_flags blank_lines blank_lines_begin nl
                (length u) u (le_n _)) as C.
  split; [lia |].
  intros N. assert (L : 0 < length removed) by (destruct removed; [congruence | simpl; lia]).
  specialize (B L). lia.
Qed.

Lemma star_greedy_tail : forall f k s m r,
  star_greedy f k s = Some (m, r) ->
  exists pre s' m', m = pre ++ m' /\ k s' = Some (m', r).
Proof.
  intros f k. induction s as [| c s IH]; intros m r H; cbn [star_greedy] in H.
  - exists [], [], m. split; [reflexivity | exact H].
  - destruct (f c).
    + destruct (star_greedy f k s) as [[m0 r0] |] eqn:E.
      * injection H as <- <-. destruct (IH _ _ eq_refl) as [pre [s' [m' [E1 E2]]]].
        exists (c :: pre), s', m'. subst m0. split; [reflexivity | exact E2].
      * exists [], (c :: s), m. split; [reflexivity | exact H].
    + exists [], (c :: s), m. split; [reflexivity | exact H].
Qed.

Lemma star_lazy_tail : forall f k s m r,
  star_lazy f k s = Some (m, r) ->
  exists pre s' m', m = pre ++ m' /\ k s' = Some (m', r).
Proof.
  intros f k. induction s as [| c s IH]; intros m r H.
  - cbn [star_lazy] in H. destruct (k []) as [[m0 r0] |] eqn:E; [| discriminate].
    injection H as <- <-. exists [], [], m0. split; [reflexivity | exact E].
  - cbn [star_lazy] in H. destruct (k (c :: s)) as [[m0 r0] |] eqn:E.
    + injection H as <- <-. exists [], (c :: s), m0. split; [reflexivity | exact E].
    + destruct (f c); [| discriminate].
      destruct (star_lazy f k s) as [[m0 r0] |] eqn:E2; [| discriminate].
      cbn [consumed] in H. injection H as <- <-.
      destruct (IH _ _ eq_refl) as [pre [s' [m' [E1 E3]]]].
      exists (c :: pre), s', m'. subst m0. split; [reflexivity | exact E3].
Qed.

(** What a pattern matches ends with what its tail matches. *)
Lemma match_here_tail : forall fl q1 q s m r,
  match_here fl (q1 ++ q) s = Some (m, r) ->
  exists pre s' m', m = pre ++ m' /\ match_here fl q s' = Some (m', r).
Proof.
  intros fl. induction q1 as [| i q1 IH]; intros q s m r H.
  - exists [], s, m. split; [reflexivity | exact H].
  - cbn [app match_here] in H. destruct i as [cs | cs | cs].
    + destruct s as [| c s]; [discriminate |].
      destruct (cset_match fl cs c); [| discriminate].
      destruct (match_here fl (q1 ++ q) s) as [[m0 r0] |] eqn:E; [| discriminate].
      cbn [consumed] in H. injection H as <- <-.
      destruct (IH _ _ _ _ E) as [pre [s' [m' [E1 E2]]]].
      exists (c :: pre), s', m'. subst m0. split; [reflexivity | exact E2].
    + apply star_greedy_tail in H. destruct H as [pre [s1 [m1 [E1 E2]]]].
      destruct (IH _ _ _ _ E2) as [pre' [s' [m' [E3 E4]]]].
      exists (pre ++ pre'), s', m'. subst. rewrite app_assoc. split; [reflexivity | exact E4].
    + apply star_lazy_tail in H. destruct H as [pre [s1 [m1 [E1 E2]]]].
      destruct (IH _ _ _ _ E2) as [pre' [s' [m' [E3 E4]]]].
      exists (pre ++ pre'), s', m'. subst. rewrite app_assoc. split; [reflexivity | exact E4].
Qed.

(** A match of a literal, then more, begins with the literal, letters
    compared without regard to case. *)
Lemma match_litl_begins : forall L q s m r,
  match_here re_flags (litl L ++ q) s = Some (m, r) -> istarts L m = true.
Proof.
  induction L as [| l L IH]; intros q s m r H; [reflexivity |].
  cbn [litl map app match_here] in H.
  destruct s as [| c s]; [discriminate |].
  cbn [cset_match catom_match re_flags IGNORECASE] in H.
  destruct (Ascii.eqb (lower l) (lower c)) eqn:E; [| discriminate].
  destruct (match_here re_flags (map (fun c0 => One (Atom (ALit c0))) L ++ q) s)
    as [[m0 r0] |] eqn:E2; [| discriminate].
  cbn [consumed] in H. injection H as <- <-.
  cbn [istarts]. rewrite E. cbn [andb]. apply (IH q s m0 r0). exact E2.
Qed.

Lemma match_mentions : forall q1 L q2 s m r,
  match_here re_flags (q1 ++ litl L ++ q2) s = Some (m, r) ->
  icontains L m = true.
Proof.
  intros q1 L q2 s m r H.
  apply match_here_tail in H. destruct H as [pre [s' [m' [E1 E2]]]].
  subst m. apply icontains_intro. apply (match_litl_begins _ _ _ _ _ E2).
Qed.

Section FoundMatches.

Variable fl : flags.
Variable p : regex.
Hypothesis p_one : begins_with_one p = true.

Lemma findall_In : forall n s m,
  length s <= n -> In m (findall fl p s) ->
  exists t r, match_here fl p t = Some (m, r).
Proof.
  induction n as [| n IH]; intros s m Hn H; rewrite (@findall_eq fl p p_one) in H.
  - destruct s; [| simpl in Hn; lia].
    destruct (match_here fl p []) as [[m0 r0] |] eqn:E; [| destruct H].
    apply (@match_shorter fl p p_one) in E. simpl in E. lia.
  - destruct (match_here fl p s) as [[m0 r0] |] eqn:E.
    + destruct H as [<- | H]; [exists s, r0; exact E |].
      pose proof (@match_shorter fl p p_one _ _ _ E) as L.
      apply (IH r0 m); [lia | exact H].
    + destruct s as [| c s']; [destruct H |].
      apply (IH s' m); [simpl in Hn; lia | exact H].
Qed.

End FoundMatches.

Lemma IAS_PATTERNS_mention : forall p,
  In p IAS_PATTERNS -> exists q1 q2, p = q1 ++ litl vendor_stem ++ q2.
Proof.
  intros p Hp. unfold IAS_PATTERNS in Hp.
  destruct Hp as [<- | [<- | [<- | [<- | [<- | []]]]]].
  - exists (lits "<img" ++ [Star (NotIn [ALit ">"%char])]),
           ([Star (NotIn [ALit ">"%char])] ++ lits ">").
    reflexivity.
  - exists (lits "<script" ++ [Star (NotIn [ALit ">"%char])]),
           ([Star (NotIn [ALit ">"%char])] ++ lits ">" ++ [StarLazy Dot]
              ++ lits "</script>").
    reflexivity.
  - exists (lits "<script" ++ [Star (NotIn [ALit ">"%char])] ++ lits "fw."),
           ([Star (NotIn [ALit ">"%char])] ++ lits ">" ++ [StarLazy Dot]
              ++ lits "</script>").
    reflexivity.
  - exists (lits "pixel."),
           (lits ".com" ++ [Star (NotIn [ALit dq; ASpace; ALit ">"%char])]).
    reflexivity.
  - exists (lits "fw."),
           (lits ".com" ++ [Star (NotIn [ALit dq; ASpace; ALit ">"%char])]).
    reflexivity.
Qed.

Lemma remove_loop_tags : forall ps u acc t,
  (forall p, In p ps -> begins_with_one p = true) ->
  In t (snd (fold_left remove_pattern ps (u, acc))) ->
  In t acc
  \/ exists p s r, In p ps /\ match_here re_flags p s = Some (t, r).
Proof.
  induction ps as [| p ps IH]; intros u acc t H Ht.
  - left. exact Ht.
  - cbn [fold_left] in Ht.
    assert (R : remove_pattern (u, acc) p
                = match findall re_flags p u with
                  | [] => (u, acc)
                  | ms => (sub re_flags p [] u, acc ++ ms)
                  end) by reflexivity.
    rewrite R in Ht. clear R.
    assert (Hp : begins_with_one p = true) by (apply H; left; reflexivity).
    assert (Hps : forall q, In q ps -> begins_with_one q = true)
      by (intros q Hq; apply H; right; exact Hq).
    destruct (findall re_flags p u) as [| m ms] eqn:F.
    + destruct (IH _ _ _ Hps Ht) as [A | [q [s [r [Hq M]]]]]; [left; exact A |].
      right. exists q, s, r. split; [right; exact Hq | exact M].
    + destruct (IH _ _ _ Hps Ht) as [A | [q [s [r [Hq M]]]]].
      * apply in_app_or in A. destruct A as [A | A]; [left; exact A |].
        right. rewrite <- F in A.
        destruct (@findall_In re_flags p Hp (length u) u t (le_n _) A) as [s [r M]].
        exists p, s, r. split; [left; reflexivity | exact M].
      * right. exists q, s, r. split; [right; exact Hq | exact M].
Qed.

(** X4. Every tag that [remove_ias_tags] reports as removed is not empty
    and spells out the vendor's name [adsafeprotected], in whatever case:
    nothing else is ever taken out by the patterns. *)
Theorem X4_removed_tags_mention_the_vendor :
  forall s t,
    In t (snd (remove_ias_tags s)) ->
    icontains vendor_stem t = true /\ t <> [].
Proof.
  intros s t H.
  assert (R : In t (snd (fold_left remove_pattern IAS_PATTERNS (s, [])))).
  { unfold remove_ias_tags in H.
    destruct (fold_left remove_pattern IAS_PATTERNS (s, [])) as [u removed].
    exact H. }
  apply remove_loop_tags in R; [| exact IAS_PATTERNS_begin_with_one].
  destruct R as [[] | [p [u [r [Hp M]]]]].
  split.
  - destruct (IAS_PATTERNS_mention p Hp) as [q1 [q2 E]]. subst p.
    apply (match_mentions _ _ _ _ _ _ M).
  - intros N. subst t.
    apply (begins_with_one_nonempty re_flags p u r (IAS_PATTERNS_begin_with_one p Hp)).
    exact M.
Qed.

Lemma X4_removed_tags_witness :
  In ias_pixel_tag (snd (remove_ias_tags pixel_and_link))
  /\ icontains vendor_stem ias_pixel_tag = true /\ ias_pixel_tag <> [].
Proof.
  assert (E : snd (remove_ias_tags pixel_and_link) = [ias_pixel_tag])
    by (vm_compute; reflexivity).
  assert (I : In ias_pixel_tag (snd (remove_ias_tags pixel_and_link)))
    by (rewrite E; left; reflexivity).
  split; [exact I |].
  exact (X4_removed_tags_mention_the_vendor pixel_and_link ias_pixel_tag I).
Defined.

(** ** The wrappers *)

Lemma lstrip_keep : forall a r, begins_solid a = true -> lstrip (a ++ r) = a ++ r.
Proof.
  intros [| c a] r H; [discriminate |].
  cbn [begins_solid] in H. apply negb_true_iff in H.
  cbn [app lstrip]. rewrite H. reflexivity.
Qed.

Lemma rstrip_keep : forall p z, ends_solid z = true -> rstrip (p ++ z) = p ++ z.
Proof.
  intros p z H. unfold rstrip. rewrite rev_app_distr.
  rewrite (lstrip_keep _ _ H). rewrite <- rev_app_distr. apply rev_involutive.
Qed.

Lemma startswith_app : forall k a b,
  startswith k a = true -> startswith k (a ++ b) = true.
Proof.
  induction k as [| x k IH]; intros a b H; [reflexivity |].
  destruct a as [| c a]; [discriminate |].
  cbn [app]. rewrite startswith_cons in *.
  apply andb_true_iff in H. destruct H as [H1 H2].
  rewrite H1. cbn [andb]. apply IH. exact H2.
Qed.

Lemma contains_app_l : forall k a b,
  contains k a = true -> contains k (a ++ b) = true.
Proof.
  intros k. induction a as [| c a IH]; intros b H.
  - destruct k as [| x k]; [destruct b; reflexivity | discriminate].
  - cbn [app]. rewrite contains_cons in *.
    apply orb_true_iff in H. destruct H as [H | H].
    + pose proof (startswith_app _ (c :: a) b H) as S. cbn [app] in S.
      rewrite S. reflexivity.
    + rewrite (IH b H). apply orb_true_r.
Qed.

Lemma contains_app_r : forall k a b,
  contains k b = true -> contains k (a ++ b) = true.
Proof.
  intros k a b H. destruct (contains k (a ++ b)) eqn:E; [reflexivity |].
  apply contains_false_app_r in E. congruence.
Qed.

Ltac find_literal :=
  repeat first
    [ solve [apply contains_app_l; vm_compute; reflexivity]
    | apply contains_app_r ].

(** What the structure check looks for. *)
Lemma structure_check_passes : forall v,
  contains (py "<VAST") v = true ->
  contains (py "<Ad ") v = true ->
  contains (py "<Creative>") v = true ->
  contains (py "<TrackingEvents>") v = true ->
  contains (tpl "event=`" ++ py "start" ++ tpl "`") v = true ->
  contains (tpl "event=`" ++ py "complete" ++ tpl "`") v = true ->
  validate_vast_structure v = [].
Proof.
  intros v H1 H2 H3 H4 H5 H6. unfold validate_vast_structure.
  cbn [flat_map]. rewrite H1, H2, H3, H4, H5, H6.
  cbn [negb andb]. rewrite !andb_false_r. reflexivity.
Qed.

Lemma vast_head_phase1_literals : forall ad dur config X,
  let v := vast_head_phase1 ad dur config ++ X in
  contains (py "<VAST") v = true
  /\ contains (py "<Ad ") v = true
  /\ contains (py "<Creative>") v = true
  /\ contains (py "<TrackingEvents>") v = true
  /\ contains (tpl "event=`" ++ py "start" ++ tpl "`") v = true
  /\ contains (tpl "event=`" ++ py "complete" ++ tpl "`") v = true.
Proof.
  intros ad dur config X v. subst v. unfold vast_head_phase1.
  rewrite <- !app_assoc.
  repeat split; find_literal.
Qed.

Lemma vast_head_phase2_literals : forall ad dur config X,
  let v := vast_head_phase2 ad dur config ++ X in
  contains (py "<VAST") v = true
  /\ contains (py "<Ad ") v = true
  /\ contains (py "<Creative>") v = true
  /\ contains (py "<TrackingEvents>") v = true
  /\ contains (tpl "event=`" ++ py "start" ++ tpl "`") v = true
  /\ contains (tpl "event=`" ++ py "complete" ++ tpl "`") v = true.
Proof.
  intros ad dur config X v. subst v. unfold vast_head_phase2.
  rewrite <- !app_assoc.
  repeat split; find_literal.
Qed.

Lemma vast_phase1_solid : forall ad dur config M,
  strip (vast_head_phase1 ad dur config ++ M ++ vast_tail_phase1 config)
  = vast_head_phase1 ad dur config ++ M ++ vast_tail_phase1 config.
Proof.
  intros ad dur config M. unfold strip.
  assert (L : lstrip (vast_head_phase1 ad dur config ++ M ++ vast_tail_phase1 config)
              = vast_head_phase1 ad dur config ++ M ++ vast_tail_phase1 config).
  { unfold vast_head_phase1. rewrite <- !app_assoc.
    apply lstrip_keep. vm_compute. reflexivity. }
  rewrite L. unfold vast_tail_phase1. rewrite !app_assoc.
  apply rstrip_keep. vm_compute. reflexivity.
Qed.

Lemma vast_phase2_solid : forall ad dur config M,
  strip (vast_head_phase2 ad dur config ++ M ++ vast_tail_phase2 config)
  = vast_head_phase2 ad dur config ++ M ++ vast_tail_phase2 config.
Proof.
  intros ad dur config M. unfold strip.
  assert (L : lstrip (vast_head_phase2 ad dur config ++ M ++ vast_tail_phase2 config)
              = vast_head_phase2 ad dur config ++ M ++ vast_tail_phase2 config).
  { unfold vast_head_phase2. rewrite <- !app_assoc.
    apply lstrip_keep. vm_compute. reflexivity. }
  rewrite L. unfold vast_tail_phase2. rewrite !app_assoc.
  apply rstrip_keep. vm_compute. reflexivity.
Qed.

(** The shape of what the wrappers return. *)
Lemma wrap_vast_phase1_shape : forall s config v,
  wrap_vast_phase1 s config = Ok v ->
  exists dur M,
    v = vast_head_phase1 (name config ++ py "_phase1") dur config
        ++ M ++ vast_tail_phase1 config.
Proof.
  intros s config v H. unfold wrap_vast_phase1 in H.
  destruct (format_duration (duration config)) as [dur | e]; [| discriminate].
  cbn [bind] in H. destruct (branded_canvas config).
  - destruct (unpack_dimensions (dimensions config)) as [[w h] | e];
      [| discriminate].
    cbn [bind fst snd] in H. injection H as <-.
    exists dur, (vast_companion_phase1 w h).
    rewrite <- app_assoc. apply vast_phase1_solid.
  - cbn [bind] in H. injection H as <-.
    exists dur, []. apply (vast_phase1_solid _ _ _ []).
Qed.

Lemma wrap_vast_phase2_shape : forall s config v,
  wrap_vast_phase2 s config = Ok v ->
  exists dur M,
    v = vast_head_phase2 (name config ++ py "_phase2") dur config
        ++ M ++ vast_tail_phase2 config.
Proof.
  intros s config v H. unfold wrap_vast_phase2 in H.
  destruct (format_duration (duration config)) as [dur | e]; [| discriminate].
  cbn [bind] in H. destruct (branded_canvas config).
  - destruct (unpack_dimensions (dimensions config)) as [[w h] | e];
      [| discriminate].
    cbn [bind fst snd] in H. injection H as <-.
    exists dur, (vast_companion_phase2 w h).
    rewrite <- app_assoc. apply vast_phase2_solid.
  - cbn [bind] in H. injection H as <-.
    exists dur, []. apply (vast_phase2_solid _ _ _ []).
Qed.

(** X5. Whatever [wrap_vast_phase1] or [wrap_vast_phase2] returns passes
    [validate_vast_structure] without an error and begins with the XML
    declaration, for every markup and every configuration. *)
Theorem X5_vast_wrappers_pass_structure_check :
  forall snippet_code config v,
    wrap_vast_phase1 snippet_code config = Ok v
    \/ wrap_vast_phase2 snippet_code config = Ok v ->
    validate_vast_structure v = []
    /\ startswith (py "<?xml") v = true.
Proof.
  intros s config v [H | H].
  - apply wrap_vast_phase1_shape in H. destruct H as [dur [M ->]].
    destruct (vast_head_phase1_literals (name config ++ py "_phase1") dur config
                (M ++ vast_tail_phase1 config)) as [H1 [H2 [H3 [H4 [H5 H6]]]]].
    split; [apply structure_check_passes; assumption |].
    unfold vast_head_phase1. rewrite <- !app_assoc.
    apply startswith_app. vm_compute. reflexivity.
  - apply wrap_vast_phase2_shape in H. destruct H as [dur [M ->]].
    destruct (vast_head_phase2_literals (name config ++ py "_phase2") dur config
                (M ++ vast_tail_phase2 config)) as [H1 [H2 [H3 [H4 [H5 H6]]]]].
    split; [apply structure_check_passes; assumption |].
    unfold vast_head_phase2. rewrite <- !app_assoc.
    apply startswith_app. vm_compute. reflexivity.
Qed.

Lemma X5_vast_wrappers_witness :
  exists v,
    (wrap_vast_phase1 test_creative (video_phase1 (Some 15%Z)) = Ok v
     \/ wrap_vast_phase2 test_creative (video_phase1 (Some 15%Z)) = Ok v)
    /\ validate_vast_structure v = []
    /\ startswith (py "<?xml") v = true.
Proof.
  destruct (wrap_vast_phase1 test_creative (video_phase1 (Some 15%Z)))
    as [v | e] eqn:E.
  - exists v. split; [left; reflexivity |].
    apply (X5_vast_wrappers_pass_structure_check test_creative
             (video_phase1 (Some 15%Z)) v).
    left. exact E.
  - exfalso. revert E. vm_compute. discriminate.
Defined.

Lemma unpack_dimensions_ok : forall d,
  (exists wh, unpack_dimensions d = Ok wh)
  <-> exists w h, split "x"%char d = [w; h].
Proof.
  intros d. unfold unpack_dimensions.
  destruct (split "x"%char d) as [| w [| h [| ? ?]]]; split;
    try (intros [wh H]; discriminate);
    try (intros [w0 [h0 H]]; discriminate).
  - intros _. exists w, h. reflexivity.
  - intros _. eexists. reflexivity.
Qed.

(** The duration is printed exactly when it is there and not too long. *)
Lemma format_duration_ok : forall config,
  (exists printed, format_duration (duration config) = Ok printed)
  <-> printable_duration config.
Proof.
  intros config. unfold format_duration, printable_duration, format_02d.
  destruct (duration config) as [d |].
  - destruct (int_max_str_digits <? length (str_of_Z (Z.abs d))) eqn:L; split.
    + intros [printed H]. discriminate.
    + intros [d' [E H]]. injection E as <-.
      apply Nat.ltb_lt in L. lia.
    + intros _. exists d. split; [reflexivity |].
      apply Nat.ltb_ge in L. exact L.
    + intros _. eexists. reflexivity.
  - split; [intros [printed H]; discriminate | intros [d [E _]]; discriminate].
Qed.

(** X6. The VAST wrappers fail only for lack of input: each returns a
    document exactly when the configuration has a duration that can be
    printed (an integer of at most 4300 digits) and, if the branded canvas
    is on, dimensions that split at [x] into exactly two parts.  The markup
    plays no part in it. *)
Theorem X6_vast_wrappers_fail_only_for_lack_of_input :
  forall snippet_code config,
    ((exists v, wrap_vast_phase1 snippet_code config = Ok v)
     <-> printable_duration config /\ canvas_ready config)
    /\ ((exists v, wrap_vast_phase2 snippet_code config = Ok v)
        <-> printable_duration config /\ canvas_ready config).
Proof.
  intros s config. unfold wrap_vast_phase1, wrap_vast_phase2, canvas_ready.
  pose proof (format_duration_ok config) as D.
  destruct (format_duration (duration config)) as [printed | e]; cbn [bind].
  - assert (P : printable_duration config) by (apply D; eexists; reflexivity).
    destruct (branded_canvas config).
    + pose proof (unpack_dimensions_ok (dimensions config)) as U.
      destruct (unpack_dimensions (dimensions config)) as [[w h] | e];
        cbn [bind]; split; split.
      * intros _. split; [exact P |]. intros _. apply U. eexists. reflexivity.
      * intros _. eexists. reflexivity.
      * intros _. split; [exact P |]. intros _. apply U. eexists. reflexivity.
      * intros _. eexists. reflexivity.
      * intros [v H]. discriminate.
      * intros [_ H]. apply U in H; [| reflexivity]. destruct H as [wh H]. discriminate.
      * intros [v H]. discriminate.
      * intros [_ H]. apply U in H; [| reflexivity]. destruct H as [wh H]. discriminate.
    + cbn [bind]. split; split; try (intros _; eexists; reflexivity);
        intros _; (split; [exact P | intros H; discriminate]).
  - split; split; try (intros [v H]; discriminate);
      intros [P _]; apply D in P; destruct P as [printed P]; discriminate.
Qed.

(** X7. For the two video formats the processed code does not depend on
    the markup that was fetched: two responses of the provider lead to the
    same code, the same warnings and the same added tags, or to the same
    error. *)
Theorem X7_video_code_ignores_the_fetched_markup :
  forall env r1 r2 config,
    format config <> RUNWAY ->
    match _transform_snippet env r1 config, _transform_snippet env r2 config with
    | Ok (c1, m1), Ok (c2, m2) =>
        c1 = c2 /\ warnings m1 = warnings m2 /\ tags_added m1 = tags_added m2
    | Raise e1, Raise e2 => e1 = e2
    | _, _ => False
    end.
Proof.
  intros env r1 r2 config F. unfold _transform_snippet.
  destruct (match phase (viewability_config config) with
            | PHASE_1 => remove_ias_tags (snippet_code r1)
            | PHASE_2 => (snippet_code r1, [])
            end) as [a1 t1].
  destruct (match phase (viewability_config config) with
            | PHASE_1 => remove_ias_tags (snippet_code r2)
            | PHASE_2 => (snippet_code r2, [])
            end) as [a2 t2].
  destruct (cache_buster config); destruct (format config); try congruence;
    destruct (phase (viewability_config config));
    unfold wrap_vast_phase1, wrap_vast_phase2;
    destruct (format_duration (duration config)) as [dur | e]; cbn [bind];
      try reflexivity;
    destruct (branded_canvas config); cbn [bind]; try (repeat split; reflexivity);
    destruct (unpack_dimensions (dimensions config)) as [[w h] | e]; cbn [bind];
      try reflexivity; repeat split; reflexivity.
Qed.

Lemma X7_video_code_witness :
  format (video_phase1 (Some 15%Z)) <> RUNWAY
  /\ match _transform_snippet (env_of test_creative) (answer test_creative)
             (video_phase1 (Some 15%Z)),
           _transform_snippet (env_of test_creative) (answer pixel_and_link)
             (video_phase1 (Some 15%Z)) with
     | Ok (c1, m1), Ok (c2, m2) =>
         c1 = c2 /\ warnings m1 = warnings m2 /\ tags_added m1 = tags_added m2
     | Raise e1, Raise e2 => e1 = e2
     | _, _ => False
     end.
Proof.
  assert (F : format (video_phase1 (Some 15%Z)) <> RUNWAY) by discriminate.
  split; [exact F |].
  exact (X7_video_code_ignores_the_fetched_markup (env_of test_creative)
           (answer test_creative) (answer pixel_and_link)
           (video_phase1 (Some 15%Z)) F).
Defined.

(** X8. Each display wrapper puts a fixed frame around the markup: for
    every configuration there are a head that begins and a tail that ends
    with a character that is not whitespace, such that the wrapper returns
    head, markup, tail for every markup, which it leaves untouched. *)
Theorem X8_display_wrappers_frame_the_markup :
  forall config,
    (exists pre post,
       begins_solid pre = true /\ ends_solid post = true
       /\ forall snippet_code,
            wrap_display_html5_phase1 snippet_code config
            = pre ++ snippet_code ++ post)
    /\ (exists pre post,
          begins_solid pre = true /\ ends_solid post = true
          /\ forall snippet_code,
               wrap_display_html5_phase2 snippet_code config
               = pre ++ snippet_code ++ post).
Proof.
  intros config. split.
  - eexists. eexists. split; [| split]; cycle 2.
    + intros s. match goal with |- _ = ?r => set (R := r) end.
      unfold wrap_display_html5_phase1, strip.
      rewrite lstrip_app by (vm_compute; reflexivity).
      rewrite !app_assoc.
      rewrite rstrip_app by (vm_compute; reflexivity).
      rewrite <- (app_assoc _ s).
      subst R. reflexivity.
    + vm_compute. reflexivity.
    + vm_compute. reflexivity.
  - eexists. eexists. split; [| split]; cycle 2.
    + intros s. match goal with |- _ = ?r => set (R := r) end.
      unfold wrap_display_html5_phase2, strip.
      rewrite lstrip_app by (vm_compute; reflexivity).
      rewrite !app_assoc.
      rewrite rstrip_app by (vm_compute; reflexivity).
      rewrite <- (app_assoc _ s).
      subst R. reflexivity.
    + vm_compute. reflexivity.
    + vm_compute. reflexivity.
Qed.

(** ** The warnings of a processed creative *)

(** The code of a video creative is what one of the VAST wrappers
    returned. *)
Lemma transform_video_code : forall env resp config code md,
  _transform_snippet env resp config = Ok (code, md) ->
  format config <> RUNWAY ->
  exists c1,
    wrap_vast_phase1 c1 config = Ok code \/ wrap_vast_phase2 c1 config = Ok code.
Proof.
  intros env resp config code md H F. unfold _transform_snippet in H.
  destruct (match phase (viewability_config config) with
            | PHASE_1 => remove_ias_tags (snippet_code resp)
            | PHASE_2 => (snippet_code resp, [])
            end) as [c0 removed].
  destruct (if cache_buster config
            then (inject_cache_buster (time_ms env) (inject_amazon_macros c0) None,
                  [py "amazon_macros"] ++ [py "cache_buster"])
            else (inject_amazon_macros c0, [py "amazon_macros"])) as [c1 added].
  exists c1.
  destruct (format config); [congruence | |];
    destruct (phase (viewability_config config));
    match type of H with
    | context [wrap_vast_phase1 c1 config] =>
        destruct (wrap_vast_phase1 c1 config) as [v | e] eqn:W;
        cbn [bind] in H; [| discriminate];
        injection H as <- <-; left; reflexivity
    | context [wrap_vast_phase2 c1 config] =>
        destruct (wrap_vast_phase2 c1 config) as [v | e] eqn:W;
        cbn [bind] in H; [| discriminate];
        injection H as <- <-; right; reflexivity
    end.
Qed.

Lemma wrapped_vast_structure : forall c1 config v,
  wrap_vast_phase1 c1 config = Ok v \/ wrap_vast_phase2 c1 config = Ok v ->
  validate_vast_structure v = [].
Proof.
  intros c1 config v [H | H].
  - apply wrap_vast_phase1_shape in H. destruct H as [dur [M ->]].
    destruct (vast_head_phase1_literals (name config ++ py "_phase1") dur config
                (M ++ vast_tail_phase1 config)) as [H1 [H2 [H3 [H4 [H5 H6]]]]].
    apply structure_check_passes; assumption.
  - apply wrap_vast_phase2_shape in H. destruct H as [dur [M ->]].
    destruct (vast_head_phase2_literals (name config ++ py "_phase2") dur config
                (M ++ vast_tail_phase2 config)) as [H1 [H2 [H3 [H4 [H5 H6]]]]].
    apply structure_check_passes; assumption.
Qed.

(** X9. The warnings that [_transform_snippet] records are exactly what
    [validate_phase_configuration] finds in the processed code, for every
    format: the check of the VAST structure that the video branch makes
    never adds a warning. *)
Theorem X9_warnings_are_the_phase_warnings :
  forall env resp config code md,
    _transform_snippet env resp config = Ok (code, md) ->
    warnings md
    = validate_phase_configuration (phase (viewability_config config))
        (vendors (viewability_config config)) code.
Proof.
  intros env resp config code md H.
  rewrite (transform_records_warnings _ _ _ _ _ H).
  destruct (format config) eqn:F; [reflexivity | |].
  - destruct (transform_video_code _ _ _ _ _ H) as [c1 W];
      [rewrite F; discriminate |].
    rewrite (wrapped_vast_structure _ _ _ W). reflexivity.
  - destruct (transform_video_code _ _ _ _ _ H) as [c1 W];
      [rewrite F; discriminate |].
    rewrite (wrapped_vast_structure _ _ _ W). reflexivity.
Qed.

Lemma X9_warnings_witness :
  exists code md,
    _transform_snippet (env_of test_creative) (answer test_creative)
      (video_phase1 (Some 15%Z)) = Ok (code, md)
    /\ warnings md
       = validate_phase_configuration PHASE_1 [DOUBLE_VERIFY] code.
Proof.
  assert (F : match _transform_snippet (env_of test_creative)
                      (answer test_creative) (video_phase1 (Some 15%Z)) with
              | Ok _ => true
              | Raise _ => false
              end = true) by (vm_compute; reflexivity).
  destruct (_transform_snippet (env_of test_creative) (answer test_creative)
              (video_phase1 (Some 15%Z))) as [[code md] | e] eqn:E;
    [| discriminate].
  exists code, md. split; [reflexivity |].
  exact (X9_warnings_are_the_phase_warnings _ _ _ _ _ E).
Defined.

(** ** The dimensions *)

(** [int] reads back what [str] prints. *)

Lemma step_zero : forall a c, digit_val c = 0%Z -> step a c = (10 * a)%Z.
Proof. intros a c H. unfold step. rewrite H. lia. Qed.

Lemma step_pos : forall acc c k,
  digit_val c = Z.pos k -> step (Z.pos acc) c = Z.pos (k + 10 * acc).
Proof. intros acc c k H. unfold step. rewrite H. lia. Qed.

Lemma uint_value_acc : forall d acc,
  fold_left step (py (NilEmpty.string_of_uint d)) (Z.pos acc)
  = Z.pos (Pos.of_uint_acc d acc).
Proof.
  induction d; intros acc; cbn [NilEmpty.string_of_uint py list_ascii_of_string
                                 fold_left Pos.of_uint_acc];
    [reflexivity
    | rewrite (step_zero (Z.pos acc) "0"%char eq_refl);
      apply (IHd (10 * acc)%positive)
    | ..];
    match goal with
    | |- context [step (Z.pos ?a) ?c] => rewrite (step_pos a c _ eq_refl)
    end; apply IHd.
Qed.

Lemma uint_value : forall d,
  fold_left step (py (NilEmpty.string_of_uint d)) 0%Z = Z.of_N (Pos.of_uint d).
Proof.
  induction d; cbn [NilEmpty.string_of_uint py list_ascii_of_string
                    fold_left Pos.of_uint];
    [reflexivity | exact IHd | ..];
    apply uint_value_acc.
Qed.

Lemma digits_value_fold : forall s, digits_value s = fold_left step s 0%Z.
Proof. reflexivity. Qed.

Lemma to_uint_digits : forall p,
  let s := py (NilZero.string_of_uint (Pos.to_uint p)) in
  s <> [] /\ forallb isdigit s = true /\ digits_value s = Z.pos p.
Proof.
  intros p s. subst s.
  assert (E : NilZero.string_of_uint (Pos.to_uint p)
              = NilEmpty.string_of_uint (Pos.to_uint p)
              \/ Pos.to_uint p = Decimal.Nil).
  { destruct (Pos.to_uint p); [right; reflexivity | left; reflexivity ..]. }
  destruct E as [E | E].
  - rewrite E. split; [| split].
    + pose proof (DecimalPos.Unsigned.of_to p) as T.
      destruct (Pos.to_uint p); [discriminate | discriminate ..].
    + apply forallb_forall. intros c Hc. apply (uint_chars _ _ Hc).
    + rewrite digits_value_fold, uint_value, DecimalPos.Unsigned.of_to. reflexivity.
  - pose proof (DecimalPos.Unsigned.of_to p) as T. rewrite E in T. discriminate.
Qed.

Lemma all_digits_intro : forall s,
  s <> [] -> forallb isdigit s = true -> all_digits s = true.
Proof. intros [| c s] N H; [congruence | exact H]. Qed.

Lemma int_strip_solid : forall c s,
  int_space c = false ->
  match rev s with x :: _ => int_space x = false | [] => True end ->
  int_strip (c :: s) = c :: s.
Proof.
  intros c s Hc Hs. unfold int_strip. cbn [int_lstrip]. rewrite Hc.
  cbn [rev].
  destruct (rev s) as [| x t] eqn:E.
  - cbn [app int_lstrip]. rewrite Hc. cbn [rev app].
    assert (S : s = []) by (apply (f_equal (@rev ascii)) in E;
                            rewrite rev_involutive in E; exact E).
    subst s. reflexivity.
  - cbn [app int_lstrip]. rewrite Hs.
    change (x :: t ++ [c]) with ((x :: t) ++ [c]). rewrite <- E.
    rewrite rev_app_distr, rev_involutive. reflexivity.
Qed.

Lemma int_lstrip_spec : forall s,
  exists w, s = w ++ int_lstrip s /\ forallb int_space w = true.
Proof.
  induction s as [| c s IH]; [exists []; split; reflexivity |].
  cbn [int_lstrip]. destruct (int_space c) eqn:E.
  - destruct IH as [w [H1 H2]]. exists (c :: w). split.
    + cbn [app]. f_equal. exact H1.
    + cbn [forallb]. rewrite E, H2. reflexivity.
  - exists []. split; reflexivity.
Qed.

Lemma int_strip_spec : forall s,
  exists w1 w2,
    s = w1 ++ int_strip s ++ w2
    /\ forallb int_space w1 = true /\ forallb int_space w2 = true.
Proof.
  intros s. unfold int_strip.
  destruct (int_lstrip_spec s) as [w1 [H1 F1]].
  destruct (int_lstrip_spec (rev (int_lstrip s))) as [w [H2 F2]].
  exists w1, (rev w). split; [| split; [exact F1 |]].
  - rewrite <- rev_app_distr, <- H2, rev_involutive. exact H1.
  - rewrite forallb_forall in *. intros c Hc. apply F2. apply in_rev. exact Hc.
Qed.

(** [int(str(n)) == n]. *)
Lemma int_str_of_Z : forall n,
  length (str_of_Z n) <= int_max_str_digits -> int (str_of_Z n) = Some n.
Proof.
  intros n. unfold str_of_Z. destruct n as [| p | p]; cbn [Z.to_int NilZero.string_of_int].
  - intros _. reflexivity.
  - intros L. destruct (to_uint_digits p) as [N [D V]].
    rewrite (int_all_digits _ (all_digits_intro _ N D) L). rewrite V. reflexivity.
  - cbn [py list_ascii_of_string length]. intros L.
    destruct (to_uint_digits p) as [N [D V]].
    set (s := list_ascii_of_string (NilZero.string_of_uint (Pos.to_uint p))) in *.
    unfold int. rewrite int_strip_solid.
    + cbn [Ascii.eqb Bool.eqb andb]. change (Ascii.eqb "-" "-") with true. cbv iota.
      rewrite (int_digits_value s 0%Z 0 false D (or_introl N)) by (cbn; lia).
      fold step. rewrite <- digits_value_fold. unfold py in V. fold s in V.
      rewrite V. reflexivity.
    + reflexivity.
    + change (match rev s with x :: _ => int_space x = false | [] => True end).
      destruct (rev s) as [| x t] eqn:E; [exact I |].
      apply digit_not_int_space. unfold py in D. rewrite forallb_forall in D.
      apply D. apply in_rev. change (In x (rev s)). rewrite E. left. reflexivity.
Qed.

(** Cutting at the separator. *)

Lemma split1_free : forall sep w h,
  free_of sep w = true -> split1 sep (w ++ sep :: h) = [w; h].
Proof.
  intros sep. induction w as [| c w IH]; intros h H; cbn [app split1].
  - rewrite Ascii.eqb_refl. reflexivity.
  - cbn [free_of forallb] in H. apply andb_true_iff in H. destruct H as [Hc Hw].
    apply negb_true_iff in Hc. rewrite Hc, (IH h Hw). reflexivity.
Qed.

Lemma split_free : forall sep s, free_of sep s = true -> split sep s = [s].
Proof.
  intros sep. induction s as [| c s IH]; intros H; [reflexivity |].
  cbn [free_of forallb] in H. apply andb_true_iff in H. destruct H as [Hc Hs].
  apply negb_true_iff in Hc. cbn [split]. rewrite Hc, (IH Hs). reflexivity.
Qed.

Lemma split_free_cons : forall sep w h,
  free_of sep w = true -> split sep (w ++ sep :: h) = w :: split sep h.
Proof.
  intros sep. induction w as [| c w IH]; intros h H; cbn [app split].
  - rewrite Ascii.eqb_refl. reflexivity.
  - cbn [free_of forallb] in H. apply andb_true_iff in H. destruct H as [Hc Hw].
    apply negb_true_iff in Hc. rewrite Hc, (IH h Hw). reflexivity.
Qed.

Lemma split1_nonempty : forall sep s, split1 sep s <> [].
Proof.
  intros sep [| c s]; cbn [split1]; [discriminate |].
  destruct (Ascii.eqb c sep); [discriminate |].
  destruct (split1 sep s); discriminate.
Qed.

Lemma split1_two : forall sep s a b,
  split1 sep s = [a; b] -> s = a ++ sep :: b /\ free_of sep a = true.
Proof.
  intros sep. induction s as [| c s IH]; intros a b H; cbn [split1] in H.
  - discriminate.
  - destruct (Ascii.eqb c sep) eqn:C.
    + apply Ascii.eqb_eq in C. injection H as <- <-. subst c. split; reflexivity.
    + destruct (split1 sep s) as [| w0 ws] eqn:E; [discriminate |].
      injection H as <- ->. destruct (IH _ _ eq_refl) as [E1 E2].
      subst s. split; [reflexivity |].
      cbn [free_of forallb]. rewrite C. exact E2.
Qed.

Lemma split_head_free : forall sep s a rest,
  split sep s = a :: rest -> free_of sep a = true.
Proof.
  intros sep. induction s as [| c s IH]; intros a rest H; cbn [split] in H.
  - injection H as <- _. reflexivity.
  - destruct (Ascii.eqb c sep) eqn:C.
    + injection H as <- _. reflexivity.
    + destruct (split sep s) as [| w0 ws] eqn:E; [injection H as <- _ |].
      * cbn [free_of forallb]. rewrite C. reflexivity.
      * injection H as <- _. cbn [free_of forallb]. rewrite C.
        apply (IH _ _ eq_refl).
Qed.

(** What [int] can read. *)

Lemma int_digits_chars : forall s acc n b v,
  int_digits acc n b s = Some v ->
  forallb (fun c => isdigit c || Ascii.eqb c "_"%char) s = true.
Proof.
  induction s as [| c s IH]; intros acc n b v H; [reflexivity |].
  cbn [int_digits] in H. cbn [forallb].
  destruct (isdigit c) eqn:D.
  - cbn [orb andb]. apply (IH _ _ _ _ H).
  - destruct (Ascii.eqb c "_"%char) eqn:U; [| discriminate].
    destruct b; [| discriminate]. cbn [orb andb]. apply (IH _ _ _ _ H).
Qed.

Lemma forallb_imp : forall (A : Type) (f g : A -> bool) l,
  (forall x, f x = true -> g x = true) ->
  forallb f l = true -> forallb g l = true.
Proof.
  intros A f g l I H. rewrite forallb_forall in *. intros x Hx.
  apply I. apply H. exact Hx.
Qed.

Lemma int_chars : forall s v, int s = Some v -> forallb int_char s = true.
Proof.
  intros s v H.
  destruct (int_strip_spec s) as [w1 [w2 [E [W1 W2]]]].
  rewrite E. rewrite !forallb_app.
  assert (A1 : forallb int_char w1 = true).
  { apply (forallb_imp _ int_space); [| exact W1].
    intros x Hx. unfold int_char. rewrite Hx. reflexivity. }
  assert (A2 : forallb int_char w2 = true).
  { apply (forallb_imp _ int_space); [| exact W2].
    intros x Hx. unfold int_char. rewrite Hx. reflexivity. }
  rewrite A1, A2, andb_true_r. cbn [andb].
  unfold int in H. destruct (int_strip s) as [| c s'] eqn:S; [discriminate |].
  assert (G : forall t x, int_digits 0 0 false t = Some x ->
                forallb int_char t = true).
  { intros t x Hx. apply int_digits_chars in Hx.
    apply (forallb_imp _ (fun c0 => isdigit c0 || Ascii.eqb c0 "_"%char));
      [| exact Hx].
    intros y Hy. unfold int_char. apply orb_true_iff in Hy.
    destruct Hy as [Hy | Hy]; rewrite Hy;
      repeat rewrite orb_true_r; reflexivity. }
  destruct (Ascii.eqb c "-"%char) eqn:M.
  - cbn [forallb]. unfold int_char at 1. rewrite M. rewrite !orb_true_r.
    cbn [andb]. destruct (int_digits 0 0 false s') as [x |] eqn:X; [| discriminate].
    apply (G _ _ X).
  - destruct (Ascii.eqb c "+"%char) eqn:P.
    + cbn [forallb]. unfold int_char at 1. rewrite P. rewrite !orb_true_r.
      cbn [andb]. apply (G _ _ H).
    + apply (G _ _ H).
Qed.

Lemma int_char_not_x : forall c, int_char c = true -> Ascii.eqb c "x"%char = false.
Proof.
  intros c H. destruct (Ascii.eqb c "x"%char) eqn:E; [| reflexivity].
  apply Ascii.eqb_eq in E. subst c. discriminate.
Qed.

Lemma int_free_of_x : forall s v, int s = Some v -> free_of "x"%char s = true.
Proof.
  intros s v H. apply int_chars in H. unfold free_of.
  apply (forallb_imp _ int_char); [| exact H].
  intros c Hc. rewrite (int_char_not_x _ Hc). reflexivity.
Qed.

Lemma str_of_Z_free_of_x : forall n, free_of "x"%char (str_of_Z n) = true.
Proof.
  intros n. unfold free_of. apply forallb_forall. intros c Hc.
  apply negb_true_iff.
  assert (D : isdigit c = true \/ c = "-"%char).
  { revert Hc. unfold str_of_Z, NilZero.string_of_int.
    destruct (Z.to_int n) as [d | d].
    - unfold NilZero.string_of_uint. destruct d; intros H;
        try (left; apply (uint_chars _ _ H)).
      cbn in H. destruct H as [<- | []]. left. reflexivity.
    - cbn [py list_ascii_of_string]. intros [<- | H]; [right; reflexivity |].
      unfold NilZero.string_of_uint in H. destruct d;
        try (left; apply (uint_chars _ _ H)).
      cbn in H. destruct H as [<- | []]. left. reflexivity. }
  destruct D as [D | ->]; [apply digit_not_x; exact D | reflexivity].
Qed.

(** What [validate_dimensions] does once both sides are read. *)
Lemma validate_dimensions_read : forall a b w h,
  free_of "x"%char a = true ->
  int a = Some w -> int b = Some h ->
  validate_dimensions (a ++ "x"%char :: b)
  = if (w <=? 0)%Z || (h <=? 0)%Z then Raise not_positive else Ok (w, h).
Proof.
  intros a b w h F A B. unfold validate_dimensions.
  rewrite contains_x. cbn [negb]. rewrite (split1_free _ _ _ F), A, B.
  reflexivity.
Qed.

(** X10. Dimensions written as width, [x], height from two integers are
    read back as these integers by [validate_dimensions], which rejects
    them with the error of a side that is not positive exactly when one is
    zero or negative; the validator of the configuration accepts them in
    either case; and for positive sides the check against the format
    succeeds, with the flag that says whether the size is a usual one. *)
Theorem X10_dimensions_read_back :
  forall w h,
    length (str_of_Z w) <= int_max_str_digits ->
    length (str_of_Z h) <= int_max_str_digits ->
    validate_dimensions (dimensions_of w h)
    = (if (w <=? 0)%Z || (h <=? 0)%Z then Raise not_positive else Ok (w, h))
    /\ CreativeConfig_validate_dimensions (dimensions_of w h)
       = Ok (dimensions_of w h)
    /\ (forall fmt, (0 < w)%Z -> (0 < h)%Z ->
          validate_creative_format_dimensions fmt (dimensions_of w h)
          = Ok (size_in (w, h)
                  (match fmt with
                   | RUNWAY => valid_runway_sizes
                   | _ => valid_video_companion_sizes
                   end))).
Proof.
  intros w h Lw Lh. unfold dimensions_of. cbn [py list_ascii_of_string app].
  pose proof (int_str_of_Z w Lw) as Iw. pose proof (int_str_of_Z h Lh) as Ih.
  pose proof (str_of_Z_free_of_x w) as Fw. pose proof (str_of_Z_free_of_x h) as Fh.
  pose proof (validate_dimensions_read _ _ _ _ Fw Iw Ih) as V.
  split; [exact V |]. split.
  - unfold CreativeConfig_validate_dimensions.
    rewrite (split_free_cons _ _ _ Fw), (split_free _ _ Fh), Iw, Ih. reflexivity.
  - intros fmt Pw Ph. unfold validate_creative_format_dimensions. rewrite V.
    assert (N : (w <=? 0)%Z || (h <=? 0)%Z = false).
    { apply orb_false_iff. split; apply Z.leb_gt; assumption. }
    rewrite N. cbn [bind]. destruct fmt; reflexivity.
Qed.

Lemma X10_dimensions_read_back_witness :
  length (str_of_Z 320) <= int_max_str_digits
  /\ length (str_of_Z 50) <= int_max_str_digits
  /\ dimensions_of 320 50 = py "320x50"
  /\ validate_dimensions (dimensions_of 320 50) = Ok (320, 50)%Z.
Proof.
  assert (L1 : length (str_of_Z 320) <= int_max_str_digits)
    by (apply Nat.leb_le; vm_compute; reflexivity).
  assert (L2 : length (str_of_Z 50) <= int_max_str_digits)
    by (apply Nat.leb_le; vm_compute; reflexivity).
  split; [exact L1 |]. split; [exact L2 |]. split; [reflexivity |].
  exact (proj1 (X10_dimensions_read_back 320 50 L1 L2)).
Defined.

(** X11. The validator of the configuration is the weaker of the two
    checks of the dimensions: it accepts a text exactly when
    [validate_dimensions] accepts it or rejects it only because a side is
    not positive. *)
Theorem X11_construction_check_is_the_weaker_one :
  forall d,
    CreativeConfig_validate_dimensions d = Ok d
    <-> ((exists wh, validate_dimensions d = Ok wh)
         \/ validate_dimensions d = Raise not_positive).
Proof.
  intros d. split.
  - intros H. unfold CreativeConfig_validate_dimensions in H.
    destruct (split "x"%char d) as [| a [| b [| ? ?]]] eqn:E; try discriminate.
    destruct (int a) as [w |] eqn:A; [| discriminate].
    destruct (int b) as [h |] eqn:B; [| discriminate].
    apply split_two in E. subst d.
    rewrite (validate_dimensions_read _ _ _ _ (int_free_of_x _ _ A) A B).
    destruct ((w <=? 0)%Z || (h <=? 0)%Z); [right; reflexivity |].
    left. eexists. reflexivity.
  - intros H.
    assert (R : exists a b w h,
               d = a ++ "x"%char :: b /\ free_of "x"%char a = true
               /\ int a = Some w /\ int b = Some h).
    { unfold validate_dimensions in H.
      destruct (negb (contains (py "x") d));
        [destruct H as [[wh H] | H]; discriminate |].
      destruct (split1 "x"%char d) as [| a [| b [| ? ?]]] eqn:E;
        try (destruct H as [[wh H] | H]; discriminate).
      destruct (int a) as [w |] eqn:A;
        [| destruct H as [[wh H] | H]; discriminate].
      destruct (int b) as [h |] eqn:B;
        [| destruct H as [[wh H] | H]; discriminate].
      apply split1_two in E. destruct E as [E F].
      exists a, b, w, h. repeat split; assumption. }
    destruct R as [a [b [w [h [-> [F [A B]]]]]]].
    unfold CreativeConfig_validate_dimensions.
    rewrite (split_free_cons _ _ _ F), (split_free _ _ (int_free_of_x _ _ B)), A, B.
    reflexivity.
Qed.

(** ** The table of processed creatives *)




Lemma select_without_same : forall cid rows, select_by_id cid (without cid rows) = [].
Proof.
  intros cid rows. apply select_by_id_absent. intros r Hr.
  unfold without in Hr. apply filter_In in Hr. destruct Hr as [_ Hr].
  apply negb_true_iff in Hr. apply str_eqb_neq. exact Hr.
Qed.

Lemma select_without_other : forall cid other rows,
  other <> cid ->
  select_by_id other (without cid rows) = select_by_id other rows.
Proof.
  intros cid other rows N. unfold select_by_id, without.
  induction rows as [| r rows IH]; [reflexivity |].
  cbn [filter]. destruct (str_eqb (row_creative_id r) cid) eqn:C; cbn [negb].
  - apply str_eqb_eq in C.
    assert (O : str_eqb (row_creative_id r) other = false).
    { apply str_eqb_neq. rewrite C. congruence. }
    rewrite O. exact IH.
  - cbn [filter]. rewrite IH. reflexivity.
Qed.

(** X14. After [delete_processed_creative] has returned [True] the table
    holds the rows of all other identifiers and none of this one: looking
    the creative up gives [None], deleting it again gives [False], and the
    selection under any other identifier is what it was. *)
Theorem X14_a_deleted_creative_is_gone :
  forall creative_id w w',
    delete_processed_creative creative_id w = (Ok true, w') ->
    db w' = without creative_id (db w)
    /\ fetched w' = fetched w
    /\ get_processed_creative creative_id w' = (Ok None, w')
    /\ delete_processed_creative creative_id w' = (Ok false, w')
    /\ (forall other, other <> creative_id ->
          select_by_id other (db w') = select_by_id other (db w)).
Proof.
  intros cid w w' H. unfold delete_processed_creative in H.
  destruct (scalar_one_or_none (select_by_id cid (db w))) as [[r |] | e];
    try discriminate.
  unfold mbind, session_delete, ret in H. injection H as <-.
  cbn [db fetched]. fold (without cid (db w)).
  split; [reflexivity |]. split; [reflexivity |].
  unfold get_processed_creative, delete_processed_creative. cbn [db].
  rewrite select_without_same. cbn [scalar_one_or_none].
  split; [reflexivity |]. split; [reflexivity |].
  intros other N. apply select_without_other. exact N.
Qed.

Lemma X14_deleted_witness :
  delete_processed_creative (uuid4 (env_of test_creative)) world_one
  = (Ok true, mkWorld [] [kargo_url])
  /\ get_processed_creative (uuid4 (env_of test_creative))
       (mkWorld [] [kargo_url])
     = (Ok None, mkWorld [] [kargo_url]).
Proof.
  assert (E : delete_processed_creative (uuid4 (env_of test_creative)) world_one
              = (Ok true, mkWorld [] [kargo_url]))
    by (vm_compute; reflexivity).
  split; [exact E |].
  exact (proj1 (proj2 (proj2
           (X14_a_deleted_creative_is_gone (uuid4 (env_of test_creative))
              world_one (mkWorld [] [kargo_url]) E)))).
Defined.

(** ** The retry wrapper *)

Section RetryFacts.

Context {S A : Type}.
Variable max_attempts wait_multiplier wait_max : Z.
Variable exceptions : exception -> bool.
Variable func : S -> outcome A * S.

(** One turn of the loop. *)
Lemma attempts_turn : forall n attempt last s slept,
  attempts max_attempts wait_multiplier wait_max exceptions func (Datatypes.S n) attempt last s slept
  = match func s with
    | (Returned a, s') => mkRun (Returned (Some a)) s' slept
    | (Raised e, s') =>
        if retried exceptions e && negb (attempt =? max_attempts - 1)%Z
        then attempts max_attempts wait_multiplier wait_max exceptions func n (attempt + 1)%Z (Some e) s'
               (slept ++ [wait_time wait_multiplier wait_max attempt])
        else mkRun (Raised e) s' slept
    end.
Proof.
  intros n attempt last s slept. cbn [attempts].
  destruct (func s) as [[a | e] s']; [reflexivity |].
  unfold retried, should_retry_http_error.
  destruct (retry_exceptions exceptions e); cbn [orb andb].
  - destruct (attempt =? max_attempts - 1)%Z; reflexivity.
  - destruct (retryable_status e) as [c |]; [| reflexivity].
    destruct (status_in c RETRIABLE_STATUS_CODES); cbn [negb andb];
      [| reflexivity].
    destruct (attempt =? max_attempts - 1)%Z; reflexivity.
Qed.

(** What the attempts max_attempts wait_multiplier wait_max exceptions func leaves: the waits follow the schedule, and the outcome
    is the one of the last call. *)
Lemma attempts_spec : forall n attempt last s slept,
  (attempt + Z.of_nat n = max_attempts)%Z ->
  (0 < n) ->
  let r := attempts max_attempts wait_multiplier wait_max exceptions func n attempt last s slept in
  exists k s0 o,
    k < n
    /\ run_sleeps r = slept ++ backoff wait_multiplier wait_max attempt k
    /\ after_failures exceptions func k s = Some s0
    /\ func s0 = (o, run_final r)
    /\ run_result r = passed_on o
    /\ (forall e, o = Raised e -> retried exceptions e = true -> Datatypes.S k = n).
Proof.
  induction n as [| n IH]; intros attempt last s slept Hn Hpos r; [lia |].
  subst r. rewrite attempts_turn.
  destruct (func s) as [[a | e] s'] eqn:F.
  - exists 0, s, (Returned a). cbn [run_sleeps run_final run_result backoff after_failures].
    rewrite app_nil_r. repeat split; try lia; try assumption.
    intros e H. discriminate.
  - destruct (retried exceptions e) eqn:R; cbn [andb].
    + destruct (attempt =? max_attempts - 1)%Z eqn:L; cbn [negb].
      * apply Z.eqb_eq in L.
        exists 0, s, (Raised e). cbn [run_sleeps run_final run_result backoff after_failures].
        rewrite app_nil_r. repeat split; try lia; try assumption.
      * apply Z.eqb_neq in L. destruct n as [| n']; [lia |].
        destruct (IH (attempt + 1)%Z (Some e) s'
                     (slept ++ [wait_time wait_multiplier wait_max attempt])
                     ltac:(lia) ltac:(lia))
          as [k [s0 [o [K1 [K2 [K3 [K4 [K5 K6]]]]]]]].
        exists (Datatypes.S k), s0, o.
        split; [lia |]. split.
        { rewrite K2. rewrite <- app_assoc. reflexivity. }
        split.
        { cbn [after_failures]. rewrite F, R. exact K3. }
        split; [exact K4 |]. split; [exact K5 |].
        intros e0 E0 R0. specialize (K6 e0 E0 R0). lia.
    + exists 0, s, (Raised e). cbn [run_sleeps run_final run_result backoff after_failures].
      rewrite app_nil_r. repeat split; try lia; try assumption.
      intros e0 E0 R0. injection E0 as <-. congruence.
Qed.

End RetryFacts.

Lemma backoff_length : forall m x from n, length (backoff m x from n) = n.
Proof.
  intros m x from n. revert from. induction n as [| n IH]; intros from;
    [reflexivity |].
  cbn [backoff length]. rewrite IH. reflexivity.
Qed.

Lemma backoff_bound : forall m x from n t,
  In t (backoff m x from n) -> (t <= x)%Z.
Proof.
  intros m x from n. revert from. induction n as [| n IH]; intros from t H;
    [destruct H |].
  cbn [backoff] in H. destruct H as [<- | H].
  - unfold wait_time. apply Z.le_min_r.
  - apply (IH _ _ H).
Qed.

(** The calls the wrapper makes on a function that counts them. *)
Lemma after_failures_counting : forall (S A : Type) exceptions
  (func : S -> outcome A * S) k s n sn,
  after_failures exceptions (counting func) k (s, n) = Some sn ->
  snd sn = n + k.
Proof.
  intros S A exceptions func. induction k as [| k IH]; intros s n sn H.
  - cbn [after_failures] in H. injection H as <-. cbn [snd]. lia.
  - cbn [after_failures] in H. unfold counting at 1 in H. cbn [fst snd] in H.
    destruct (func s) as [[a | e] s']; [discriminate |].
    destruct (retried exceptions e); [| discriminate].
    apply IH in H. lia.
Qed.

(** X16. How often a function decorated by [retry_async] is called.
    With at least one attempt it is called at least once and at most
    [max_attempts] times, and the wrapper never returns [None] of its own;
    with [max_attempts] zero or negative it is not called at all and the
    wrapper returns [None].  In either case the waits between the calls
    are the exponential schedule, one for each call but the last, and none
    is longer than [wait_max]. *)
Theorem X16_retries_are_bounded_and_follow_the_schedule :
  forall (S A : Type) max_attempts wait_multiplier wait_max exceptions
         (func : S -> outcome A * S) s,
    let r := retry_async max_attempts wait_multiplier wait_max exceptions
               (counting func) (s, 0) in
    let calls := snd (run_final r) in
    ((1 <= max_attempts)%Z ->
       1 <= calls /\ (Z.of_nat calls <= max_attempts)%Z
       /\ run_result r <> Returned None)
    /\ ((max_attempts <= 0)%Z -> r = mkRun (Returned None) (s, 0) [])
    /\ run_sleeps r = backoff wait_multiplier wait_max 0 (calls - 1)
    /\ (forall t, In t (run_sleeps r) -> (t <= wait_max)%Z).
Proof.
  intros S A max_attempts m x exceptions func s r calls.
  destruct (Z_le_gt_dec max_attempts 0) as [Z | P].
  - assert (E : r = mkRun (Returned None) (s, 0) []).
    { subst r. unfold retry_async.
      replace (Z.to_nat max_attempts) with 0 by lia. reflexivity. }
    split; [intros H; lia |]. split; [intros _; exact E |].
    subst calls. rewrite E. cbn [run_sleeps run_final snd backoff].
    split; [reflexivity | intros t []].
  - destruct (@attempts_spec (S * nat) A max_attempts m x exceptions
                (counting func) (Z.to_nat max_attempts) 0%Z None (s, 0) []
                ltac:(lia) ltac:(lia))
      as [k [s0 [o [K1 [K2 [K3 [K4 [K5 _]]]]]]]].
    fold (retry_async max_attempts m x exceptions (counting func) (s, 0))
      in K2, K4, K5.
    fold r in K2, K4, K5. cbn [app] in K2.
    apply after_failures_counting in K3. cbn [plus] in K3.
    assert (C : calls = Datatypes.S k).
    { subst calls. unfold counting in K4. destruct (func (fst s0)) as [o' s'].
      injection K4 as _ K4. rewrite <- K4. cbn [snd]. rewrite K3. reflexivity. }
    rewrite C. split.
    + intros _. split; [lia |]. split; [lia |].
      rewrite K5. destruct o; discriminate.
    + split; [intros H; lia |]. split.
      * rewrite K2. replace (Datatypes.S k - 1) with k by lia. reflexivity.
      * intros t Ht. rewrite K2 in Ht. apply (backoff_bound _ _ _ _ _ Ht).
Qed.

Lemma X16_retries_witness :
  (1 <= 3)%Z
  /\ snd (run_final (retry_async 3 2 30 no_exceptions (counting flaky) (0, 0))) = 3
  /\ run_sleeps (retry_async 3 2 30 no_exceptions (counting flaky) (0, 0))
     = [2; 4]%Z
  /\ run_result (retry_async 3 2 30 no_exceptions (counting flaky) (0, 0))
     <> Returned None
  /\ (0 <= 0)%Z
  /\ retry_async 0 1 10 no_exceptions (counting working) (0, 0)
     = mkRun (Returned None) (0, 0) [].
Proof.
  assert (H : (1 <= 3)%Z) by lia.
  assert (Z : (0 <= 0)%Z) by lia.
  split; [exact H |].
  pose proof (X16_retries_are_bounded_and_follow_the_schedule
                nat nat 3 2 30 no_exceptions flaky 0) as P.
  pose proof (X16_retries_are_bounded_and_follow_the_schedule
                nat nat 0 1 10 no_exceptions working 0) as Q.
  cbv zeta in P, Q. destruct P as [P1 [_ [B _]]]. destruct Q as [_ [Q _]].
  destruct (P1 H) as [_ [_ C]].
  split; [reflexivity |]. split; [exact B |]. split; [exact C |].
  split; [exact Z | exact (Q Z)].
Defined.

Section RetryRuns.

Context {S A : Type}.
Variable max_attempts wait_multiplier wait_max : Z.
Variable exceptions : exception -> bool.
Variable func : S -> outcome A * S.

Lemma backoff_app : forall from k,
  backoff wait_multiplier wait_max from (Datatypes.S k)
  = backoff wait_multiplier wait_max from k
    ++ [wait_time wait_multiplier wait_max (from + Z.of_nat k)].
Proof.
  intros from k. revert from. induction k as [| k IH]; intros from.
  - cbn [backoff app]. rewrite Z.add_0_r. reflexivity.
  - change (backoff wait_multiplier wait_max from (Datatypes.S (Datatypes.S k)))
      with (wait_time wait_multiplier wait_max from
            :: backoff wait_multiplier wait_max (from + 1) (Datatypes.S k)).
    rewrite IH. cbn [backoff app].
    replace (from + 1 + Z.of_nat k)%Z with (from + Z.of_nat (Datatypes.S k))%Z by lia.
    reflexivity.
Qed.

Lemma attempts_skip : forall k n attempt last s slept sk,
  after_failures exceptions func k s = Some sk ->
  (attempt + Z.of_nat (n + k + 1) = max_attempts)%Z ->
  exists last',
    attempts max_attempts wait_multiplier wait_max exceptions func (n + k + 1) attempt last s slept
    = attempts max_attempts wait_multiplier wait_max exceptions func (n + 1) (attempt + Z.of_nat k)%Z last' sk
        (slept ++ backoff wait_multiplier wait_max attempt k).
Proof.
  induction k as [| k IH]; intros n attempt last s slept sk H E.
  - cbn [after_failures] in H. injection H as <-. exists last.
    cbn [backoff]. rewrite app_nil_r, Z.add_0_r, Nat.add_0_r. reflexivity.
  - cbn [after_failures] in H.
    destruct (func s) as [[a | e] s'] eqn:F; [discriminate |].
    destruct (retried exceptions e) eqn:R; [| discriminate].
    replace (n + Datatypes.S k + 1) with (Datatypes.S (n + k + 1)) by lia.
    rewrite attempts_turn. rewrite F, R.
    assert (L : (attempt =? max_attempts - 1)%Z = false) by (apply Z.eqb_neq; lia).
    rewrite L. cbn [negb andb].
    destruct (IH n (attempt + 1)%Z (Some e) s'
                (slept ++ [wait_time wait_multiplier wait_max attempt]) sk H
                ltac:(lia)) as [last' E'].
    exists last'. rewrite E'. f_equal; [lia |].
    rewrite <- app_assoc. reflexivity.
Qed.

End RetryRuns.

(** X17. What the wrapper returns is decided by the first call that does
    not raise something it retries.  After [k] calls in a row that raise
    such exceptions, with [k] below [max_attempts], the next call is made
    after the first [k] waits of the schedule: when it returns, the wrapper
    returns its value; when it raises, the wrapper raises the same
    exception if that is not retried (it is neither transient, nor of a
    class given to the decorator, nor a [RetryableHTTPError] with a
    retriable status code) or if it was the last attempt. *)
Theorem X17_the_first_decisive_call_decides :
  forall (S A : Type) max_attempts wait_multiplier wait_max exceptions
         (func : S -> outcome A * S) k s sk,
    after_failures exceptions func k s = Some sk ->
    (Z.of_nat k < max_attempts)%Z ->
    let r := retry_async max_attempts wait_multiplier wait_max exceptions func s in
    match func sk with
    | (Returned a, s') =>
        r = mkRun (Returned (Some a)) s' (backoff wait_multiplier wait_max 0 k)
    | (Raised e, s') =>
        retried exceptions e = false \/ Z.of_nat k = (max_attempts - 1)%Z ->
        r = mkRun (Raised e) s' (backoff wait_multiplier wait_max 0 k)
    end.
Proof.
  intros S A max_attempts m x exceptions func k s sk H L r. subst r.
  unfold retry_async.
  replace (Z.to_nat max_attempts) with ((Z.to_nat max_attempts - k - 1) + k + 1)
    by lia.
  destruct (attempts_skip max_attempts m x exceptions func k
              (Z.to_nat max_attempts - k - 1) 0%Z None s [] sk H ltac:(lia))
    as [last' E].
  rewrite E. replace (Z.to_nat max_attempts - k - 1 + 1)
    with (Datatypes.S (Z.to_nat max_attempts - k - 1)) by lia.
  rewrite attempts_turn. cbn [app].
  destruct (func sk) as [[a | e] s']; [reflexivity |].
  intros [R | Last].
  - rewrite R. reflexivity.
  - assert (X : (0 + Z.of_nat k =? max_attempts - 1)%Z = true)
      by (apply Z.eqb_eq; lia).
    rewrite X, andb_false_r. reflexivity.
Qed.

Lemma X17_decisive_call_witness :
  after_failures no_exceptions busy 2 0 = Some 2
  /\ (2 < 3)%Z
  /\ amazon_dsp_retry_async busy 0 = mkRun (Returned (Some 2)) 3 [2; 4]%Z
  /\ should_retry_http_error (HTTPStatusError 503) = true
  /\ amazon_dsp_retry_async unavailable 0
     = mkRun (Raised (HTTPStatusError 503)) 1 [].
Proof.
  assert (H : after_failures no_exceptions busy 2 0 = Some 2) by reflexivity.
  assert (L : (Z.of_nat 2 < 3)%Z) by (cbn; lia).
  assert (H0 : after_failures no_exceptions unavailable 0 0 = Some 0)
    by reflexivity.
  assert (L0 : (Z.of_nat 0 < 3)%Z) by (cbn; lia).
  split; [exact H |]. split; [lia |].
  split; [exact (X17_the_first_decisive_call_decides nat nat 3 2 30
                   no_exceptions busy 2 0 2 H L) |].
  split; [reflexivity |].
  exact (X17_the_first_decisive_call_decides nat nat 3 2 30 no_exceptions
           unavailable 0 0 0 H0 L0 (or_introl eq_refl)).
Defined.

(** ** The circuit breaker *)

Section BreakerFacts.

Variable Time : Type.
Variable elapsed_at_least : Time -> Time -> Z -> bool.
Variable failure_threshold recovery_timeout : Z.
Variable expected_exception : exception -> bool.

Lemma on_success_ok : forall self : CircuitBreaker Time,
  breaker_ok failure_threshold self ->
  breaker_ok failure_threshold (_on_success Time self).
Proof.
  intros self [I1 [I2 I3]]. unfold breaker_ok, _on_success.
  cbn [failure_count last_failure_time state].
  split; [lia |]. split; intros N; exfalso; apply N; reflexivity.
Qed.

Lemma on_failure_ok : forall later (self : CircuitBreaker Time),
  breaker_ok failure_threshold self ->
  breaker_ok failure_threshold (_on_failure Time failure_threshold later self).
Proof.
  intros later self [I1 [I2 I3]]. unfold breaker_ok, _on_failure.
  cbn [failure_count last_failure_time state].
  split; [lia |]. split; [| intros _; discriminate].
  destruct (failure_threshold <=? failure_count self + 1)%Z eqn:T.
  - intros _. apply Z.leb_le. exact T.
  - intros N. specialize (I2 N). lia.
Qed.

Lemma half_open_ok : forall self : CircuitBreaker Time,
  breaker_ok failure_threshold self ->
  state self = open ->
  breaker_ok failure_threshold
    (mkCircuitBreaker (failure_count self) (last_failure_time self) half_open).
Proof.
  intros self [I1 [I2 I3]] O. unfold breaker_ok.
  cbn [failure_count last_failure_time state].
  split; [exact I1 |]. split; [| exact I3].
  intros _. apply I2. rewrite O. discriminate.
Qed.

Lemma breaker_ok_kept : forall (S A : Type) (func : S -> outcome A * S)
  now later s self,
  breaker_ok failure_threshold self ->
  breaker_ok failure_threshold
    (snd (breaker_call Time elapsed_at_least failure_threshold recovery_timeout
            expected_exception func now later s self)).
Proof.
  intros S A func now later s self I. unfold breaker_call.
  destruct (state self) eqn:St.
  - destruct (func s) as [[a | e] s']; cbn [snd].
    + apply on_success_ok. exact I.
    + destruct (expected_exception e); cbn [snd];
        [apply on_failure_ok |]; exact I.
  - pose proof (half_open_ok self I St) as H.
    destruct (_should_attempt_reset Time elapsed_at_least recovery_timeout
                now self); [| exact I].
    destruct (func s) as [[a | e] s']; cbn [snd].
    + apply on_success_ok. exact H.
    + destruct (expected_exception e); cbn [snd];
        [apply on_failure_ok |]; exact H.
  - destruct (func s) as [[a | e] s']; cbn [snd].
    + apply on_success_ok. exact I.
    + destruct (expected_exception e); cbn [snd];
        [apply on_failure_ok |]; exact I.
Qed.

End BreakerFacts.

Section BreakerHistory.

Variable Time : Type.
Variable elapsed_at_least : Time -> Time -> Z -> bool.
Variable failure_threshold recovery_timeout : Z.
Variable expected_exception : exception -> bool.

Context {S A : Type}.
Variable func : S -> outcome A * S.

Lemma history_ok : forall calls self,
  breaker_ok failure_threshold self ->
  breaker_ok failure_threshold
    (history elapsed_at_least failure_threshold recovery_timeout
       expected_exception func calls self).
Proof.
  induction calls as [| [[now later] s] calls IH]; intros self I; [exact I |].
  cbn [history]. apply IH. apply breaker_ok_kept. exact I.
Qed.

Lemma history_app : forall calls calls' self,
  history elapsed_at_least failure_threshold recovery_timeout
    expected_exception func (calls ++ calls') self
  = history elapsed_at_least failure_threshold recovery_timeout
      expected_exception func calls'
      (history elapsed_at_least failure_threshold recovery_timeout
         expected_exception func calls self).
Proof.
  induction calls as [| [[now later] s] calls IH]; intros calls' self;
    [reflexivity |].
  cbn [app history]. apply IH.
Qed.

(** A failure that a closed breaker counts. *)
Lemma closed_failure : forall now later s self,
  always_fails expected_exception func ->
  state self = closed ->
  snd (breaker_call Time elapsed_at_least failure_threshold recovery_timeout
         expected_exception func now later s self)
  = _on_failure Time failure_threshold later self.
Proof.
  intros now later s self F C. unfold breaker_call. rewrite C.
  destruct (F s) as [e [s' [E X]]]. rewrite E, X. reflexivity.
Qed.

Lemma closed_below_threshold : forall calls self,
  always_fails expected_exception func ->
  state self = closed ->
  (failure_count self + Z.of_nat (length calls) < failure_threshold)%Z ->
  let self' := history elapsed_at_least failure_threshold recovery_timeout
                 expected_exception func calls self in
  state self' = closed
  /\ failure_count self' = (failure_count self + Z.of_nat (length calls))%Z.
Proof.
  induction calls as [| [[now later] s] calls IH]; intros self F C L.
  - cbn [history length]. split; [exact C | cbn; lia].
  - cbn [history]. rewrite (closed_failure now later s self F C).
    cbn [length] in L.
    assert (T : (failure_threshold <=? failure_count self + 1)%Z = false)
      by (apply Z.leb_gt; lia).
    destruct (IH (_on_failure Time failure_threshold later self) F) as [H1 H2].
    + unfold _on_failure. cbn [state]. rewrite T. exact C.
    + unfold _on_failure. cbn [failure_count]. lia.
    + split; [exact H1 |]. rewrite H2. unfold _on_failure.
      cbn [failure_count length]. lia.
Qed.

End BreakerHistory.

(** X18. Whatever calls a new circuit breaker has seen, its failure count
    is not negative; when it is open or half-open the count has reached the
    threshold; and once a failure is counted the time of the last failure
    is recorded. *)
Theorem X18_breaker_invariant :
  forall (Time : Type) elapsed_at_least failure_threshold recovery_timeout
         expected_exception (S A : Type) (func : S -> outcome A * S) calls,
    breaker_ok failure_threshold
      (history elapsed_at_least failure_threshold recovery_timeout
         expected_exception func calls (CircuitBreaker_new Time)).
Proof.
  intros Time elapsed thr timeout expected S A func calls.
  apply history_ok. unfold breaker_ok, CircuitBreaker_new.
  cbn [failure_count last_failure_time state].
  split; [lia |]. split; intros N; exfalso; apply N; reflexivity.
Qed.

(** X19. What a call through the breaker does.  A call that the breaker
    turns away, because it is open and the recovery timeout has not passed,
    raises without calling the function and changes nothing.  Any other
    call is passed to the function: when it returns, the breaker is closed
    and its count is zero; when it raises an expected exception, the count
    grows by one, the time is recorded and the breaker is open exactly when
    the new count reaches the threshold; when it raises another exception,
    count and time stay, and a breaker that was not closed is left
    half-open. *)
Theorem X19_breaker_after_a_call :
  forall (Time : Type) elapsed_at_least failure_threshold recovery_timeout
         expected_exception (S A : Type) (func : S -> outcome A * S)
         now later s self,
    breaker_ok failure_threshold self ->
    let '(o, s', self') :=
      breaker_call Time elapsed_at_least failure_threshold recovery_timeout
        expected_exception func now later s self in
    (rejected elapsed_at_least recovery_timeout now self ->
       o = Raised (PlainException (py "Circuit breaker is OPEN"))
       /\ s' = s /\ self' = self)
    /\ (~ rejected elapsed_at_least recovery_timeout now self ->
        func s = (o, s')
        /\ match o with
           | Returned _ => state self' = closed /\ failure_count self' = 0%Z
           | Raised e =>
               if expected_exception e
               then failure_count self' = (failure_count self + 1)%Z
                    /\ last_failure_time self' = Some later
                    /\ (state self' = open
                        <-> (failure_threshold <= failure_count self + 1)%Z)
               else failure_count self' = failure_count self
                    /\ last_failure_time self' = last_failure_time self
                    /\ (state self = closed -> state self' = closed)
                    /\ (state self <> closed -> state self' = half_open)
           end).
Proof.
  intros Time elapsed thr timeout expected S A func now later s self
         [I1 [I2 I3]].
  unfold rejected, breaker_call.
  destruct (state self) eqn:St.
  - destruct (func s) as [[a | e] s'].
    + split; [intros [X _]; discriminate |]. intros _.
      split; [reflexivity |]. split; reflexivity.
    + destruct (expected e) eqn:X.
      * split; [intros [Y _]; discriminate |]. intros _. rewrite X.
        split; [reflexivity |]. unfold _on_failure.
        cbn [failure_count last_failure_time state]. rewrite St.
        split; [reflexivity |]. split; [reflexivity |].
        destruct (thr <=? failure_count self + 1)%Z eqn:T;
          [apply Z.leb_le in T | apply Z.leb_gt in T]; split; intros H;
          try reflexivity; try assumption; try discriminate; lia.
      * split; [intros [Y _]; discriminate |]. intros _. rewrite X.
        split; [reflexivity |]. split; [reflexivity |].
        split; [reflexivity |]. split; [intros Y; first [exact St | exact Y | discriminate] |].
        intros N; first [exact St | reflexivity | exfalso; apply N; reflexivity].
  - assert (T : (thr <= failure_count self)%Z)
      by (apply I2; discriminate).
    destruct (_should_attempt_reset Time elapsed timeout now self) eqn:R.
    + destruct (func s) as [[a | e] s'].
      * split; [intros [_ X]; discriminate |]. intros _.
        split; [reflexivity |]. split; reflexivity.
      * destruct (expected e) eqn:X.
        -- split; [intros [_ Y]; discriminate |]. intros _. rewrite X.
           split; [reflexivity |]. unfold _on_failure.
           cbn [failure_count last_failure_time state].
           split; [reflexivity |]. split; [reflexivity |].
           destruct (thr <=? failure_count self + 1)%Z eqn:T';
             [apply Z.leb_le in T' | apply Z.leb_gt in T']; split; intros H;
             try reflexivity; try assumption; try discriminate; lia.
        -- split; [intros [_ Y]; discriminate |]. intros _. rewrite X.
           cbn [failure_count last_failure_time state].
           split; [reflexivity |]. split; [reflexivity |].
           split; [reflexivity |]. split; [intros Y; discriminate |].
           intros _. reflexivity.
    + split.
      * intros _. split; [reflexivity |]. split; reflexivity.
      * intros N. exfalso. apply N. split; reflexivity.
  - assert (T : (thr <= failure_count self)%Z)
      by (apply I2; discriminate).
    destruct (func s) as [[a | e] s'].
    + split; [intros [X _]; discriminate |]. intros _.
      split; [reflexivity |]. split; reflexivity.
    + destruct (expected e) eqn:X.
      * split; [intros [Y _]; discriminate |]. intros _. rewrite X.
        split; [reflexivity |]. unfold _on_failure.
        cbn [failure_count last_failure_time state]. rewrite St.
        split; [reflexivity |]. split; [reflexivity |].
        destruct (thr <=? failure_count self + 1)%Z eqn:T';
          [apply Z.leb_le in T' | apply Z.leb_gt in T']; split; intros H;
          try reflexivity; try assumption; try discriminate; lia.
      * split; [intros [Y _]; discriminate |]. intros _. rewrite X.
        split; [reflexivity |]. split; [reflexivity |].
        split; [reflexivity |]. split; [intros Y; first [exact St | exact Y | discriminate] |].
        intros N; first [exact St | reflexivity | exfalso; apply N; reflexivity].
Qed.

Lemma X19_breaker_witness :
  breaker_ok 1 (CircuitBreaker_new Z)
  /\ failure_count
       (snd (breaker_call Z seconds_passed 1 60 any_exception missing
               100%Z 101%Z 0 (CircuitBreaker_new Z))) = 1%Z
  /\ state
       (snd (breaker_call Z seconds_passed 1 60 any_exception missing
               100%Z 101%Z 0 (CircuitBreaker_new Z))) = open.
Proof.
  assert (I : breaker_ok 1 (CircuitBreaker_new Z)).
  { unfold breaker_ok, CircuitBreaker_new.
    cbn [failure_count last_failure_time state].
    split; [lia |]. split; intros N; exfalso; apply N; reflexivity. }
  split; [exact I |].
  assert (NR : ~ rejected seconds_passed 60 100%Z (CircuitBreaker_new Z))
    by (intros [Y _]; discriminate).
  pose proof (X19_breaker_after_a_call Z seconds_passed 1 60 any_exception
                nat nat missing 100%Z 101%Z 0 (CircuitBreaker_new Z) I) as P.
  destruct P as [_ P]. destruct (P NR) as [_ [C [_ O]]].
  split; [exact C |]. apply O. cbn. lia.
Defined.

(** X20. A new breaker whose function keeps raising expected exceptions
    stays closed, counting the failures, as long as there are fewer of them
    than the threshold, and is open after as many failures as the
    threshold says, or after the first one when the threshold is below
    one. *)
Theorem X20_breaker_opens_at_the_threshold :
  forall (Time : Type) elapsed_at_least failure_threshold recovery_timeout
         expected_exception (S A : Type) (func : S -> outcome A * S) calls,
    always_fails expected_exception func ->
    let self := history elapsed_at_least failure_threshold recovery_timeout
                  expected_exception func calls (CircuitBreaker_new Time) in
    ((Z.of_nat (length calls) < failure_threshold)%Z ->
       state self = closed
       /\ failure_count self = Z.of_nat (length calls))
    /\ (Z.of_nat (length calls) = Z.max 1 failure_threshold ->
        state self = open
        /\ failure_count self = Z.of_nat (length calls)).
Proof.
  intros Time elapsed thr timeout expected S A func calls F self. subst self.
  split.
  - intros L.
    destruct (closed_below_threshold Time elapsed thr timeout expected func
                calls (CircuitBreaker_new Time) F eq_refl) as [H1 H2].
    + cbn [CircuitBreaker_new failure_count]. lia.
    + split; [exact H1 |]. rewrite H2. cbn [CircuitBreaker_new failure_count].
      lia.
  - intros L.
    destruct (exists_last (l := calls)) as [calls' [[[now later] s] ->]].
    { intros ->. cbn [length] in L. lia. }
    rewrite history_app. rewrite length_app in L |- *. cbn [length] in L |- *.
    assert (B : state (history elapsed thr timeout expected func calls'
                         (CircuitBreaker_new Time)) = closed
                /\ failure_count (history elapsed thr timeout expected func calls'
                                    (CircuitBreaker_new Time))
                   = Z.of_nat (length calls')).
    { destruct calls' as [| c calls'']; [split; reflexivity |].
      destruct (closed_below_threshold Time elapsed thr timeout expected func
                  (c :: calls'') (CircuitBreaker_new Time) F eq_refl)
        as [H1 H2].
      - cbn [CircuitBreaker_new failure_count]. cbn [length] in L |- *. lia.
      - split; [exact H1 |]. rewrite H2.
        cbn [CircuitBreaker_new failure_count]. lia. }
    destruct B as [B1 B2]. cbn [history].
    rewrite (closed_failure Time elapsed thr timeout expected func now later s
               _ F B1).
    unfold _on_failure. cbn [state failure_count]. rewrite B2.
    assert (T : (thr <=? Z.of_nat (length calls') + 1)%Z = true)
      by (apply Z.leb_le; lia).
    rewrite T. split; [reflexivity | lia].
Qed.

Lemma X20_breaker_opens_witness :
  always_fails any_exception missing
  /\ state (history seconds_passed 2 60 any_exception missing
              [(100%Z, 101%Z, 0); (102%Z, 103%Z, 1)] (CircuitBreaker_new Z))
     = open.
Proof.
  assert (F : always_fails any_exception missing).
  { intros s. eexists. eexists. split; reflexivity. }
  split; [exact F |].
  pose proof (X20_breaker_opens_at_the_threshold Z seconds_passed 2 60
                any_exception nat nat missing
                [(100%Z, 101%Z, 0); (102%Z, 103%Z, 1)] F) as P.
  cbv zeta in P. destruct P as [_ P].
  exact (proj1 (P eq_refl)).
Defined.

(** ** The mock client of the snippet provider *)

Lemma lstrip_char_keep : forall x c s,
  Ascii.eqb c x = false -> MockKargoClient.lstrip_char x (c :: s) = c :: s.
Proof. intros x c s H. cbn [MockKargoClient.lstrip_char]. rewrite H. reflexivity. Qed.

Lemma rstrip_char_keep : forall x s a,
  s <> [] -> free_of x s = true ->
  MockKargoClient.rstrip_char x (a ++ s) = a ++ s.
Proof.
  intros x s a N F. unfold MockKargoClient.rstrip_char.
  rewrite rev_app_distr.
  destruct (rev s) as [| c r] eqn:R.
  - exfalso. apply N. rewrite <- (rev_involutive s), R. reflexivity.
  - assert (C : Ascii.eqb c x = false).
    { unfold free_of in F. rewrite forallb_forall in F.
      apply negb_true_iff. apply F. apply in_rev. rewrite R. left. reflexivity. }
    cbn [app]. rewrite (lstrip_char_keep _ _ _ C).
    change (c :: r ++ rev a) with ((c :: r) ++ rev a).
    rewrite <- R, <- rev_app_distr. apply rev_involutive.
Qed.

Lemma snippet_path_parts : forall snippet_id,
  snippet_id <> [] -> free_of "/"%char snippet_id = true ->
  split "/"%char (MockKargoClient.strip_char "/"%char (snippet_path snippet_id))
  = [py "snippet"; py "dm"; snippet_id].
Proof.
  intros snippet_id N F. unfold MockKargoClient.strip_char, snippet_path.
  assert (L : MockKargoClient.lstrip_char "/"%char (py "/snippet/dm/" ++ snippet_id)
              = py "snippet/dm/" ++ snippet_id) by reflexivity.
  rewrite L. rewrite (rstrip_char_keep _ _ _ N F).
  change (py "snippet/dm/" ++ snippet_id)
    with (py "snippet" ++ "/"%char :: py "dm" ++ "/"%char :: snippet_id).
  rewrite split_free_cons by reflexivity.
  rewrite split_free_cons by reflexivity.
  rewrite (split_free _ _ F). reflexivity.
Qed.

Lemma last_In : forall (A : Type) (l : list A) d, l <> [] -> In (last l d) l.
Proof.
  intros A l d. induction l as [| a l IH]; intros N; [congruence |].
  destruct l as [| b l]; [left; reflexivity |].
  right. apply IH. discriminate.
Qed.

(** X21. [_extract_snippet_id] reads the identifier back from the path of
    a snippet URL: for a path [/snippet/dm/] followed by an identifier that
    is not empty and holds no slash it returns that identifier.  For every
    path what it returns is one of the parts of the stripped path between
    slashes: the branch that answers [unknown] for a path without parts is
    never taken. *)
Theorem X21_snippet_id_is_read_from_the_path :
  forall urlpath snippet_url,
    (forall snippet_id,
       snippet_id <> [] -> free_of "/"%char snippet_id = true ->
       urlpath snippet_url = Some (snippet_path snippet_id) ->
       MockKargoClient._extract_snippet_id urlpath snippet_url
       = Returned snippet_id)
    /\ (forall path,
          urlpath snippet_url = Some path ->
          exists part,
            MockKargoClient._extract_snippet_id urlpath snippet_url
            = Returned part
            /\ In part (split "/"%char (MockKargoClient.strip_char "/"%char path))).
Proof.
  intros urlpath url. split.
  - intros snippet_id N F U. unfold MockKargoClient._extract_snippet_id.
    rewrite U. unfold MockKargoClient.snippet_id_of_path.
    rewrite (snippet_path_parts _ N F). reflexivity.
  - intros path U. unfold MockKargoClient._extract_snippet_id. rewrite U.
    eexists. split; [reflexivity |].
    unfold MockKargoClient.snippet_id_of_path.
    pose proof (split_nonempty "/"%char (MockKargoClient.strip_char "/"%char path))
      as NE.
    destruct (split "/"%char (MockKargoClient.strip_char "/"%char path))
      as [| p0 [| p1 [| p2 ps]]] eqn:E; [congruence | | |].
    + left. reflexivity.
    + cbn [length Nat.leb andb]. right. left. reflexivity.
    + destruct ((3 <=? length (p0 :: p1 :: p2 :: ps))
                && str_eqb (nth 0 (p0 :: p1 :: p2 :: ps) []) (py "snippet")
                && str_eqb (nth 1 (p0 :: p1 :: p2 :: ps) []) (py "dm")).
      * right. right. left. reflexivity.
      * apply last_In. discriminate.
Qed.

Lemma X21_snippet_id_witness :
  py "12345" <> []
  /\ free_of "/"%char (py "12345") = true
  /\ urlpath_plain kargo_url = Some (snippet_path (py "12345"))
  /\ MockKargoClient._extract_snippet_id urlpath_plain kargo_url
     = Returned (py "12345").
Proof.
  assert (N : py "12345" <> []) by discriminate.
  assert (F : free_of "/"%char (py "12345") = true) by reflexivity.
  assert (U : urlpath_plain kargo_url = Some (snippet_path (py "12345")))
    by (vm_compute; reflexivity).
  split; [exact N |]. split; [exact F |]. split; [exact U |].
  exact (proj1 (X21_snippet_id_is_read_from_the_path urlpath_plain kargo_url)
           (py "12345") N F U).
Defined.

(** What the wrapper makes of a call that returns, and of one that raises
    what is not retried. *)
Lemma retry_returns_at_once : forall (S A : Type) max_attempts wait_multiplier
  wait_max exceptions (func : S -> outcome A * S) s a s',
  (1 <= max_attempts)%Z ->
  func s = (Returned a, s') ->
  retry_async max_attempts wait_multiplier wait_max exceptions func s
  = mkRun (Returned (Some a)) s' [].
Proof.
  intros S A max_attempts m x exceptions func s a s' H F. unfold retry_async.
  destruct (Z.to_nat max_attempts) as [| n] eqn:N; [lia |].
  rewrite attempts_turn. rewrite F. reflexivity.
Qed.

Lemma retry_raises_at_once : forall (S A : Type) max_attempts wait_multiplier
  wait_max exceptions (func : S -> outcome A * S) s e s',
  (1 <= max_attempts)%Z ->
  func s = (Raised e, s') ->
  retried exceptions e = false ->
  retry_async max_attempts wait_multiplier wait_max exceptions func s
  = mkRun (Raised e) s' [].
Proof.
  intros S A max_attempts m x exceptions func s e s' H F R. unfold retry_async.
  destruct (Z.to_nat max_attempts) as [| n] eqn:N; [lia |].
  rewrite attempts_turn. rewrite F, R. reflexivity.
Qed.

(** X22. The mock client tries once.  For every URL a call of
    [get_snippet] makes one attempt, which waits the simulated latency of
    a tenth of a second, and the wrapper adds no wait of its own, since
    nothing the body raises is retried.  The call returns a response
    exactly when [validate_snippet_url] answers [True], the response then
    carries the URL that was asked for and the stored markup; otherwise it
    raises, and for an unknown identifier what it raises is the HTTP error
    404 that names the identifier. *)
Theorem X22_get_snippet_agrees_with_validate :
  forall urlpath self snippet_url,
    let r := MockKargoClient.get_snippet urlpath self snippet_url in
    run_final r = [100%Z]
    /\ run_sleeps r = []
    /\ (MockKargoClient.validate_snippet_url urlpath self snippet_url = true
        <-> exists response, run_result r = Returned (Some response))
    /\ (forall response,
          run_result r = Returned (Some response) ->
          ks_snippet_url response = snippet_url
          /\ exists snippet_id snippet_data,
               MockKargoClient._extract_snippet_id urlpath snippet_url
               = Returned snippet_id
               /\ Dict.get snippet_id (MockKargoClient._mock_snippets self)
                  = Some snippet_data
               /\ snippet_code response = snippet_code snippet_data)
    /\ (forall snippet_id,
          MockKargoClient._extract_snippet_id urlpath snippet_url
          = Returned snippet_id ->
          Dict.get snippet_id (MockKargoClient._mock_snippets self) = None ->
          run_result r
          = Raised (RetryableHTTPError 404
                      (py "Snippet not found: " ++ snippet_id))).
Proof.
  intros urlpath self url r. subst r.
  unfold MockKargoClient.get_snippet, kargo_api_retry_async,
    MockKargoClient.validate_snippet_url.
  destruct (MockKargoClient._extract_snippet_id urlpath url) as [sid | e] eqn:X.
  - unfold Dict.mem.
    destruct (Dict.get sid (MockKargoClient._mock_snippets self)) as [d |] eqn:G.
    + rewrite (retry_returns_at_once (list Z) KargoSnippetResponse 2 1 10
                 no_exceptions _ []
                 (mkKargoSnippetResponse (CreativeProcessor.snippet_id d) url
                    (snippet_code d) (ks_format d) (ks_status d)
                    (ks_dimensions d) (ks_duration d)) [100%Z] ltac:(lia));
        [| unfold MockKargoClient.get_snippet_body; rewrite X, G; reflexivity].
      cbn [run_sleeps run_result run_final].
      split; [reflexivity |]. split; [reflexivity |]. split; [| split].
      * split; [intros _; eexists; reflexivity | reflexivity].
      * intros response H. injection H as <-. split; [reflexivity |].
        exists sid, d. split; [reflexivity |]. split; [exact G | reflexivity].
      * intros sid' E N. injection E as <-. congruence.
    + rewrite (retry_raises_at_once (list Z) KargoSnippetResponse 2 1 10
                 no_exceptions _ []
                 (RetryableHTTPError 404 (py "Snippet not found: " ++ sid))
                 [100%Z] ltac:(lia));
        [| unfold MockKargoClient.get_snippet_body; rewrite X, G; reflexivity
         | reflexivity].
      cbn [run_sleeps run_result run_final].
      split; [reflexivity |]. split; [reflexivity |]. split; [| split].
      * split; [discriminate | intros [response H]; discriminate].
      * intros response H. discriminate.
      * intros sid' E N. injection E as <-. reflexivity.
  - assert (V : exists v, e = Error (ValueError v)).
    { unfold MockKargoClient._extract_snippet_id in X.
      destruct (urlpath url); [discriminate |]. injection X as <-.
      eexists. reflexivity. }
    destruct V as [v ->].
    rewrite (retry_raises_at_once (list Z) KargoSnippetResponse 2 1 10
               no_exceptions _ [] (Error (ValueError v)) [100%Z] ltac:(lia));
      [| unfold MockKargoClient.get_snippet_body; rewrite X; reflexivity
       | reflexivity].
    cbn [run_sleeps run_result run_final].
    split; [reflexivity |]. split; [reflexivity |]. split; [| split].
    + split; [discriminate | intros [response H]; discriminate].
    + intros response H. discriminate.
    + intros sid' E. discriminate.
Qed.

(** ** The mock client of the platform *)

Import MockAmazonDSPClient.

(** [str] prints different integers differently. *)
Lemma py_inj : forall a b, py a = py b -> a = b.
Proof.
  intros a b H. unfold py in H.
  rewrite <- (string_of_list_ascii_of_string a),
          <- (string_of_list_ascii_of_string b), H.
  reflexivity.
Qed.

Lemma to_int_not_nil : forall n,
  Z.to_int n <> Decimal.Pos Decimal.Nil /\ Z.to_int n <> Decimal.Neg Decimal.Nil.
Proof.
  intros [| p | p]; cbn [Z.to_int]; split; try discriminate;
    intros H; injection H as H;
    apply (DecimalPos.Unsigned.to_uint_nonnil p); exact H.
Qed.

Lemma str_of_Z_inj : forall n m, str_of_Z n = str_of_Z m -> n = m.
Proof.
  intros n m H. unfold str_of_Z in H. apply py_inj in H.
  apply DecimalZ.to_int_inj.
  destruct (to_int_not_nil n) as [N1 N2]. destruct (to_int_not_nil m) as [M1 M2].
  pose proof (NilZero.isi _ N1 N2) as A. pose proof (NilZero.isi _ M1 M2) as B.
  rewrite H in A. rewrite A in B. injection B as B. exact B.
Qed.

Lemma str_of_Z_free_of_underscore : forall n, free_of "_"%char (str_of_Z n) = true.
Proof.
  intros n. unfold free_of. apply forallb_forall. intros c Hc.
  apply negb_true_iff.
  destruct (str_of_Z_chars _ _ Hc) as [D | ->]; [| reflexivity].
  destruct (Ascii.eqb c "_"%char) eqn:E; [| reflexivity].
  apply Ascii.eqb_eq in E. subst c. discriminate.
Qed.

Lemma app_sep_inj : forall sep a a' b b',
  free_of sep a = true -> free_of sep a' = true ->
  a ++ sep :: b = a' ++ sep :: b' -> a = a' /\ b = b'.
Proof.
  intros sep a a' b b' F F' H.
  pose proof (split1_free sep a b F) as S1.
  pose proof (split1_free sep a' b' F') as S2.
  rewrite H, S2 in S1. injection S1 as -> ->. split; reflexivity.
Qed.

Lemma mock_id_inj : forall prefix timestamp timestamp' count count',
  mock_id prefix timestamp count = mock_id prefix timestamp' count' ->
  timestamp = timestamp' /\ count = count'.
Proof.
  intros prefix t t' c c' H. unfold mock_id in H.
  apply app_inv_head in H. cbn [py list_ascii_of_string app] in H.
  injection H as H.
  apply app_sep_inj in H; try apply str_of_Z_free_of_underscore.
  destruct H as [H1 H2]. apply str_of_Z_inj in H1. apply str_of_Z_inj in H2.
  split; [exact H1 | lia].
Qed.

(** The dictionaries. *)
Lemma get_In : forall (V : Type) k (d : Dict.dict V) v,
  Dict.get k d = Some v -> In (k, v) d.
Proof.
  intros V k d v. induction d as [| [k' v'] d IH]; intros H; [discriminate |].
  cbn [Dict.get] in H. destruct (str_eqb k' k) eqn:E.
  - apply str_eqb_eq in E. injection H as <-. subst k'. left. reflexivity.
  - right. apply IH. exact H.
Qed.

Lemma set_absent : forall (V : Type) k (v : V) d,
  Dict.get k d = None -> Dict.set k v d = d ++ [(k, v)].
Proof.
  intros V k v d. induction d as [| [k' v'] d IH]; intros H; [reflexivity |].
  cbn [Dict.get] in H. cbn [Dict.set app].
  destruct (str_eqb k' k); [discriminate |]. rewrite (IH H). reflexivity.
Qed.

Lemma get_set_same : forall (V : Type) k (v : V) d,
  Dict.get k (Dict.set k v d) = Some v.
Proof.
  intros V k v d. induction d as [| [k' v'] d IH].
  - cbn [Dict.set Dict.get].
    assert (E : str_eqb k k = true) by (apply str_eqb_eq; reflexivity).
    rewrite E. reflexivity.
  - cbn [Dict.set]. destruct (str_eqb k' k) eqn:E; cbn [Dict.get].
    + assert (E' : str_eqb k k = true) by (apply str_eqb_eq; reflexivity).
      rewrite E'. reflexivity.
    + rewrite E. exact IH.
Qed.

Lemma get_set_other : forall (V : Type) k k' (v : V) d,
  k' <> k -> Dict.get k' (Dict.set k v d) = Dict.get k' d.
Proof.
  intros V k k' v d N. induction d as [| [k0 v0] d IH].
  - cbn [Dict.set Dict.get].
    assert (E : str_eqb k k' = false) by (apply str_eqb_neq; congruence).
    rewrite E. reflexivity.
  - cbn [Dict.set]. destruct (str_eqb k0 k) eqn:E; cbn [Dict.get].
    + apply str_eqb_eq in E. subst k0.
      assert (E' : str_eqb k k' = false) by (apply str_eqb_neq; congruence).
      rewrite E'. reflexivity.
    + rewrite IH. reflexivity.
Qed.

Section AmazonFacts.

Variable campaign_data : Type.
Variable time_ms : nat -> Z.
Variable utcnow : nat -> Z.

(** What the body of the upload does with a request it accepts. *)
Lemma upload_body_accepted : forall request (self : client campaign_data)
  latencies,
  accepted request = true ->
  upload_creative_body campaign_data time_ms utcnow request (self, latencies)
  = (Returned
       (response_of
          (data_of
             (mock_id (py "creative") (time_ms (clock_reads self))
                (length (_creatives self) + length (_campaigns self)))
             (utcnow (Datatypes.S (clock_reads self))) request)),
     (mkClient
        (Dict.set
           (mock_id (py "creative") (time_ms (clock_reads self))
              (length (_creatives self) + length (_campaigns self)))
           (data_of
              (mock_id (py "creative") (time_ms (clock_reads self))
                 (length (_creatives self) + length (_campaigns self)))
              (utcnow (Datatypes.S (clock_reads self))) request)
           (_creatives self))
        (_campaigns self) (Datatypes.S (Datatypes.S (clock_reads self))),
      latencies ++ [200%Z])).
Proof.
  intros request self latencies H. unfold accepted in H.
  apply andb_true_iff in H. destruct H as [H1 H2].
  apply negb_true_iff in H1. apply negb_true_iff in H2.
  unfold upload_creative_body. rewrite H1, H2.
  unfold _generate_mock_id, data_of, mock_id, approved.
  cbn [_creatives _campaigns clock_reads].
  destruct (contains (py "test") (map lower (req_name request))
            || str_eqb (req_format request) (py "CUSTOM_HTML")); reflexivity.
Qed.

Lemma upload_body_refused : forall request (self : client campaign_data)
  latencies,
  accepted request = false ->
  upload_creative_body campaign_data time_ms utcnow request (self, latencies)
  = (Raised (RetryableHTTPError 400
               (if length (req_creative_code request) <? 50
                then py "Creative code too short"
                else py "Invalid dimensions")),
     (self, latencies ++ [200%Z])).
Proof.
  intros request self latencies H. unfold accepted in H.
  unfold upload_creative_body.
  destruct (length (req_creative_code request) <? 50); [reflexivity |].
  cbn [negb andb] in H. apply negb_false_iff in H. rewrite H. reflexivity.
Qed.

(** A refused upload, with its latency: one attempt, no wait of the
    wrapper. *)
Lemma upload_awaited_refused : forall request (self : client campaign_data)
  latencies,
  accepted request = false ->
  upload_creative_awaited campaign_data time_ms utcnow request (self, latencies)
  = mkRun
      (Raised (RetryableHTTPError 400
                 (if length (req_creative_code request) <? 50
                  then py "Creative code too short"
                  else py "Invalid dimensions")))
      (self, latencies ++ [200%Z]) [].
Proof.
  intros request self latencies H.
  unfold upload_creative_awaited, amazon_dsp_retry_async.
  apply retry_raises_at_once; [lia | | reflexivity].
  apply upload_body_refused. exact H.
Qed.

Lemma upload_accepted : forall request (self : client campaign_data),
  accepted request = true ->
  upload_creative campaign_data time_ms utcnow request self
  = mkRun
      (Returned
         (Some
            (response_of
               (data_of
                  (mock_id (py "creative") (time_ms (clock_reads self))
                     (length (_creatives self) + length (_campaigns self)))
                  (utcnow (Datatypes.S (clock_reads self))) request))))
      (mkClient
         (Dict.set
            (mock_id (py "creative") (time_ms (clock_reads self))
               (length (_creatives self) + length (_campaigns self)))
            (data_of
               (mock_id (py "creative") (time_ms (clock_reads self))
                  (length (_creatives self) + length (_campaigns self)))
               (utcnow (Datatypes.S (clock_reads self))) request)
            (_creatives self))
         (_campaigns self) (Datatypes.S (Datatypes.S (clock_reads self))))
      [].
Proof.
  intros request self H.
  unfold upload_creative, on_instance, upload_creative_awaited,
    amazon_dsp_retry_async.
  rewrite (retry_returns_at_once _ _ 3 2 30 no_exceptions _ _ _ _ ltac:(lia)
             (upload_body_accepted request self [] H)).
  reflexivity.
Qed.

Lemma upload_refused : forall request (self : client campaign_data),
  accepted request = false ->
  upload_creative campaign_data time_ms utcnow request self
  = mkRun
      (Raised (RetryableHTTPError 400
                 (if length (req_creative_code request) <? 50
                  then py "Creative code too short"
                  else py "Invalid dimensions")))
      self [].
Proof.
  intros request self H. unfold upload_creative, on_instance.
  rewrite (upload_awaited_refused request self [] H). reflexivity.
Qed.

(** [get_creative] returns at its first attempt and leaves the instance
    as it was. *)
Lemma get_creative_run : forall creative_id (self : client campaign_data),
  get_creative campaign_data creative_id self
  = mkRun
      (Returned (Some (match Dict.get creative_id (_creatives self) with
                       | None => None
                       | Some d => Some (response_of d)
                       end)))
      self [].
Proof.
  intros k c. unfold get_creative, on_instance, get_creative_awaited,
    amazon_dsp_retry_async.
  rewrite (retry_returns_at_once _ _ 3 2 30 no_exceptions
             (get_creative_body campaign_data k) (c, [])
             (match Dict.get k (_creatives c) with
              | None => None
              | Some d => Some (response_of d)
              end) (c, [100%Z]) ltac:(lia)); [reflexivity |].
  unfold get_creative_body. destruct (Dict.get k (_creatives c)); reflexivity.
Qed.

(** No stored creative carries the identifier that is made next. *)
Lemma next_id_fresh : forall (self : client campaign_data) timestamp,
  ids_below self ->
  Dict.get (mock_id (py "creative") timestamp
              (length (_creatives self) + length (_campaigns self)))
    (_creatives self) = None.
Proof.
  intros self t I.
  destruct (Dict.get (mock_id (py "creative") t
                        (length (_creatives self) + length (_campaigns self)))
              (_creatives self)) as [v |] eqn:G; [| reflexivity].
  apply get_In in G. destruct (I _ _ G) as [t' [c [E L]]].
  apply mock_id_inj in E. destruct E as [_ E]. lia.
Qed.

Lemma ids_below_upload : forall request (self : client campaign_data),
  ids_below self -> accepted request = true ->
  ids_below (run_final (upload_creative campaign_data time_ms utcnow request self)).
Proof.
  intros request self I H. rewrite (upload_accepted _ _ H). cbn [run_final].
  rewrite (set_absent _ _ _ _ (next_id_fresh self _ I)).
  intros k v Hin. cbn [_creatives _campaigns] in *.
  rewrite length_app. cbn [length].
  apply in_app_or in Hin. destruct Hin as [Hin | [Hin | []]].
  - destruct (I _ _ Hin) as [t [c [E L]]]. exists t, c. split; [exact E | lia].
  - injection Hin as <- _. eexists. eexists. split; [reflexivity | lia].
Qed.

End AmazonFacts.

(** X23. [upload_creative] refuses a request whose code is shorter than 50
    characters or whose width or height is not positive.  The call makes
    one attempt, which waits the simulated latency of two tenths of a
    second and then raises the HTTP error 400, naming the short code when
    both are wrong; the wrapper does not retry it and adds no wait of its
    own; and the instance is left as it was, nothing is stored. *)
Theorem X23_upload_refuses_bad_requests :
  forall (campaign_data : Type) time_ms utcnow request
         (self : client campaign_data) latencies,
    accepted request = false ->
    upload_creative_awaited campaign_data time_ms utcnow request
      (self, latencies)
    = mkRun
        (Raised (RetryableHTTPError 400
                   (if length (req_creative_code request) <? 50
                    then py "Creative code too short"
                    else py "Invalid dimensions")))
        (self, latencies ++ [200%Z]) [].
Proof.
  intros campaign_data time_ms utcnow request self latencies H.
  apply upload_awaited_refused. exact H.
Qed.

Lemma X23_upload_refuses_witness :
  accepted short_request = false
  /\ upload_creative_awaited unit ticking ticking short_request
       (fresh_amazon, [])
     = mkRun (Raised (RetryableHTTPError 400 (py "Creative code too short")))
         (fresh_amazon, [200%Z]) [].
Proof.
  assert (H : accepted short_request = false) by reflexivity.
  split; [exact H |].
  exact (X23_upload_refuses_bad_requests unit ticking ticking short_request
           fresh_amazon [] H).
Defined.

(** X24. An accepted upload never overwrites a creative.  On a client
    whose stored identifiers were all made by the client itself, the
    identifier of the response is not in use, even when the clock has not
    moved since the last upload; the upload appends one entry under it and
    leaves every other entry and the campaigns as they were; it returns at
    the first attempt; and the identifiers of the client it leaves were
    again all made by the client. *)
Theorem X24_upload_never_overwrites :
  forall (campaign_data : Type) time_ms utcnow request
         (self : client campaign_data),
    ids_below self ->
    accepted request = true ->
    let r := upload_creative campaign_data time_ms utcnow request self in
    exists response data,
      run_result r = Returned (Some response)
      /\ run_sleeps r = []
      /\ resp_creative_id response
         = mock_id (py "creative") (time_ms (clock_reads self))
             (length (_creatives self) + length (_campaigns self))
      /\ Dict.get (resp_creative_id response) (_creatives self) = None
      /\ _creatives (run_final r)
         = _creatives self ++ [(resp_creative_id response, data)]
      /\ _campaigns (run_final r) = _campaigns self
      /\ ids_below (run_final r).
Proof.
  intros campaign_data time_ms utcnow request self I H r.
  pose proof (ids_below_upload campaign_data time_ms utcnow request self I H)
    as I'.
  fold r in I'. subst r. revert I'. rewrite (upload_accepted _ _ _ _ _ H).
  cbn [run_result run_sleeps run_final _creatives _campaigns]. intros I'.
  eexists. eexists. split; [reflexivity |]. split; [reflexivity |].
  cbn [response_of resp_creative_id data_of cd_creative_id].
  split; [reflexivity |].
  split; [apply next_id_fresh; exact I |].
  split; [apply set_absent; apply next_id_fresh; exact I |].
  split; [reflexivity | exact I'].
Qed.

Lemma fresh_amazon_ids_below : ids_below fresh_amazon.
Proof. intros k v []. Qed.

Lemma X24_upload_witness :
  ids_below fresh_amazon
  /\ accepted good_request = true
  /\ exists response,
       run_result (upload_creative unit ticking ticking good_request fresh_amazon)
       = Returned (Some response)
       /\ resp_creative_id response = py "creative_0_0".
Proof.
  assert (H : accepted good_request = true) by reflexivity.
  split; [exact fresh_amazon_ids_below |]. split; [exact H |].
  destruct (X24_upload_never_overwrites unit ticking ticking good_request
              fresh_amazon fresh_amazon_ids_below H)
    as [response [data [R [_ [E _]]]]].
  exists response. split; [exact R | exact E].
Defined.

(** X25. What was uploaded is read back: after an accepted upload
    [get_creative] returns, for the identifier of the response, the very
    response of the upload, and for every other identifier what it
    returned before; for an identifier that is not stored it returns
    [None].  It never changes the client. *)
Theorem X25_uploaded_creative_reads_back :
  forall (campaign_data : Type) time_ms utcnow request
         (self : client campaign_data) response,
    run_result (upload_creative campaign_data time_ms utcnow request self)
    = Returned (Some response) ->
    let self' :=
      run_final (upload_creative campaign_data time_ms utcnow request self) in
    get_creative campaign_data (resp_creative_id response) self'
    = mkRun (Returned (Some (Some response))) self' []
    /\ (forall creative_id,
          creative_id <> resp_creative_id response ->
          run_result (get_creative campaign_data creative_id self')
          = run_result (get_creative campaign_data creative_id self))
    /\ (forall creative_id,
          Dict.get creative_id (_creatives self') = None ->
          get_creative campaign_data creative_id self'
          = mkRun (Returned (Some None)) self' []).
Proof.
  intros campaign_data time_ms utcnow request self response R self'.
  subst self'. revert R.
  destruct (accepted request) eqn:H.
  - rewrite (upload_accepted _ _ _ _ _ H). cbn [run_result run_final].
    intros R. injection R as <-.
    cbn [response_of resp_creative_id data_of cd_creative_id].
    split; [| split].
    + rewrite get_creative_run. cbn [_creatives]. rewrite get_set_same.
      reflexivity.
    + intros k N. rewrite !get_creative_run. cbn [run_result _creatives].
      rewrite (get_set_other _ _ _ _ _ N). reflexivity.
    + intros k G. rewrite get_creative_run. rewrite G. reflexivity.
  - rewrite (upload_refused _ _ _ _ _ H). cbn [run_result]. discriminate.
Qed.

Lemma X25_reads_back_witness :
  exists response,
    run_result (upload_creative unit ticking ticking good_request fresh_amazon)
    = Returned (Some response)
    /\ run_result
         (get_creative unit (resp_creative_id response)
            (run_final
               (upload_creative unit ticking ticking good_request fresh_amazon)))
       = Returned (Some (Some response)).
Proof.
  assert (F : match run_result (upload_creative unit ticking ticking good_request
                                  fresh_amazon) with
              | Returned (Some _) => true
              | _ => false
              end = true) by (vm_compute; reflexivity).
  destruct (run_result (upload_creative unit ticking ticking good_request
                          fresh_amazon)) as [[response |] | e] eqn:R;
    try discriminate.
  exists response. split; [reflexivity |].
  destruct (X25_uploaded_creative_reads_back unit ticking ticking good_request
              fresh_amazon response R) as [G _].
  rewrite G. reflexivity.
Defined.

Section BatchFacts.

Variable campaign_data : Type.
Variable time_ms : nat -> Z.
Variable utcnow : nat -> Z.

Lemma batch_results : forall requests (self : client campaign_data) results,
  let out := batch_upload_creatives campaign_data time_ms utcnow requests self
               results in
  exists responses,
    fst out = results ++ map Some responses
    /\ map resp_name responses = map req_name (filter accepted requests)
    /\ map resp_format responses = map req_format (filter accepted requests)
    /\ (ids_below self ->
        ids_below (snd out)
        /\ map fst (_creatives (snd out))
           = map fst (_creatives self) ++ map resp_creative_id responses)
    /\ _campaigns (snd out) = _campaigns self.
Proof.
  induction requests as [| request requests IH]; intros self results out.
  - exists []. subst out. cbn [batch_upload_creatives fst snd map filter].
    rewrite !app_nil_r. repeat split; try reflexivity. exact H.
  - subst out. cbn [batch_upload_creatives filter].
    destruct (accepted request) eqn:H.
    + rewrite (upload_accepted _ _ _ _ _ H). cbn [run_result run_final].
      match goal with
      | |- context [batch_upload_creatives _ _ _ requests ?c ?rs] =>
          destruct (IH c rs) as [responses [R1 [R2 [R3 [R4 R5]]]]]
      end.
      eexists (_ :: responses). cbn [map].
      split; [rewrite R1, <- app_assoc; reflexivity |].
      split; [rewrite R2; reflexivity |].
      split; [rewrite R3; reflexivity |].
      split; [| rewrite R5; reflexivity].
      intros I.
      pose proof (ids_below_upload campaign_data time_ms utcnow request self I H)
        as I'.
      rewrite (upload_accepted _ _ _ _ _ H) in I'. cbn [run_final] in I'.
      destruct (R4 I') as [R6 R7]. split; [exact R6 |].
      rewrite R7. cbn [_creatives].
      rewrite (set_absent _ _ _ _ (next_id_fresh campaign_data self _ I)).
      rewrite map_app, <- app_assoc. reflexivity.
    + rewrite (upload_refused _ _ _ _ _ H). cbn [run_result run_final].
      destruct (IH self results) as [responses [R1 [R2 [R3 [R4 R5]]]]].
      exists responses. repeat split; try assumption; apply R4; assumption.
Qed.

End BatchFacts.

(** X26. [batch_upload_creatives] returns one response for each request
    that passes the checks of the upload, in the order of the requests and
    with their names and formats, and skips the others; the campaigns stay
    as they were.  On a client whose identifiers were all made by the
    client itself the stored creatives grow by exactly the returned ones,
    in this order. *)
Theorem X26_batch_uploads_the_accepted_requests :
  forall (campaign_data : Type) time_ms utcnow requests
         (self : client campaign_data),
    let out := batch_upload_creatives campaign_data time_ms utcnow requests self
                 [] in
    exists responses,
      fst out = map Some responses
      /\ map resp_name responses = map req_name (filter accepted requests)
      /\ map resp_format responses = map req_format (filter accepted requests)
      /\ _campaigns (snd out) = _campaigns self
      /\ (ids_below self ->
          ids_below (snd out)
          /\ map fst (_creatives (snd out))
             = map fst (_creatives self) ++ map resp_creative_id responses).
Proof.
  intros campaign_data time_ms utcnow requests self out.
  destruct (batch_results campaign_data time_ms utcnow requests self [])
    as [responses [R1 [R2 [R3 [R4 R5]]]]].
  exists responses. split; [exact R1 |]. split; [exact R2 |].
  split; [exact R3 |]. split; [exact R5 | exact R4].
Qed.

(** ** The upload of a processed creative *)

Lemma upload_dimensions_constant : forall phase,
  Upload.upload_dimensions phase = Ok (320, 50)%Z.
Proof. intros []; vm_compute; reflexivity. Qed.

Lemma select_by_id_In : forall creative_id rows r,
  In r (select_by_id creative_id rows) -> row_creative_id r = creative_id.
Proof.
  intros cid rows r H. unfold select_by_id in H. apply filter_In in H.
  destruct H as [_ H]. apply str_eqb_eq. exact H.
Qed.



(** What the creative that is read from a row has of the row. *)
Lemma ProcessedCreative_of_row_fields : forall r pc,
  ProcessedCreative_of_row r = Ok pc ->
  pc_name pc = row_name r
  /\ creative_type pc = row_creative_type r
  /\ processed_code pc = row_processed_code r.
Proof.
  intros r pc H. unfold ProcessedCreative_of_row in H.
  destruct (CreativeFormat_of_value (row_format r)) as [fmt | e];
    [| discriminate].
  cbn [bind] in H.
  destruct (ViewabilityConfig_new (phase (row_viewability_config r))
              (vendors (row_viewability_config r))
              (method (row_viewability_config r))
              (dv_native (row_viewability_config r))
              (ias_removed (row_viewability_config r))
              (ias_s2s_enabled (row_viewability_config r))
              (dsp_seat_id (row_viewability_config r))
              (pub_id (row_viewability_config r))) as [vc | e];
    [| discriminate].
  cbn [bind] in H. injection H as <-. repeat split; reflexivity.
Qed.

Section UploadFacts.

Variable campaign_data : Type.
Variable time_ms : nat -> Z.
Variable utcnow : nat -> Z.

(** The runs of the method, by what the table holds and what the upload
    accepts. *)
Lemma upload_to_amazon_dsp_run : forall creative_id advertiser_id w
  (amazon : client campaign_data),
  match select_by_id creative_id (db w) with
  | [] =>
      Upload.upload_to_amazon_dsp campaign_data time_ms utcnow creative_id
        advertiser_id (w, amazon)
      = (Raised (Error (ValueError
                          (py "Processed creative not found: " ++ creative_id))),
         (w, amazon))
  | [row] =>
      match ProcessedCreative_of_row row with
      | Raise e =>
          Upload.upload_to_amazon_dsp campaign_data time_ms utcnow creative_id
            advertiser_id (w, amazon)
          = (Raised (Error e), (w, amazon))
      | Ok pc =>
          let request :=
            mkAmazonCreativeUploadRequest (row_name row) (row_creative_type row)
              (row_processed_code row) 320 50 advertiser_id None
              (Some (pc_viewability_config pc)) in
          let r := upload_creative campaign_data time_ms utcnow request amazon in
          if accepted request
          then exists response,
                 run_result r = Returned (Some response)
                 /\ Upload.upload_to_amazon_dsp campaign_data time_ms utcnow
                      creative_id advertiser_id (w, amazon)
                    = (Returned (resp_creative_id response),
                       (mkWorld
                          (Upload.update_row creative_id
                             (resp_creative_id response) (resp_status response)
                             (db w))
                          (fetched w),
                        run_final r))
          else exists e,
                 Upload.upload_to_amazon_dsp campaign_data time_ms utcnow
                   creative_id advertiser_id (w, amazon)
                 = (Raised e, (w, amazon))
      end
  | _ =>
      Upload.upload_to_amazon_dsp campaign_data time_ms utcnow creative_id
        advertiser_id (w, amazon)
      = (Raised (Error MultipleResultsFound), (w, amazon))
  end.
Proof.
  intros cid adv w amazon.
  unfold Upload.upload_to_amazon_dsp, get_processed_creative.
  destruct (select_by_id cid (db w)) as [| row [| row' rows]] eqn:S;
    cbn [scalar_one_or_none]; [reflexivity | | reflexivity].
  destruct (ProcessedCreative_of_row row) as [pc | e] eqn:P; cbn [bind];
    [| reflexivity].
  rewrite upload_dimensions_constant.
  destruct (ProcessedCreative_of_row_fields _ _ P) as [F1 [F2 F3]].
  rewrite F1, F2, F3. cbv zeta.
  destruct (accepted
              (mkAmazonCreativeUploadRequest (row_name row)
                 (row_creative_type row) (row_processed_code row) 320 50 adv
                 None (Some (pc_viewability_config pc)))) eqn:H.
  - rewrite (upload_accepted _ _ _ _ _ H). cbn [run_result run_final].
    rewrite S. cbn [scalar_one_or_none].
    eexists. split; [reflexivity |]. reflexivity.
  - rewrite (upload_refused _ _ _ _ _ H). cbn [run_result run_final].
    eexists. reflexivity.
Qed.

End UploadFacts.

(** X27. An upload that fails changes nothing: whenever
    [upload_to_amazon_dsp] raises, the table and the client of the platform
    are as they were before the call.  For an identifier that is not in the
    table it raises the [ValueError] that names the identifier. *)
Theorem X27_failed_upload_changes_nothing :
  forall (campaign_data : Type) time_ms utcnow creative_id advertiser_id
         (st : World * client campaign_data),
    (forall e st',
       Upload.upload_to_amazon_dsp campaign_data time_ms utcnow creative_id
         advertiser_id st = (Raised e, st') ->
       st' = st)
    /\ (select_by_id creative_id (db (fst st)) = [] ->
        Upload.upload_to_amazon_dsp campaign_data time_ms utcnow creative_id
          advertiser_id st
        = (Raised (Error (ValueError
                            (py "Processed creative not found: " ++ creative_id))),
           st)).
Proof.
  intros campaign_data time_ms utcnow cid adv [w amazon]. cbn [fst].
  pose proof (upload_to_amazon_dsp_run campaign_data time_ms utcnow cid adv w
                amazon) as R.
  destruct (select_by_id cid (db w)) as [| row [| row' rows]].
  - split; [| intros _; exact R].
    intros e st' H. rewrite R in H. injection H as _ <-. reflexivity.
  - split; [| discriminate].
    intros e st' H.
    destruct (ProcessedCreative_of_row row) as [pc | e0].
    + cbv zeta in R.
      destruct (accepted
                  (mkAmazonCreativeUploadRequest (row_name row)
                     (row_creative_type row) (row_processed_code row) 320 50
                     adv None (Some (pc_viewability_config pc)))).
      * destruct R as [response [_ R]]. rewrite R in H. discriminate.
      * destruct R as [e1 R]. rewrite R in H. injection H as _ <-. reflexivity.
    + rewrite R in H. injection H as _ <-. reflexivity.
  - split; [| discriminate].
    intros e st' H. rewrite R in H. injection H as _ <-. reflexivity.
Qed.

Lemma X27_failed_upload_witness :
  select_by_id (py "no-such-creative") (db (fst (world_one, fresh_amazon))) = []
  /\ Upload.upload_to_amazon_dsp unit ticking ticking (py "no-such-creative")
       (py "1234567") (world_one, fresh_amazon)
     = (Raised (Error (ValueError
                         (py "Processed creative not found: "
                          ++ py "no-such-creative"))),
        (world_one, fresh_amazon)).
Proof.
  assert (S : select_by_id (py "no-such-creative")
                (db (fst (world_one, fresh_amazon))) = [])
    by (vm_compute; reflexivity).
  split; [exact S |].
  exact (proj2 (X27_failed_upload_changes_nothing unit ticking ticking
                  (py "no-such-creative") (py "1234567")
                  (world_one, fresh_amazon)) S).
Defined.



(** ** The detection of macros *)

Lemma startswith_self_app : forall k r, startswith k (k ++ r) = true.
Proof.
  induction k as [| c k IH]; intros r; [reflexivity |].
  cbn [app]. rewrite startswith_cons, Ascii.eqb_refl. apply IH.
Qed.

Lemma contains_split : forall k s,
  contains k s = true <-> exists a t, s = a ++ t /\ startswith k t = true.
Proof.
  intros k s. split.
  - induction s as [| c s IH]; intros H.
    + exists [], []. split; [reflexivity |].
      cbn [contains] in H. rewrite orb_false_r in H. exact H.
    + rewrite contains_cons in H. apply orb_true_iff in H.
      destruct H as [H | H].
      * exists [], (c :: s). split; [reflexivity | exact H].
      * destruct (IH H) as [a [t [E S]]]. exists (c :: a), t.
        split; [cbn [app]; rewrite E; reflexivity | exact S].
  - intros [a [t [-> S]]]. induction a as [| c a IH].
    + destruct t as [| c t]; cbn [app contains]; rewrite S; reflexivity.
    + cbn [app]. rewrite contains_cons, IH. apply orb_true_r.
Qed.

(** A match of a literal pattern, without flags, is the literal. *)
Lemma match_literal : forall k s m r,
  match_here no_flags (litl k) s = Some (m, r) -> m = k /\ s = k ++ r.
Proof.
  induction k as [| c k IH]; intros s m r H.
  - cbn [litl map match_here] in H. injection H as <- <-. split; reflexivity.
  - cbn [litl map match_here] in H. destruct s as [| x s]; [discriminate |].
    cbn [cset_match catom_match no_flags IGNORECASE] in H.
    destruct (Ascii.eqb c x) eqn:E; [| discriminate].
    apply Ascii.eqb_eq in E. subst x.
    fold (litl k) in H.
    destruct (match_here no_flags (litl k) s) as [[m' r'] |] eqn:M;
      [| discriminate].
    cbn [consumed] in H. injection H as <- <-.
    destruct (IH _ _ _ M) as [-> ->]. split; reflexivity.
Qed.

Lemma match_literal_starts : forall k s,
  startswith k s = true -> match_here no_flags (litl k) s <> None.
Proof.
  induction k as [| c k IH]; intros s H; [discriminate |].
  destruct s as [| x s]; [discriminate |].
  rewrite startswith_cons in H. apply andb_true_iff in H. destruct H as [H1 H2].
  cbn [litl map match_here cset_match catom_match no_flags IGNORECASE].
  rewrite H1. fold (litl k). specialize (IH s H2).
  destruct (match_here no_flags (litl k) s) as [[m r] |]; [discriminate |].
  congruence.
Qed.

Lemma findall_literal : forall k s m,
  begins_with_one (litl k) = true ->
  (In m (findall no_flags (litl k) s) <-> m = k /\ contains k s = true).
Proof.
  intros k s m B. split.
  - intros H. split.
    + destruct (findall_In no_flags (litl k) B (length s) s m (le_n _) H)
        as [t [r M]].
      apply (match_literal _ _ _ _ M).
    + destruct (contains k s) eqn:C; [reflexivity |]. exfalso.
      assert (E : findall no_flags (litl k) s = []).
      { apply (findall_nil_iff no_flags (litl k) B). intros [a [t [E M]]].
        destruct (match_here no_flags (litl k) t) as [[m' r'] |] eqn:M';
          [| congruence].
        apply match_literal in M'. destruct M' as [_ ->].
        assert (C' : contains k s = true).
        { apply contains_split. exists a, (k ++ r').
          split; [exact E | apply startswith_self_app]. }
        congruence. }
      rewrite E in H. destruct H.
  - intros [-> C]. apply contains_split in C. destruct C as [a [t [E S]]].
    destruct (findall no_flags (litl k) s) as [| m ms] eqn:F.
    + exfalso. apply (findall_nil_iff no_flags (litl k) B) in F. apply F.
      exists a, t. split; [exact E | apply match_literal_starts; exact S].
    + assert (I : In m (findall no_flags (litl k) s))
        by (rewrite F; left; reflexivity).
      destruct (findall_In no_flags (litl k) B (length s) s m (le_n _) I)
        as [t' [r' M]].
      apply match_literal in M. destruct M as [-> _]. left. reflexivity.
Qed.

(** X29. [detect_amazon_macros] returns a text exactly when it is one of
    the six placeholders that its patterns spell out and occurs in the
    code; and in what [inject_amazon_macros] returns it never finds the
    generic cache-buster placeholder. *)
Theorem X29_detected_macros_are_the_placeholders_present :
  forall creative_code,
    (forall m,
       In m (detect_amazon_macros creative_code)
       <-> In m detected_literals /\ contains m creative_code = true)
    /\ ~ In (py "${CACHEBUSTER}")
           (detect_amazon_macros (inject_amazon_macros creative_code)).
Proof.
  assert (D : forall code m,
             In m (detect_amazon_macros code)
             <-> In m detected_literals /\ contains m code = true).
  { intros code m. unfold detect_amazon_macros.
    change AMAZON_MACRO_PATTERNS with (map litl detected_literals).
    rewrite in_flat_map. split.
    - intros [p [Hp Hm]]. apply in_map_iff in Hp. destruct Hp as [k [<- Hk]].
      assert (B : begins_with_one (litl k) = true).
      { unfold detected_literals in Hk. cbn [In] in Hk.
        repeat (destruct Hk as [<- | Hk]; [reflexivity |]). destruct Hk. }
      apply (findall_literal _ _ _ B) in Hm. destruct Hm as [-> C].
      split; assumption.
    - intros [Hk C]. exists (litl m). split; [apply in_map; exact Hk |].
      assert (B : begins_with_one (litl m) = true).
      { unfold detected_literals in Hk. cbn [In] in Hk.
        repeat (destruct Hk as [<- | Hk]; [reflexivity |]). destruct Hk. }
      apply (findall_literal _ _ _ B). split; [reflexivity | exact C]. }
  intros code. split; [apply D |].
  intros H. apply D in H. destruct H as [_ C].
  assert (K : In (py "${CACHEBUSTER}") (map fst AMAZON_MACROS))
    by (vm_compute; repeat (first [left; reflexivity | right])).
  rewrite (inject_leaves_no_placeholder code _ K) in C. discriminate.
Qed.

(** ** The dates of a campaign *)

(** X30. [validate_date_range] reports nothing exactly when the start is
    not before today, the end is after the start and no more than 365 days
    after it.  The error of a start that is not before the end and the
    error of a run of less than one day are always reported together. *)
Theorem X30_date_range_errors :
  forall today start_date end_date,
    (validate_date_range today start_date end_date = []
     <-> (today <= start_date /\ start_date < end_date
          /\ end_date - start_date <= 365)%Z)
    /\ (In (py "Start date must be before end date")
          (validate_date_range today start_date end_date)
        <-> In (py "Campaign must run for at least 1 day")
              (validate_date_range today start_date end_date)).
Proof.
  intros today s e. unfold validate_date_range.
  destruct (e <=? s)%Z eqn:A; [apply Z.leb_le in A | apply Z.leb_gt in A];
    destruct (s <? today)%Z eqn:B; [apply Z.ltb_lt in B | apply Z.ltb_ge in B
                                   | apply Z.ltb_lt in B | apply Z.ltb_ge in B];
    destruct (365 <? e - s)%Z eqn:C; [apply Z.ltb_lt in C | apply Z.ltb_ge in C
                                     | apply Z.ltb_lt in C | apply Z.ltb_ge in C
                                     | apply Z.ltb_lt in C | apply Z.ltb_ge in C
                                     | apply Z.ltb_lt in C | apply Z.ltb_ge in C];
    destruct (e - s <? 1)%Z eqn:E; try apply Z.ltb_lt in E;
      try apply Z.ltb_ge in E; try lia;
    cbn [app]; (split; [split; [discriminate | lia] |]) ||
               (split; [split; [reflexivity | lia] |]) || idtac;
    try (split; [split; [intros _; lia | reflexivity] |]);
    split; intros H; cbn [In] in *;
    repeat match goal with
           | H : _ \/ _ |- _ => destruct H as [H | H]
           | H : False |- _ => destruct H
           | H : py _ = py _ |- _ => discriminate H
           end;
    try (left; reflexivity);
    try (right; left; reflexivity);
    try (right; right; left; reflexivity);
    try (right; right; right; left; reflexivity).
Qed.
